(** * Query processing and error taxonomy of the product catalogue API

  A shallow embedding of [utils/queryHelpers.js] (class [QueryProcessor]),
  [utils/statsCalculator.js] (class [StatsCalculator]), the error classes
  under [errors/] and the [GET /api/products] handler of [server.js],
  followed by the properties of the specification that concern them.

  Conventions of the embedding.
  - A JavaScript string is the sequence of its UTF-16 code units, and a
    [string] holds code units below 256 (the Latin-1 range): strings with
    other code units are outside the embedding. White space and case
    folding are those of ECMAScript on that range.
  - A query-string value is [undefined], a string, or an array of strings
    (what the query parser of Express produces for a repeated key).
  - Integers produced by [parseInt] are exact integers ([Z]); a finite
    number is a decimal [mant * 10 ^ expo] (every IEEE double is one);
    the rounding of doubles is not modelled. The embedding computes what
    the code computes as long as the integers stay within 2 ^ 53 in
    absolute value and the decimals are ones that the code holds without
    rounding; a statement that depends on it says so.
  - Arrays are mutable objects: they live in a store and are passed by
    reference, so that in-place updates and aliasing are visible. *)

From stdpp Require Import gmap.
From Stdlib Require Import ZArith List String Ascii Bool Lia DecimalString.
From Stdlib Require Import Permutation Sorted.
Import ListNotations.

Local Open Scope string_scope.
Local Open Scope Z_scope.

(** ** Strings *)

Module Str.

Definition code (c : ascii) : Z := Z.of_N (N_of_ascii c).

(** The capital letters below 256 are A to Z and U+00C0 to U+00DE without
    the multiplication sign U+00D7; each has its small letter 32 above. *)
Definition is_upper (c : ascii) : bool :=
  ((65 <=? code c) && (code c <=? 90))
  || ((192 <=? code c) && (code c <=? 222) && negb (code c =? 215)).

Definition lower_char (c : ascii) : ascii :=
  if is_upper c then ascii_of_N (N_of_ascii c + 32) else c.

(** [String.prototype.toLowerCase] *)
Fixpoint toLowerCase (s : string) : string :=
  match s with
  | EmptyString => EmptyString
  | String c s' => String (lower_char c) (toLowerCase s')
  end.

(** White space and line terminators below 256: TAB, LF, VT, FF, CR, SPACE
    and the no-break space U+00A0. *)
Definition is_space (c : ascii) : bool :=
  ((9 <=? code c) && (code c <=? 13)) || (code c =? 32) || (code c =? 160).

Fixpoint trimStart (s : string) : string :=
  match s with
  | String c s' => if is_space c then trimStart s' else s
  | EmptyString => EmptyString
  end.

(** Drops the trailing white space: a character is kept when something
    that is kept follows it, or when it is not white space. *)
Fixpoint trimEnd (s : string) : string :=
  match s with
  | EmptyString => EmptyString
  | String c s' =>
      match trimEnd s' with
      | EmptyString => if is_space c then EmptyString else String c EmptyString
      | t => String c t
      end
  end.

(** [String.prototype.trim] *)
Definition trim (s : string) : string := trimEnd (trimStart s).

(** [hay.includes(needle)] *)
Fixpoint includes (hay needle : string) : bool :=
  String.prefix needle hay ||
  match hay with
  | EmptyString => false
  | String _ hay' => includes hay' needle
  end.

(** [needle] is a substring of [hay]. *)
Definition occurs_in (needle hay : string) : Prop :=
  exists pre post : string, hay = pre ++ needle ++ post.

(** [Array.prototype.join] on an array of strings *)
Fixpoint join (sep : string) (l : list string) : string :=
  match l with
  | [] => EmptyString
  | [s] => s
  | s :: l' => s ++ sep ++ join sep l'
  end.

(** One step of [split]: [cur] is the piece being read. *)
Fixpoint split_from (sep : ascii) (cur : string) (s : string) : list string :=
  match s with
  | EmptyString => [cur]
  | String c s' =>
      if Ascii.eqb c sep then cur :: split_from sep EmptyString s'
      else split_from sep (cur ++ String c EmptyString) s'
  end.

(** [s.split(sep)] for a one-character separator *)
Definition split (sep : ascii) (s : string) : list string := split_from sep EmptyString s.

(** [s] between double quotes *)
Definition quoted (s : string) : string :=
  String "034"%char (s ++ String "034"%char EmptyString).

(** [a < b] on strings: lexicographic on character codes. *)
Fixpoint ltb (a b : string) : bool :=
  match a, b with
  | _, EmptyString => false
  | EmptyString, String _ _ => true
  | String x a', String y b' =>
      if code x <? code y then true
      else if code y <? code x then false
      else ltb a' b'
  end.

End Str.

(** ** Numbers *)

(** A finite number [mant * 10 ^ expo]. *)
Record decimal : Type := Dec { mant : Z; expo : Z }.

Inductive number : Type :=
| NaN
| NegInfinity
| Fin (d : decimal)
| Infinity.

Module Num.

Definition of_Z (z : Z) : number := Fin (Dec z 0).

(** Both mantissas scaled to the smaller exponent. *)
Definition scaled (a b : decimal) : Z * Z :=
  let e := Z.min (expo a) (expo b) in
  (mant a * 10 ^ (expo a - e), mant b * 10 ^ (expo b - e)).

Definition dec_ltb (a b : decimal) : bool :=
  let '(x, y) := scaled a b in x <? y.

Definition dec_is_zero (a : decimal) : bool := mant a =? 0.

(** [a < b]; every comparison with NaN is false. *)
Definition ltb (a b : number) : bool :=
  match a, b with
  | NaN, _ | _, NaN => false
  | _, NegInfinity => false
  | NegInfinity, _ => true
  | Infinity, _ => false
  | Fin _, Infinity => true
  | Fin x, Fin y => dec_ltb x y
  end.

Definition gtb (a b : number) : bool := ltb b a.

Definition isNaN (a : number) : bool :=
  match a with NaN => true | _ => false end.

(** ToBoolean on a number: 0 and NaN are falsy. *)
Definition truthy (a : number) : bool :=
  match a with
  | NaN => false
  | Fin d => negb (dec_is_zero d)
  | _ => true
  end.

(** [Math.min(a, b)] and [Math.max(a, b)]: NaN is contagious. *)
Definition min (a b : number) : number :=
  match a, b with
  | NaN, _ | _, NaN => NaN
  | _, _ => if ltb b a then b else a
  end.

Definition max (a b : number) : number :=
  match a, b with
  | NaN, _ | _, NaN => NaN
  | _, _ => if ltb a b then b else a
  end.

Definition is_infinite (a : number) : bool :=
  match a with Infinity | NegInfinity => true | _ => false end.

End Num.

(** ** Number syntax: [parseInt], [parseFloat], [Number.prototype.toString] *)

Module Syntax.

(** Value of a character as a digit of the given radix. *)
Definition digit_val (radix : Z) (c : ascii) : option Z :=
  let n := Str.code c in
  let v := if (48 <=? n) && (n <=? 57) then Some (n - 48)
           else if (97 <=? n) && (n <=? 122) then Some (n - 87)
           else if (65 <=? n) && (n <=? 90) then Some (n - 55)
           else None in
  match v with
  | Some d => if d <? radix then Some d else None
  | None => None
  end.

(** Reads the longest prefix of digits; [acc] is [None] until a digit is
    seen. Returns the value read and the rest of the string. *)
Fixpoint read_digits (radix : Z) (acc : option Z) (len : Z) (s : string)
  : option Z * Z * string :=
  match s with
  | EmptyString => (acc, len, s)
  | String c s' =>
      match digit_val radix c with
      | Some d =>
          let a := match acc with Some a => a * radix + d | None => d end in
          read_digits radix (Some a) (len + 1) s'
      | None => (acc, len, s)
      end
  end.

(** Strips an optional sign; the boolean tells whether it was a minus. *)
Definition read_sign (s : string) : bool * string :=
  match s with
  | String "-" s' => (true, s')
  | String "+" s' => (false, s')
  | _ => (false, s)
  end.

(** Strips [0x] or [0X]. *)
Definition read_hex_prefix (s : string) : option string :=
  match s with
  | String "0" (String "x" s') => Some s'
  | String "0" (String "X" s') => Some s'
  | _ => None
  end.

(** [parseInt(s)] with no radix argument; [None] is NaN. *)
Definition parseInt (s : string) : option Z :=
  let '(neg, s1) := read_sign (Str.trimStart s) in
  let '(radix, s2) := match read_hex_prefix s1 with
                      | Some s' => (16, s')
                      | None => (10, s1)
                      end in
  match read_digits radix None 0 s2 with
  | (Some n, _, _) => Some (if neg then - n else n)
  | (None, _, _) => None
  end.

(** The exponent part [e], [e+], [e-] followed by at least one digit. *)
Definition read_exponent (s : string) : Z :=
  match s with
  | String c s' =>
      if Ascii.eqb c "e" || Ascii.eqb c "E" then
        let '(neg, s'') := read_sign s' in
        match read_digits 10 None 0 s'' with
        | (Some e, _, _) => if neg then - e else e
        | (None, _, _) => 0
        end
      else 0
  | EmptyString => 0
  end.

(** [parseFloat(s)]: the longest prefix that is a decimal literal. *)
Definition parseFloat (s : string) : number :=
  let '(neg, s1) := read_sign (Str.trimStart s) in
  if String.prefix "Infinity" s1 then (if neg then NegInfinity else Infinity)
  else
    let '(ip, _, s2) := read_digits 10 None 0 s1 in
    let '(fp, flen, s3) :=
      match s2 with
      | String "." s' =>
          match read_digits 10 None 0 s' with
          | (None, _, _) =>
              (* "5." is a literal, "." alone is not *)
              (None, 0, match ip with Some _ => s' | None => s2 end)
          | r => r
          end
      | _ => (None, 0, s2)
      end in
    match ip, fp with
    | None, None => NaN
    | _, _ =>
        let i := match ip with Some i => i | None => 0 end in
        let f := match fp with Some f => f | None => 0 end in
        let m := i * 10 ^ flen + f in
        Fin (Dec (if neg then - m else m) (read_exponent s3 - flen))
    end.

(** Decimal digits of a natural number. *)
Definition digits (z : Z) : string :=
  DecimalString.NilZero.string_of_uint (N.to_uint (Z.to_N z)).

Fixpoint zeros (n : nat) : string :=
  match n with O => EmptyString | S n' => String "0" (zeros n') end.

(** Removes the trailing zeros of a digit string, counting them. *)
Fixpoint strip_zeros (s : string) : string * Z :=
  match s with
  | EmptyString => (EmptyString, 0)
  | String c s' =>
      match strip_zeros s' with
      | (EmptyString, k) =>
          if Ascii.eqb c "0" then (EmptyString, k + 1)
          else (String c EmptyString, k)
      | (t, k) => (String c t, k)
      end
  end.

Definition slen (s : string) : Z := Z.of_nat (String.length s).

(** [Number.prototype.toString] on a finite number, after ECMA-262
    Number::toString: [s] are the significant digits, [k] their number,
    and the value is [0.s * 10 ^ n]. *)
Definition dec_toString (d : decimal) : string :=
  if mant d =? 0 then "0"
  else
    let '(s, z) := strip_zeros (digits (Z.abs (mant d))) in
    let k := slen s in
    let n := k + z + expo d in
    let sign := if mant d <? 0 then "-" else EmptyString in
    let body :=
      if (k <=? n) && (n <=? 21) then s ++ zeros (Z.to_nat (n - k))
      else if (0 <? n) && (n <=? 21) then
        String.substring 0 (Z.to_nat n) s ++ "." ++
        String.substring (Z.to_nat n) (Z.to_nat (k - n)) s
      else if (-6 <? n) && (n <=? 0) then "0." ++ zeros (Z.to_nat (- n)) ++ s
      else
        let e := n - 1 in
        let es := (if e <? 0 then "-" else "+") ++ digits (Z.abs e) in
        if k =? 1 then s ++ "e" ++ es
        else String.substring 0 1 s ++ "." ++
             String.substring 1 (Z.to_nat (k - 1)) s ++ "e" ++ es
    in sign ++ body.

Definition num_toString (x : number) : string :=
  match x with
  | NaN => "NaN"
  | Infinity => "Infinity"
  | NegInfinity => "-Infinity"
  | Fin d => dec_toString d
  end.

End Syntax.

(** ** Dynamically typed values *)

(** [VObj] stands for any other object or function, by the text that its
    [toString()] returns. *)
#[local] Set Warnings "-register-all".
Inductive jsval : Type :=
| VUndefined
| VNull
| VBool (b : bool)
| VNum (n : number)
| VStr (s : string)
| VArr (l : list jsval)
| VObj (text : string).

Module Val.

(** ToBoolean *)
Definition truthy (v : jsval) : bool :=
  match v with
  | VUndefined | VNull => false
  | VBool b => b
  | VNum n => Num.truthy n
  | VStr s => negb (String.eqb s EmptyString)
  | VArr _ | VObj _ => true
  end.

(** [v.toString()]; the source only calls it on truthy values, and the
    entries for [undefined] and [null] are those of [String(v)]. *)
Fixpoint toString (v : jsval) : string :=
  match v with
  | VUndefined => "undefined"
  | VNull => "null"
  | VBool true => "true"
  | VBool false => "false"
  | VNum n => Syntax.num_toString n
  | VStr s => s
  | VArr l =>
      Str.join ","
        (List.map (fun x => match x with
                            | VUndefined | VNull => EmptyString
                            | _ => toString x
                            end) l)
  | VObj text => text
  end.

Definition int (z : Z) : jsval := VNum (Num.of_Z z).

Definition strings (l : list string) : jsval := VArr (List.map VStr l).

End Val.

(** ** Raw query input *)

(** A value of [req.query]. *)
Inductive qval : Type :=
| QUndefined
| QStr (s : string)
| QArr (l : list string).

Module QVal.

Definition truthy (v : qval) : bool :=
  match v with
  | QUndefined => false
  | QStr s => negb (String.eqb s EmptyString)
  | QArr _ => true
  end.

(** [String(v)], the conversion applied by [parseInt] and [parseFloat]. *)
Definition toString (v : qval) : string :=
  match v with
  | QUndefined => "undefined"
  | QStr s => s
  | QArr l => Str.join "," l
  end.

(** [v === s] for a string literal [s]. *)
Definition is_string (v : qval) (s : string) : bool :=
  match v with
  | QStr t => String.eqb t s
  | _ => false
  end.

End QVal.

(** The keys of [req.query] that the query processor reads. *)
Record Query : Type := {
q_page : qval;
q_limit : qval;
q_category : qval;
q_minPrice : qval;
q_maxPrice : qval;
q_inStock : qval;
q_q : qval;
q_search : qval;
q_fields : qval;
q_sortBy : qval;
q_sortOrder : qval
}.

Definition emptyQuery : Query :=
{| q_page := QUndefined; q_limit := QUndefined; q_category := QUndefined;
   q_minPrice := QUndefined; q_maxPrice := QUndefined;
   q_inStock := QUndefined; q_q := QUndefined; q_search := QUndefined;
   q_fields := QUndefined; q_sortBy := QUndefined;
   q_sortOrder := QUndefined |}.

(** A call either returns or throws an [Error] with a message. *)
Inductive outcome (A : Type) : Type :=
| Return (a : A)
| Throw (message : string).
Arguments Return {A} a.
Arguments Throw {A} message.

Definition throws {A : Type} (o : outcome A) : bool :=
match o with Throw _ => true | Return _ => false end.

(** ** Parsed parameters *)

Record Pagination : Type := {
page : Z;
limit : Z;
skip : Z;
offset : Z
}.

Record PriceFilter : Type := {
price_min : option number;
price_max : option number
}.

Record FilterSet : Type := {
f_category : option (list string);
f_price : option PriceFilter;
f_inStock : option bool
}.

Record SearchSpec : Type := {
term : option string;
fields : list string
}.

Inductive SortOrder : Type := asc | desc.

Record SortSpec : Type := {
field : string;
order : SortOrder
}.

(** ** Products *)

Record Product : Type := {
id : string;
name : string;
description : string;
price : decimal;
category : string;
inStock : bool;
createdAt : string;
updatedAt : string
}.

(** The methods that a product, an object literal, inherits from
  [Object.prototype] under their own names. *)
Definition inheritedMethods : list string :=
["__defineGetter__"; "__defineSetter__"; "hasOwnProperty";
 "__lookupGetter__"; "__lookupSetter__"; "isPrototypeOf";
 "propertyIsEnumerable"; "toString"; "valueOf"; "toLocaleString"].

(** What [toString()] returns on a built-in function. *)
Definition nativeText (name : string) : string :=
"function " ++ name ++ "() { [native code] }".

(** [product[field]]: the eight own properties of a product record, then
  what the record inherits: [constructor] is the function [Object],
  [__proto__] is [Object.prototype], the other names are methods. Any
  other name reads as [undefined]. *)
Definition get_field (p : Product) (f : string) : jsval :=
if String.eqb f "id" then VStr (id p)
else if String.eqb f "name" then VStr (name p)
else if String.eqb f "description" then VStr (description p)
else if String.eqb f "price" then VNum (Fin (price p))
else if String.eqb f "category" then VStr (category p)
else if String.eqb f "inStock" then VBool (inStock p)
else if String.eqb f "createdAt" then VStr (createdAt p)
else if String.eqb f "updatedAt" then VStr (updatedAt p)
else if String.eqb f "constructor" then VObj (nativeText "Object")
else if String.eqb f "__proto__" then VObj "[object Object]"
else if List.existsb (String.eqb f) inheritedMethods then VObj (nativeText f)
else VUndefined.

(** ** QueryProcessor: parsing *)

Module QueryProcessor.

(** [parseInt(v) || d]: NaN and 0 are falsy. *)
Definition parseInt_or (v : qval) (d : Z) : Z :=
  match Syntax.parseInt (QVal.toString v) with
  | None => d
  | Some n => if n =? 0 then d else n
  end.

Definition parsePagination (query : Query) : outcome Pagination :=
  let page := parseInt_or (q_page query) 1 in
  let limit := parseInt_or (q_limit query) 10 in
  let skip := (page - 1) * limit in
  if page <? 1 then Throw "Page number must be greater than 0"
  else if (limit <? 1) || (limit >? 100)
  then Throw "Limit must be between 1 and 100"
  else Return {| page := page; limit := limit; skip := skip; offset := skip |}.

Definition validCategories : list string :=
  ["electronics"; "kitchen"; "clothing"; "books"; "sports"; "toys"; "other"].

(** [l.includes(s)] *)
Definition includes (l : list string) (s : string) : bool :=
  List.existsb (String.eqb s) l.

(** The category part of [parseFilters]. *)
Definition parseCategory (query : Query) : outcome (option (list string)) :=
  if QVal.truthy (q_category query) then
    let categories :=
      match q_category query with
      | QArr l => List.map Str.toLowerCase l
      | QStr s => [Str.toLowerCase s]
      | QUndefined => []
      end in
    let invalidCategories :=
      List.filter (fun cat => negb (includes validCategories cat)) categories in
    if 0 <? Z.of_nat (List.length invalidCategories)
    then Throw ("Invalid categories: " ++ Str.join ", " invalidCategories ++
                ". Valid categories: " ++ Str.join ", " validCategories)
    else Return (Some categories)
  else Return None.

(** One bound of the price range: absent when the key is falsy. *)
Definition parseBound (v : qval) (message : string) : outcome (option number) :=
  if QVal.truthy v then
    let x := Syntax.parseFloat (QVal.toString v) in
    if Num.isNaN x || Num.ltb x (Num.of_Z 0) then Throw message
    else Return (Some x)
  else Return None.

(** [filters.price.min && ...]: the bound is set and is a truthy number. *)
Definition bound_truthy (b : option number) : bool :=
  match b with
  | Some x => Num.truthy x
  | None => false
  end.

Definition bound_gtb (a b : option number) : bool :=
  match a, b with
  | Some x, Some y => Num.gtb x y
  | _, _ => false
  end.

(** The price part of [parseFilters]. *)
Definition parsePrice (query : Query) : outcome (option PriceFilter) :=
  if QVal.truthy (q_minPrice query) || QVal.truthy (q_maxPrice query) then
    match parseBound (q_minPrice query) "minPrice must be a valid positive number" with
    | Throw m => Throw m
    | Return min =>
        match parseBound (q_maxPrice query) "maxPrice must be a valid positive number" with
        | Throw m => Throw m
        | Return max =>
            if bound_truthy min && bound_truthy max && bound_gtb min max
            then Throw "minPrice cannot be greater than maxPrice"
            else Return (Some {| price_min := min; price_max := max |})
        end
    end
  else Return None.

(** The stock part of [parseFilters]. *)
Definition parseInStock (query : Query) : outcome (option bool) :=
  match q_inStock query with
  | QUndefined => Return None
  | v => if QVal.is_string v "true" then Return (Some true)
         else if QVal.is_string v "false" then Return (Some false)
         else Throw ("inStock must be " ++ Str.quoted "true" ++ " or " ++ Str.quoted "false")
  end.

Definition parseFilters (query : Query) : outcome FilterSet :=
  match parseCategory query with
  | Throw m => Throw m
  | Return c =>
      match parsePrice query with
      | Throw m => Throw m
      | Return p =>
          match parseInStock query with
          | Throw m => Throw m
          | Return s =>
              Return {| f_category := c; f_price := p; f_inStock := s |}
          end
      end
  end.

Definition validSortFields : list string :=
  ["name"; "price"; "category"; "inStock"; "createdAt"; "updatedAt"].

Definition parseSorting (query : Query) : outcome SortSpec :=
  if QVal.truthy (q_sortBy query) then
    match q_sortBy query with
    | QStr s =>
        if includes validSortFields s then
          Return {| field := s;
                    order := if QVal.is_string (q_sortOrder query) "desc"
                             then desc else asc |}
        else Throw ("Invalid sortBy field. Valid fields: " ++
                    Str.join ", " validSortFields)
    | _ => Throw ("Invalid sortBy field. Valid fields: " ++
                  Str.join ", " validSortFields)
    end
  else Return {| field := "createdAt"; order := desc |}.

(** [query.q || query.search] *)
Definition searchInput (query : Query) : qval :=
  if QVal.truthy (q_q query) then q_q query else q_search query.

(** An array where a string is expected makes [trim] or [split] fail with a
    TypeError; the text of its message is the engine's and is only indicative
    here. Without a term the source returns an object with no property:
    [term] is [None] and [fields] is not read. *)
Definition parseSearch (query : Query) : outcome SearchSpec :=
  if QVal.truthy (q_q query) || QVal.truthy (q_search query) then
    match searchInput query with
    | QStr s =>
        let searchTerm := Str.trim s in
        if Syntax.slen searchTerm <? 2
        then Throw "Search term must be at least 2 characters long"
        else if Syntax.slen searchTerm >? 100
        then Throw "Search term must be less than 100 characters"
        else
          match q_fields query with
          | QArr _ => Throw "query.fields.split is not a function"
          | QStr f =>
              Return {| term := Some (Str.toLowerCase searchTerm);
                        fields := if String.eqb f EmptyString
                                  then ["name"; "description"]
                                  else Str.split "," f |}
          | QUndefined =>
              Return {| term := Some (Str.toLowerCase searchTerm);
                        fields := ["name"; "description"] |}
          end
    | _ => Throw "(query.q || query.search).trim is not a function"
    end
  else Return {| term := None; fields := [] |}.

End QueryProcessor.

(** ** QueryProcessor: transformations of a product sequence *)

Module Transform.

Import QueryProcessor.

(** The callback of [applyFilters]. *)
Definition passesFilters (filters : FilterSet) (product : Product) : bool :=
  if match f_category filters with
     | Some cats => negb (includes cats (category product))
     | None => false
     end
  then false
  else if match f_price filters with
          | Some pf =>
              (bound_truthy (price_min pf) &&
               bound_gtb (price_min pf) (Some (Fin (price product))))
              || (bound_truthy (price_max pf) &&
                  bound_gtb (Some (Fin (price product))) (price_max pf))
          | None => false
          end
  then false
  else if match f_inStock filters with
          | Some b => negb (Bool.eqb (inStock product) b)
          | None => false
          end
  then false
  else true.

(** [products.filter(...)] of [applyFilters], on the content of the array. *)
Definition applyFilters (products : list Product) (filters : FilterSet)
  : list Product :=
  List.filter (passesFilters filters) products.

(** [!search.term] is false: the term is set and not the empty string. *)
Definition term_set (search : SearchSpec) : option string :=
  match term search with
  | Some t => if String.eqb t EmptyString then None else Some t
  | None => None
  end.

(** The callback of [applySearch]. *)
Definition matchesSearch (t : string) (flds : list string) (product : Product)
  : bool :=
  List.existsb
    (fun f =>
       let fieldValue := get_field product f in
       Val.truthy fieldValue &&
       Str.includes (Str.toLowerCase (Val.toString fieldValue)) t)
    flds.

Definition applySearch (products : list Product) (search : SearchSpec)
  : list Product :=
  match term_set search with
  | None => products
  | Some t => List.filter (matchesSearch t (fields search)) products
  end.

(** ToNumber, for the relational operators on operands that are not both
    strings or both objects. Both operands of the comparator are read from
    the same field, so a string or an object never meets a value of
    another kind. *)
Definition toNumber (v : jsval) : number :=
  match v with
  | VNum n => n
  | VBool true => Num.of_Z 1
  | VBool false | VNull => Num.of_Z 0
  | VUndefined | VStr _ | VArr _ | VObj _ => NaN
  end.

(** [x < y]: two objects are compared by their texts. *)
Definition lt (x y : jsval) : bool :=
  match x, y with
  | VStr a, VStr b => Str.ltb a b
  | VObj a, VObj b => Str.ltb a b
  | _, _ => Num.ltb (toNumber x) (toNumber y)
  end.

Definition lowered (v : jsval) : jsval :=
  match v with
  | VStr s => VStr (Str.toLowerCase s)
  | _ => v
  end.

(** The comparator handed to [products.sort] by [applySorting]. When
    [aValue] is a string so is [bValue], read from the same field, and
    [bValue.toLowerCase()] is [lowered bValue]. *)
Definition compareProducts (sort : SortSpec) (a b : Product) : Z :=
  let aValue := get_field a (field sort) in
  let bValue := get_field b (field sort) in
  let '(aValue, bValue) :=
    match aValue with
    | VStr s => (VStr (Str.toLowerCase s), lowered bValue)
    | _ => (aValue, bValue)
    end in
  match order sort with
  | desc => if lt aValue bValue then 1 else if lt bValue aValue then -1 else 0
  | asc => if lt bValue aValue then 1 else if lt aValue bValue then -1 else 0
  end.

(** The order of two products by the key the comparator reads. *)
Definition key_lt (f : string) (a b : Product) : bool :=
  lt (lowered (get_field a f)) (lowered (get_field b f)).


(** [Array.prototype.sort(cmp)] on the content of the array: the sort is
    stable, an element moves behind another only when [cmp] is positive. *)
Fixpoint insert {A : Type} (cmp : A -> A -> Z) (x : A) (l : list A) : list A :=
  match l with
  | [] => [x]
  | y :: l' => if cmp x y >? 0 then y :: insert cmp x l' else x :: l
  end.

Fixpoint Array_sort {A : Type} (cmp : A -> A -> Z) (l : list A) : list A :=
  match l with
  | [] => []
  | x :: l' => insert cmp x (Array_sort cmp l')
  end.

(** The content of the array after [applySorting]. *)
Definition sorted (products : list Product) (sort : SortSpec) : list Product :=
  Array_sort (compareProducts sort) products.

(** [Array.prototype.slice(start, end)] *)
Definition slice {A : Type} (l : list A) (start stop : Z) : list A :=
  let len := Z.of_nat (List.length l) in
  let k := if start <? 0 then Z.max (len + start) 0 else Z.min start len in
  let final := if stop <? 0 then Z.max (len + stop) 0 else Z.min stop len in
  List.firstn (Z.to_nat (final - k)) (List.skipn (Z.to_nat k) l).

(** [Math.ceil(n / d)] on integers. *)
Definition ceil_div (n d : Z) : number :=
  if d =? 0 then (if n =? 0 then NaN
                  else if n <? 0 then NegInfinity else Infinity)
  else Num.of_Z (- ((- n) / d)).

Record PageInfo : Type := {
  currentPage : Z;
  totalPages : number;
  totalItems : Z;
  itemsPerPage : Z;
  hasNextPage : bool;
  hasPrevPage : bool
}.

Definition pageInfo (products : list Product) (pagination : Pagination)
  : PageInfo :=
  let startIndex := skip pagination in
  let endIndex := startIndex + limit pagination in
  let len := Z.of_nat (List.length products) in
  {| currentPage := page pagination;
     totalPages := ceil_div len (limit pagination);
     totalItems := len;
     itemsPerPage := limit pagination;
     hasNextPage := endIndex <? len;
     hasPrevPage := page pagination >? 1 |}.

(** [applyPagination], on the content of the array: the page and its
    metadata. *)
Definition applyPagination (products : list Product) (pagination : Pagination)
  : list Product * PageInfo :=
  let startIndex := skip pagination in
  let endIndex := startIndex + limit pagination in
  (slice products startIndex endIndex, pageInfo products pagination).

End Transform.

(** ** The error classes *)

Module Errors.

(** What a constructor and [toJSON] read from their surroundings: the
    clock ([new Date().toISOString()]), the captured stack, and whether
    [NODE_ENV] is ['development']. *)
Record Env : Type := {
  now : string;
  stackTrace : string;
  development : bool
}.

(** The class of an error object and the fields its constructor adds. *)
Inductive ErrorClass : Type :=
| Base
| Validation (details : list string) (field : option string)
| Authentication (reason : string)
| Authorization (requiredPermission requiredRole : option string)
| NotFound (resource : string) (resourceId : option string).

(** An instance of [CustomError] or of one of its subclasses. *)
Record CustomError : Type := {
  class : ErrorClass;
  message : string;
  statusCode : jsval;
  errorCode : jsval;
  isOperational : bool;
  timestamp : string;
  stack : string
}.

(** [this.constructor.name] *)
Definition name (e : CustomError) : string :=
  match class e with
  | Base => "CustomError"
  | Validation _ _ => "ValidationError"
  | Authentication _ => "AuthenticationError"
  | Authorization _ _ => "AuthorizationError"
  | NotFound _ _ => "NotFoundError"
  end.

Definition errorType (c : ErrorClass) : jsval :=
  match c with
  | Base => VUndefined
  | Validation _ _ => VStr "validation"
  | Authentication _ => VStr "authentication"
  | Authorization _ _ => VStr "authorization"
  | NotFound _ _ => VStr "not_found"
  end.

(** The constructor of the base class, for any class of object. *)
Definition construct (env : Env) (c : ErrorClass) (message : string)
    (statusCode errorCode : jsval) (isOperational : bool) : CustomError :=
  {| class := c; message := message; statusCode := statusCode;
     errorCode := errorCode; isOperational := isOperational;
     timestamp := now env; stack := stackTrace env |}.

(** [new CustomError(message, statusCode, errorCode)] with both arguments
    given; a caller that may leave one out applies the default of the
    parameter itself. *)
Definition newCustomError (env : Env) (message : string)
    (statusCode errorCode : jsval) : CustomError :=
  construct env Base message statusCode errorCode true.

Definition newValidationError (env : Env) (message : string)
    (details : list string) (field : option string) : CustomError :=
  construct env (Validation details field) message
    (Val.int 400) (VStr "VALIDATION_ERROR") true.

Definition newAuthenticationError (env : Env) (message reason : string)
  : CustomError :=
  construct env (Authentication reason) message
    (Val.int 401) (VStr "AUTHENTICATION_ERROR") true.

Definition newAuthorizationError (env : Env) (message : string)
    (requiredPermission requiredRole : option string) : CustomError :=
  construct env (Authorization requiredPermission requiredRole) message
    (Val.int 403) (VStr "AUTHORIZATION_ERROR") true.

(** ToBoolean on a string that may be [null]. *)
Definition present (o : option string) : bool :=
  match o with
  | Some s => negb (String.eqb s EmptyString)
  | None => false
  end.

Definition text (o : option string) : string :=
  match o with Some s => s | None => "null" end.

Definition newNotFoundError (env : Env) (resource : string)
    (resourceId : option string) : CustomError :=
  let message :=
    if present resourceId
    then resource ++ " with ID '" ++ text resourceId ++ "' not found"
    else resource ++ " not found" in
  construct env (NotFound resource resourceId) message
    (Val.int 404) (VStr "RESOURCE_NOT_FOUND") true.

(** An object literal: its properties in order of creation. *)
Definition object : Type := list (string * jsval).

Fixpoint get (o : object) (key : string) : option jsval :=
  match o with
  | [] => None
  | (k, v) :: o' => if String.eqb k key then Some v else get o' key
  end.

(** Defines a property: an existing key keeps its place. *)
Fixpoint set (o : object) (key : string) (v : jsval) : object :=
  match o with
  | [] => [(key, v)]
  | (k, w) :: o' =>
      if String.eqb k key then (k, v) :: o' else (k, w) :: set o' key v
  end.

(** [{...o, ...(cond && {key: v})}] *)
Definition set_if (cond : bool) (o : object) (key : string) (v : jsval)
  : object :=
  if cond then set o key v else o.

Definition getHints (reason : string) : list string :=
  if String.eqb reason "MISSING_API_KEY" then
    ["Add header: X-API-Key: dev-key-12345";
     "Include the API key in your request headers"]
  else if String.eqb reason "INVALID_API_KEY" then
    ["Use one of: dev-key-12345, test-key-67890, admin-key-abcdef";
     "Check if your API key is spelled correctly"]
  else if String.eqb reason "EXPIRED_API_KEY" then
    ["Contact administrator for a new API key";
     "Check if your subscription is still active"]
  else [].

Definition getSolutions (requiredPermission requiredRole : option string)
  : list string :=
  (if present requiredPermission then
     ["Ensure your API key has '" ++ text requiredPermission ++ "' permission";
      "Contact administrator to upgrade your access level"]
   else []) ++
  (if present requiredRole then
     ["This operation requires '" ++ text requiredRole ++ "' role";
      "Use an API key with appropriate role privileges"]
   else []) ++
  ["Check the API documentation for required permissions"].

Definition getSuggestions (resource : string) : list string :=
  (if String.eqb resource "Product" then
     ["Check if the product ID is correct";
      "Use GET /api/products to list all available products";
      "Ensure the product exists and hasn't been deleted"]
   else []) ++
  (if String.eqb resource "Route" then
     ["Check the API documentation for valid endpoints";
      "Ensure you're using the correct HTTP method";
      "Verify the URL path is correct"]
   else []).

(** [CustomError.prototype.toJSON] *)
Definition baseJSON (env : Env) (e : CustomError) : object :=
  let o := [("success", VBool false);
            ("message", VStr (message e));
            ("error", errorCode e);
            ("statusCode", statusCode e);
            ("timestamp", VStr (timestamp e))] in
  if development env
  then set (set o "stack" (VStr (stack e))) "name" (VStr (name e))
  else o.

Definition opt (o : option string) : jsval :=
  match o with Some s => VStr s | None => VNull end.

(** [toJSON], dispatched on the class of the object. *)
Definition toJSON (env : Env) (e : CustomError) : object :=
  let o := baseJSON env e in
  match class e with
  | Base => o
  | Validation details field =>
      let o := set o "details" (Val.strings details) in
      let o := set_if (present field) o "field" (opt field) in
      set o "errorType" (errorType (class e))
  | Authentication reason =>
      let o := set o "reason" (VStr reason) in
      let o := set o "errorType" (errorType (class e)) in
      set o "hints" (Val.strings (getHints reason))
  | Authorization requiredPermission requiredRole =>
      let o := set_if (present requiredPermission) o
                 "requiredPermission" (opt requiredPermission) in
      let o := set_if (present requiredRole) o
                 "requiredRole" (opt requiredRole) in
      let o := set o "errorType" (errorType (class e)) in
      set o "solutions"
        (Val.strings (getSolutions requiredPermission requiredRole))
  | NotFound resource resourceId =>
      let o := set o "resource" (VStr resource) in
      let o := set_if (present resourceId) o "resourceId" (opt resourceId) in
      let o := set o "errorType" (errorType (class e)) in
      set o "suggestions" (Val.strings (getSuggestions resource))
  end.

(** An error object that is not an instance of [CustomError]. *)
Record NativeError : Type := {
  n_name : string;
  n_message : string;
  n_statusCode : jsval;
  n_code : jsval
}.

(** What reaches the error handler. *)
Inductive thrown : Type :=
| Instance (e : CustomError)
| Foreign (e : NativeError).

(** [v || d] *)
Definition or_else (v d : jsval) : jsval := if Val.truthy v then v else d.

End Errors.

Module ErrorFactory.

Import Errors.

Definition notFound (env : Env) (resource : string)
    (resourceId : option string) : CustomError :=
  newNotFoundError env resource resourceId.

Definition validation (env : Env) (message : string)
    (details : list string) (field : option string) : CustomError :=
  newValidationError env message details field.

(** The default of the [switch] on [error.name]. *)
Definition wrap (env : Env) (error : NativeError) : CustomError :=
  newCustomError env
    (if String.eqb (n_message error) EmptyString
     then "Internal server error" else n_message error)
    (or_else (n_statusCode error) (Val.int 500))
    (or_else (n_code error) (VStr "INTERNAL_ERROR")).

Definition fromNativeError (env : Env) (error : thrown) : CustomError :=
  match error with
  | Instance e => e
  | Foreign error =>
      if String.eqb (n_name error) "ValidationError" then
        newValidationError env (n_message error) [n_message error] None
      else if String.eqb (n_name error) "CastError" then
        newValidationError env "Invalid data format" [n_message error] None
      else if String.eqb (n_name error) "SyntaxError" then
        if Str.includes (n_message error) "JSON" then
          newValidationError env "Invalid JSON format"
            ["Request body must be valid JSON"] None
        else wrap env error
      else wrap env error
  end.

End ErrorFactory.

(** ** Arrays as objects in a store *)

(** The four transformations, as they appear in the record of calls. *)
Inductive stage : Type :=
| StageFilters
| StageSearch
| StageSorting
| StagePaging.

(** A call of a transformation: the array it was handed and the content of
  that array at the time of the call. *)
Record call : Type := Call {
call_stage : stage;
call_array : nat;
call_content : list Product
}.

(** The arrays in memory, by reference, and the calls made so far. *)
Record store : Type := Store {
arrays : gmap nat (list Product);
calls : list call
}.

Module Mem.

(** Computations that read and update the store; [None] is an access to a
    reference that denotes no array. *)
Definition M (A : Type) : Type := store -> option (A * store).

Definition ret {A : Type} (a : A) : M A := fun st => Some (a, st).

Definition bind {A B : Type} (m : M A) (k : A -> M B) : M B :=
  fun st => match m st with
            | Some (a, st') => k a st'
            | None => None
            end.

(** A new array with the given content. *)
Definition alloc (l : list Product) : M nat :=
  fun st =>
    let r := fresh (dom (arrays st)) in
    Some (r, Store (<[r := l]> (arrays st)) (calls st)).

Definition read (r : nat) : M (list Product) :=
  fun st => match arrays st !! r with
            | Some l => Some (l, st)
            | None => None
            end.

(** Overwrites the content of an existing array. *)
Definition write (r : nat) (l : list Product) : M unit :=
  fun st => match arrays st !! r with
            | Some _ => Some (tt, Store (<[r := l]> (arrays st)) (calls st))
            | None => None
            end.

Definition record (c : call) : M unit :=
  fun st => Some (tt, Store (arrays st) (calls st ++ [c])).

End Mem.

Notation "'let*' x := m 'in' k" := (Mem.bind m (fun x => k))
(at level 10, x name, m at level 100, k at level 200).

(** ** QueryProcessor on arrays, and the listing handler *)

Module Ref.

Import Mem.

(** On entry, each method notes the array it received. *)
Definition enter (s : stage) (products : nat) : M (list Product) :=
  let* l := read products in
  let* _ := record (Call s products l) in
  ret l.

(** [products.filter(...)] builds a new array. *)
Definition applyFilters (products : nat) (filters : FilterSet) : M nat :=
  let* l := enter StageFilters products in
  alloc (Transform.applyFilters l filters).

(** Without a term the very array that was passed is returned. *)
Definition applySearch (products : nat) (search : SearchSpec) : M nat :=
  let* l := enter StageSearch products in
  match Transform.term_set search with
  | None => ret products
  | Some _ => alloc (Transform.applySearch l search)
  end.

(** [products.sort(...)] reorders the array it is called on and returns
    that same array. *)
Definition applySorting (products : nat) (sort : SortSpec) : M nat :=
  let* l := enter StageSorting products in
  let* _ := write products (Transform.sorted l sort) in
  ret products.

(** [products.slice(...)] builds a new array for the page. *)
Definition applyPagination (products : nat) (pagination : Pagination)
  : M (nat * Transform.PageInfo) :=
  let* l := enter StagePaging products in
  let* data := alloc (fst (Transform.applyPagination l pagination)) in
  ret (data, snd (Transform.applyPagination l pagination)).

(** What [validateProductQuery] leaves on the request. *)
Record Request : Type := {
  req_pagination : Pagination;
  req_filters : FilterSet;
  req_search : SearchSpec;
  req_sort : SortSpec
}.

(** The middleware [validateProductQuery]: the four parsers in turn; what
    one of them throws is passed on as a validation error. *)
Definition validateProductQuery (env : Errors.Env) (query : Query)
  : Request + Errors.CustomError :=
  let failed (m : string) :=
    inr (ErrorFactory.validation env ("Query validation error: " ++ m)
           [m] (Some "query")) in
  match QueryProcessor.parsePagination query with
  | Throw m => failed m
  | Return pg =>
      match QueryProcessor.parseFilters query with
      | Throw m => failed m
      | Return fl =>
          match QueryProcessor.parseSearch query with
          | Throw m => failed m
          | Return se =>
              match QueryProcessor.parseSorting query with
              | Throw m => failed m
              | Return so =>
                  inl {| req_pagination := pg; req_filters := fl;
                         req_search := se; req_sort := so |}
              end
          end
      end
  end.

Record SearchMeta : Type := {
  sm_term : string;
  sm_fields : list string;
  resultsFound : Z
}.

(** The body of the response of [ResponseBuilder.buildListResponse]. *)
Record ListResponse : Type := {
  success : bool;
  data : list Product;
  meta_pagination : Transform.PageInfo;
  meta_filters : FilterSet;
  meta_search : option SearchMeta;
  meta_sorting : SortSpec;
  message : string
}.

Definition buildListResponse (products : list Product) (filters : FilterSet)
    (search : SearchSpec) (sort : SortSpec) (pagination : Transform.PageInfo)
  : ListResponse :=
  let n := Z.of_nat (List.length products) in
  {| success := true;
     data := products;
     meta_pagination := pagination;
     meta_filters := filters;
     meta_search :=
       match Transform.term_set search with
       | Some t => Some {| sm_term := t; sm_fields := fields search;
                           resultsFound := n |}
       | None => None
       end;
     meta_sorting := sort;
     message := "Retrieved " ++ Syntax.digits n ++ " product(s) successfully" |}.

(** The handler of [GET /api/products]; [products] is the catalogue. *)
Definition listProducts (products : nat) (req : Request) : M ListResponse :=
  let* l := read products in
  let* processedProducts := alloc l in
  let* processedProducts :=
    match Transform.term_set (req_search req) with
    | Some _ => applySearch processedProducts (req_search req)
    | None => ret processedProducts
    end in
  let* processedProducts := applyFilters processedProducts (req_filters req) in
  let* processedProducts := applySorting processedProducts (req_sort req) in
  let* result := applyPagination processedProducts (req_pagination req) in
  let* page_data := read (fst result) in
  ret (buildListResponse page_data (req_filters req) (req_search req)
         (req_sort req) (snd result)).

(** A call as seen from outside: which method, on which sequence. *)
Definition view (c : call) : stage * list Product :=
  (call_stage c, call_content c).

(** The calls of a pipeline filter, search, sort, paginate on [P]. *)
Definition filter_first_calls (P : list Product) (req : Request)
  : list (stage * list Product) :=
  let filtered := Transform.applyFilters P (req_filters req) in
  let found := Transform.applySearch filtered (req_search req) in
  [(StageFilters, P); (StageSearch, filtered); (StageSorting, found);
   (StagePaging, Transform.sorted found (req_sort req))].

(** The calls of a pipeline search (when a term is set), filter, sort,
    paginate on [P]. *)
Definition search_first_calls (P : list Product) (req : Request)
  : list (stage * list Product) :=
  let found := Transform.applySearch P (req_search req) in
  let filtered := Transform.applyFilters found (req_filters req) in
  match Transform.term_set (req_search req) with
  | Some _ => [(StageSearch, P)]
  | None => []
  end ++
  [(StageFilters, found); (StageSorting, filtered);
   (StagePaging, Transform.sorted filtered (req_sort req))].

End Ref.

(** ** StatsCalculator: statistics by category *)

Module StatsCalculator.

Record ProductSummary : Type := {
  ps_id : string;
  ps_name : string;
  ps_price : decimal;
  ps_inStock : bool
}.

(** An entry of [categoryStats]. [stockPercentage] is [None] until the
    second pass assigns it. *)
Record CategoryStats : Type := {
  count : Z;
  cs_inStock : Z;
  outOfStock : Z;
  totalValue : number;
  averagePrice : number;
  minPrice : number;
  maxPrice : number;
  products : list ProductSummary;
  stockPercentage : option number
}.

(** The entry created for a category seen for the first time. *)
Definition emptyStats : CategoryStats :=
  {| count := 0; cs_inStock := 0; outOfStock := 0;
     totalValue := Num.of_Z 0; averagePrice := Num.of_Z 0;
     minPrice := Infinity; maxPrice := NegInfinity;
     products := []; stockPercentage := None |}.

(** [a + b] on numbers, exact on finite ones. *)
Definition add (a b : number) : number :=
  match a, b with
  | NaN, _ | _, NaN => NaN
  | Infinity, NegInfinity | NegInfinity, Infinity => NaN
  | Infinity, _ | _, Infinity => Infinity
  | NegInfinity, _ | _, NegInfinity => NegInfinity
  | Fin x, Fin y =>
      let '(p, q) := Num.scaled x y in
      Fin (Dec (p + q) (Z.min (expo x) (expo y)))
  end.

(** [parseFloat((p / q).toFixed(2))] for integers [p] and [q]: the
    quotient rounded to two places, halves upwards. *)
Definition ratio_toFixed2 (p q : Z) : number :=
  if q =? 0 then
    (if p =? 0 then NaN else if p <? 0 then NegInfinity else Infinity)
  else
    let '(p, q) := if q <? 0 then (- p, - q) else (p, q) in
    Fin (Dec ((2 * 100 * p + q) / (2 * q)) (-2)).

(** [parseFloat((x * k / n).toFixed(2))] for a number [x] and integers
    [k] and [n]. *)
Definition scaled_toFixed2 (x : number) (k n : Z) : number :=
  match x with
  | Fin d =>
      if expo d <? 0
      then ratio_toFixed2 (mant d * k) (n * 10 ^ (- expo d))
      else ratio_toFixed2 (mant d * 10 ^ expo d * k) n
  | other => other
  end.

(** The body of the first [forEach], on the entry of the category. *)
Definition accumulate (stats : CategoryStats) (product : Product)
  : CategoryStats :=
  {| count := count stats + 1;
     cs_inStock := cs_inStock stats + (if inStock product then 1 else 0);
     outOfStock := outOfStock stats + (if inStock product then 0 else 1);
     totalValue := add (totalValue stats) (Fin (price product));
     averagePrice := averagePrice stats;
     minPrice := Num.min (minPrice stats) (Fin (price product));
     maxPrice := Num.max (maxPrice stats) (Fin (price product));
     products := products stats ++
                 [{| ps_id := id product; ps_name := name product;
                     ps_price := price product;
                     ps_inStock := inStock product |}];
     stockPercentage := stockPercentage stats |}.

(** The object [categoryStats]: its own properties in insertion order. The
    keys are the categories of the products, names of the fixed enumeration
    checked when a product is created or updated. *)
Definition StatsTable : Type := list (string * CategoryStats).

(** Applies [f] to the entry of [key], created first when missing; a new
    key goes last. *)
Fixpoint upsert (key : string) (f : CategoryStats -> CategoryStats)
    (t : StatsTable) : StatsTable :=
  match t with
  | [] => [(key, f emptyStats)]
  | (k, s) :: t' =>
      if String.eqb k key then (k, f s) :: t'
      else (k, s) :: upsert key f t'
  end.

Definition step (t : StatsTable) (product : Product) : StatsTable :=
  upsert (category product) (fun stats => accumulate stats product) t.

(** The body of the second [forEach]. *)
Definition finalize (stats : CategoryStats) : CategoryStats :=
  {| count := count stats;
     cs_inStock := cs_inStock stats;
     outOfStock := outOfStock stats;
     totalValue := scaled_toFixed2 (totalValue stats) 1 1;
     averagePrice := scaled_toFixed2 (totalValue stats) 1 (count stats);
     minPrice := match minPrice stats with
                 | Infinity => Num.of_Z 0
                 | m => m
                 end;
     maxPrice := match maxPrice stats with
                 | NegInfinity => Num.of_Z 0
                 | m => m
                 end;
     products := products stats;
     stockPercentage :=
       Some (ratio_toFixed2 (cs_inStock stats * 100) (count stats)) |}.

Definition calculateCategoryStats (products : list Product) : StatsTable :=
  List.map (fun '(k, s) => (k, finalize s))
           (List.fold_left step products []).

(** A number that is neither NaN nor infinite. *)
Definition finite (x : number) : Prop := exists d, x = Fin d.

(** An entry that has received at least one product. *)
Definition populated (s : CategoryStats) : Prop :=
  1 <= count s /\ finite (totalValue s)
  /\ finite (minPrice s) /\ finite (maxPrice s).

End StatsCalculator.

(** ** Sample queries and products *)

Module Samples.

Definition withPage (p l : qval) : Query :=
  {| q_page := p; q_limit := l; q_category := QUndefined;
     q_minPrice := QUndefined; q_maxPrice := QUndefined;
     q_inStock := QUndefined; q_q := QUndefined; q_search := QUndefined;
     q_fields := QUndefined; q_sortBy := QUndefined;
     q_sortOrder := QUndefined |}.

Definition withPrices (lo hi : qval) : Query :=
  {| q_page := QUndefined; q_limit := QUndefined; q_category := QUndefined;
     q_minPrice := lo; q_maxPrice := hi;
     q_inStock := QUndefined; q_q := QUndefined; q_search := QUndefined;
     q_fields := QUndefined; q_sortBy := QUndefined;
     q_sortOrder := QUndefined |}.

Definition withSort (by_ ord : qval) : Query :=
  {| q_page := QUndefined; q_limit := QUndefined; q_category := QUndefined;
     q_minPrice := QUndefined; q_maxPrice := QUndefined;
     q_inStock := QUndefined; q_q := QUndefined; q_search := QUndefined;
     q_fields := QUndefined; q_sortBy := by_; q_sortOrder := ord |}.

Definition mkProduct (i n : string) (p : Z) (c : string) (s : bool) : Product :=
  {| id := i; name := n; description := n; price := Dec p 0; category := c;
     inStock := s; createdAt := "2024-01-0" ++ i ++ "T10:00:00Z";
     updatedAt := "2024-01-0" ++ i ++ "T10:00:00Z" |}.

Definition lamp : Product := mkProduct "1" "Lamp" 30 "other" true.
Definition pan : Product := mkProduct "2" "Pan" 10 "kitchen" false.
Definition coat : Product := mkProduct "3" "Lab coat" 20 "clothing" true.

(** Products in stock whose name contains "la", by ascending price. *)
Definition request : Ref.Request :=
  {| Ref.req_pagination := {| page := 1; limit := 2; skip := 0; offset := 0 |};
     Ref.req_filters := {| f_category := None; f_price := None;
                           f_inStock := Some true |};
     Ref.req_search := {| term := Some "la"; fields := ["name"] |};
     Ref.req_sort := {| field := "price"; order := asc |} |}.

Definition priced (i : string) (p : Z) : Product :=
  mkProduct i "item" p "other" true.

Definition shop : store := Store {[ 0%nat := [lamp; pan; coat] ]} [].

End Samples.

(** * The rest of the code: more of the request path *)

(** ** Helpers for the statements about the parsers *)

Module Inputs.

(** The category names a query supplies: the elements of an array, or the
    one string when it is not empty. *)
Definition suppliedCategories (query : Query) : list string :=
  match q_category query with
  | QArr l => l
  | QStr s => if String.eqb s EmptyString then [] else [s]
  | QUndefined => []
  end.

(** The filter set of a query without filter keys. *)
Definition noFilters : FilterSet :=
  {| f_category := None; f_price := None; f_inStock := None |}.

(** The pagination of page [p] for a page size [l]. *)
Definition pageOf (p l : Z) : Pagination :=
  {| page := p; limit := l; skip := (p - 1) * l; offset := (p - 1) * l |}.

(** The pages 1, ..., [k] of a sequence, one after the other. *)
Definition pagesUpTo (products : list Product) (l : Z) (k : nat)
  : list (list Product) :=
  List.map (fun i => fst (Transform.applyPagination products
                            (pageOf (Z.of_nat i + 1) l)))
           (List.seq 0 k).

End Inputs.

(** ** Grouping products by category *)

Module Grouping.

(** The products of a category, in order. *)
Definition members (k : string) (products : list Product) : list Product :=
  List.filter (fun p => String.eqb (category p) k) products.

(** [[...new Set(l)]]: the elements of [l] without repetition, in the order
    of their first occurrence. *)
Definition dedupe (l : list string) : list string :=
  List.fold_left
    (fun acc x => if List.existsb (String.eqb x) acc then acc
                  else (acc ++ [x])%list)
    l [].

(** The entry of a category after the first pass of
    [calculateCategoryStats]: the accumulation of its members. *)
Definition summary (k : string) (products : list Product)
  : StatsCalculator.CategoryStats :=
  List.fold_left StatsCalculator.accumulate (members k products)
    StatsCalculator.emptyStats.

(** The sum of the counts of a table. *)
Definition totalCount (t : StatsCalculator.StatsTable) : Z :=
  List.fold_right (fun e acc => StatsCalculator.count (snd e) + acc) 0 t.

(** The smallest and the largest of a list of prices, as [Math.min] and
    [Math.max] accumulate them from the sentinels. *)
Definition minOf (l : list Product) : number :=
  List.fold_left (fun m p => Num.min m (Fin (price p))) l Infinity.

Definition maxOf (l : list Product) : number :=
  List.fold_left (fun m p => Num.max m (Fin (price p))) l NegInfinity.

End Grouping.

(** ** Conversion of values to numbers *)

Module Conv.

(** The digits of a whole string in the given radix. *)
Definition wholeDigits (radix : Z) (s : string) : number :=
  match Syntax.read_digits radix None 0 s with
  | (Some n, _, EmptyString) => Num.of_Z n
  | _ => NaN
  end.

(** The exponent part that ends a decimal literal; [None] when what is
    left is not one. *)
Definition wholeExponent (s : string) : option Z :=
  match s with
  | EmptyString => Some 0
  | String c s' =>
      if Ascii.eqb c "e" || Ascii.eqb c "E" then
        let '(neg, s'') := Syntax.read_sign s' in
        match Syntax.read_digits 10 None 0 s'' with
        | (Some e, _, EmptyString) => Some (if neg then - e else e)
        | _ => None
        end
      else None
  end.

(** An unsigned decimal literal that is the whole string. *)
Definition decimalLiteral (s : string) : number :=
  if String.eqb s "Infinity" then Infinity
  else
    let '(ip, _, s2) := Syntax.read_digits 10 None 0 s in
    let '(fp, flen, s3) :=
      match s2 with
      | String "." s' =>
          match Syntax.read_digits 10 None 0 s' with
          | (None, _, _) => (None, 0, s')
          | r => r
          end
      | _ => (None, 0, s2)
      end in
    match ip, fp with
    | None, None => NaN
    | _, _ =>
        let i := match ip with Some i => i | None => 0 end in
        let f := match fp with Some f => f | None => 0 end in
        match wholeExponent s3 with
        | Some e => Fin (Dec (i * 10 ^ flen + f) (e - flen))
        | None => NaN
        end
    end.

Definition negate (x : number) : number :=
  match x with
  | NaN => NaN
  | Infinity => NegInfinity
  | NegInfinity => Infinity
  | Fin d => Fin (Dec (- mant d) (expo d))
  end.

(** StringToNumber: the trimmed string is empty (0), a hexadecimal, binary
    or octal literal, or a signed decimal literal; anything else is NaN. *)
Definition stringToNumber (s : string) : number :=
  let t := Str.trim s in
  if String.eqb t EmptyString then Num.of_Z 0
  else
    let signed :=
      match t with
      | String "-" t' => negate (decimalLiteral t')
      | String "+" t' => decimalLiteral t'
      | _ => decimalLiteral t
      end in
    match t with
    | String "0" (String c rest) =>
        if Ascii.eqb c "x" || Ascii.eqb c "X" then wholeDigits 16 rest
        else if Ascii.eqb c "b" || Ascii.eqb c "B" then wholeDigits 2 rest
        else if Ascii.eqb c "o" || Ascii.eqb c "O" then wholeDigits 8 rest
        else signed
    | _ => signed
    end.

(** ToNumber *)
Definition toNumber (v : jsval) : number :=
  match v with
  | VUndefined => NaN
  | VNull => Num.of_Z 0
  | VBool true => Num.of_Z 1
  | VBool false => Num.of_Z 0
  | VNum n => n
  | VStr s => stringToNumber s
  | VArr _ | VObj _ => stringToNumber (Val.toString v)
  end.

(** [v >= k] for a number [k]: false when [v] converts to NaN. *)
Definition geb (v : jsval) (k : Z) : bool :=
  negb (Num.isNaN (toNumber v)) && negb (Num.ltb (toNumber v) (Num.of_Z k)).

(** [a === b] on numbers. *)
Definition num_eqb (a b : number) : bool :=
  match a, b with
  | Fin x, Fin y => let '(p, q) := Num.scaled x y in p =? q
  | Infinity, Infinity | NegInfinity, NegInfinity => true
  | _, _ => false
  end.

End Conv.

(** ** ErrorUtils and the rest of ErrorFactory *)

Module ErrorUtils.

Import Errors.

(** [error instanceof CustomError && error.isOperationalError()] *)
Definition isOperational (error : thrown) : bool :=
  match error with
  | Instance e => Errors.isOperational e
  | Foreign _ => false
  end.

Definition getSeverity (error : thrown) : string :=
  match error with
  | Foreign _ => "high"
  | Instance e =>
      let statusCode := statusCode e in
      if Conv.geb statusCode 500 then "high"
      else if Conv.geb statusCode 400 then "medium"
      else "low"
  end.

Definition shouldLog (error : thrown) : bool :=
  let severity := getSeverity error in
  String.eqb severity "high" || negb (isOperational error).

(** [delete o[key]] *)
Fixpoint remove (o : object) (key : string) : object :=
  match o with
  | [] => []
  | (k, v) :: o' =>
      if String.eqb k key then remove o' key else (k, v) :: remove o' key
  end.

(** Returns the rendering without stack and name, or, for what is not an
    instance of [CustomError], a new error object. *)
Definition sanitizeForProduction (env : Env) (error : thrown)
  : object + CustomError :=
  match error with
  | Foreign _ =>
      inr (newCustomError env "Internal server error" (Val.int 500)
             (VStr "INTERNAL_ERROR"))
  | Instance e =>
      let sanitized := toJSON env e in
      inl (remove (remove sanitized "stack") "name")
  end.

End ErrorUtils.

Module ErrorFactoryMore.

Import Errors.

Definition authentication (env : Env) (message reason : string) : CustomError :=
  newAuthenticationError env message reason.

Definition authorization (env : Env) (message : string)
    (permission role : option string) : CustomError :=
  newAuthorizationError env message permission role.

(** A parameter with a default: the default stands for [undefined]. *)
Definition defaulted (v d : jsval) : jsval :=
  match v with VUndefined => d | _ => v end.

(** [custom(message, statusCode = 500, errorCode = 'INTERNAL_ERROR')] *)
Definition custom (env : Env) (message : string) (statusCode errorCode : jsval)
  : CustomError :=
  newCustomError env message (defaulted statusCode (Val.int 500))
    (defaulted errorCode (VStr "INTERNAL_ERROR")).

(** The static constructors of [AuthenticationError] and
    [AuthorizationError]. *)
Definition missingApiKey (env : Env) : CustomError :=
  newAuthenticationError env
    "API key is required. Please provide X-API-Key header." "MISSING_API_KEY".

Definition invalidApiKey (env : Env) : CustomError :=
  newAuthenticationError env "Invalid API key provided." "INVALID_API_KEY".

Definition expiredApiKey (env : Env) : CustomError :=
  newAuthenticationError env "API key has expired." "EXPIRED_API_KEY".

Definition insufficientPermissions (env : Env) (permission : string)
  : CustomError :=
  newAuthorizationError env
    ("Access denied. Required permission: " ++ permission)
    (Some permission) None.

Definition insufficientRole (env : Env) (role : string) : CustomError :=
  newAuthorizationError env ("Access denied. Required role: " ++ role)
    None (Some role).

End ErrorFactoryMore.

(** ** Authentication and authorization middleware *)

Module Auth.

Import Errors.

Record User : Type := {
  apiKey : string;
  role : string;
  permissions : list string
}.

(** What the middleware reads from a request: its path, the two headers
    that may carry the key ([None] when the header is missing), and the
    user context once set. *)
Record Req : Type := {
  path : string;
  xApiKey : option string;
  authorization : option string;
  user : option User
}.

Definition validApiKeys : list string :=
  ["dev-key-12345"; "test-key-67890"; "admin-key-abcdef"].

(** [req.get('X-API-Key') || req.get('Authorization')] *)
Definition suppliedKey (req : Req) : option string :=
  if present (xApiKey req) then xApiKey req else authorization req.

Definition userOf (key : string) : User :=
  {| apiKey := key;
     role := if Str.includes key "admin" then "admin" else "user";
     permissions := if Str.includes key "admin"
                    then ["read"; "write"; "delete"]
                    else ["read"; "write"] |}.

(** The middleware either lets the request continue ([inl], with the
    request as it leaves it) or passes an error on ([inr]). *)
Definition authenticateApiKey (env : Env) (req : Req) : Req + CustomError :=
  if String.eqb (path req) "/" || String.eqb (path req) "/docs" then inl req
  else
    let apiKey := suppliedKey req in
    if negb (present apiKey) then
      inr (ErrorFactoryMore.authentication env
             "API key is required. Please provide X-API-Key header."
             "MISSING_API_KEY")
    else if negb (QueryProcessor.includes validApiKeys (text apiKey)) then
      inr (ErrorFactoryMore.authentication env "Invalid API key provided."
             "INVALID_API_KEY")
    else
      inl {| path := path req; xApiKey := xApiKey req;
             authorization := authorization req;
             user := Some (userOf (text apiKey)) |}.

Definition requirePermission (permission : string) (env : Env) (req : Req)
  : Req + CustomError :=
  match user req with
  | Some u =>
      if QueryProcessor.includes (permissions u) permission then inl req
      else inr (ErrorFactoryMore.authorization env
                  ("Access denied. Required permission: " ++ permission)
                  (Some permission) None)
  | None =>
      inr (ErrorFactoryMore.authorization env
             ("Access denied. Required permission: " ++ permission)
             (Some permission) None)
  end.

Definition requireRole (role_ : string) (env : Env) (req : Req)
  : Req + CustomError :=
  match user req with
  | None =>
      inr (ErrorFactoryMore.authentication env "Authentication required"
             "NOT_AUTHENTICATED")
  | Some u =>
      if negb (String.eqb (role u) role_) && negb (String.eqb (role u) "admin")
      then inr (ErrorFactoryMore.authorization env
                  ("Access denied. Required role: " ++ role_)
                  None (Some role_))
      else inl req
  end.

End Auth.

(** ** Chains of middleware *)

Module Chain.

(** A middleware after another: the second runs on the request the first
    lets through; an error stops the chain. *)
Definition andThen {R E : Type} (m1 m2 : R -> R + E) (req : R) : R + E :=
  match m1 req with
  | inl req' => m2 req'
  | inr e => inr e
  end.

End Chain.

(** ** Validation of the product identifier *)

Module IdValidation.

Import Errors.

Definition isHex (c : ascii) : bool :=
  match Syntax.digit_val 16 c with Some _ => true | None => false end.

Definition isDash (c : ascii) : bool := Ascii.eqb c "-".

(** [[1-5]] *)
Definition isVersion (c : ascii) : bool :=
  (49 <=? Str.code c) && (Str.code c <=? 53).

(** [[89ab]], without regard to case *)
Definition isVariant (c : ascii) : bool :=
  Ascii.eqb c "8" || Ascii.eqb c "9" || Ascii.eqb c "a" || Ascii.eqb c "b"
  || Ascii.eqb c "A" || Ascii.eqb c "B".

(** The regular expression of the middleware, one class per character:
    8 hexadecimal digits, 4, a version digit and 3, a variant digit and 3,
    and 12, separated by dashes. *)
Definition uuidPattern : list (ascii -> bool) :=
  (List.repeat isHex 8 ++ [isDash] ++ List.repeat isHex 4 ++ [isDash]
   ++ [isVersion] ++ List.repeat isHex 3 ++ [isDash]
   ++ [isVariant] ++ List.repeat isHex 3 ++ [isDash]
   ++ List.repeat isHex 12)%list.

(** The whole string matches the classes, character by character. *)
Fixpoint matchesAll (classes : list (ascii -> bool)) (s : string) : bool :=
  match classes, s with
  | [], EmptyString => true
  | f :: classes', String c s' => f c && matchesAll classes' s'
  | _, _ => false
  end.

Definition uuidRegex_test (s : string) : bool := matchesAll uuidPattern s.

(** The form of a UUID in words: five groups of 8, 4, 4, 4 and 12
    hexadecimal digits of either case, separated by dashes, where the
    third group starts with a digit from 1 to 5 and the fourth with 8, 9,
    a or b. *)
Definition hexDigits : list ascii :=
  list_ascii_of_string "0123456789abcdefABCDEF".

Definition among (allowed : list ascii) (c : ascii) : bool :=
  List.existsb (Ascii.eqb c) allowed.

Definition hexGroup (n : nat) (s : string) : Prop :=
  String.length s = n
  /\ List.forallb (among hexDigits) (list_ascii_of_string s) = true.

Definition uuidForm (s : string) : Prop :=
  exists (a b : string) (v : ascii) (c : string) (r : ascii) (d e : string),
    s = a ++ "-" ++ b ++ "-" ++ String v c ++ "-" ++ String r d ++ "-" ++ e
    /\ hexGroup 8 a /\ hexGroup 4 b /\ hexGroup 3 c /\ hexGroup 3 d
    /\ hexGroup 12 e
    /\ among (list_ascii_of_string "12345") v = true
    /\ among (list_ascii_of_string "89abAB") r = true.

(** [validateProductId] on the route parameter, a string: [inl] lets the
    request continue. *)
Definition validateProductId (env : Env) (id : string) : string + CustomError :=
  if String.eqb id EmptyString
     || (Syntax.slen (Str.trim id) =? 0) then
    inr (ErrorFactory.validation env
           "Product ID is required and must be a valid string"
           ["Product ID parameter is missing or invalid"] (Some "id"))
  else if negb (String.eqb id "1") && negb (String.eqb id "2")
          && negb (String.eqb id "3") && negb (uuidRegex_test id) then
    inr (ErrorFactory.validation env
           "Product ID must be a valid UUID format or legacy ID"
           ["ID must be a valid UUID or legacy ID (1, 2, 3)"] (Some "id"))
  else inl id.

End IdValidation.

(** ** The handlers of single products *)

Module Catalogue.

Import Mem.

(** [products.find(p => p.id === productId)] *)
Definition findProduct (productId : string) (l : list Product) : option Product :=
  List.find (fun p => String.eqb (id p) productId) l.

(** [products.findIndex(p => p.id === productId)]; [None] is -1. *)
Fixpoint findIndex (productId : string) (l : list Product) : option nat :=
  match l with
  | [] => None
  | p :: l' =>
      if String.eqb (id p) productId then Some O
      else match findIndex productId l' with
           | Some i => Some (S i)
           | None => None
           end
  end.

Record Related : Type := {
  rel_id : string;
  rel_name : string;
  rel_price : decimal
}.

Record ProductDetails : Type := {
  pd_data : Product;
  relatedProducts : list Related;
  pd_category : string;
  isAboveAverage : bool;
  categoryAverage : number
}.

Definition sumPrices (l : list Product) : number :=
  List.fold_left (fun sum p => StatsCalculator.add sum (Fin (price p)))
    l (Num.of_Z 0).

(** [x > sum / n] for a positive count [n]: the sum is below [n] times
    [x]. *)
Definition aboveAverage (x : decimal) (sum : number) (n : Z) : bool :=
  Num.ltb sum (Fin (Dec (mant x * n) (expo x))).

Definition related (product : Product) (l : list Product) : list Related :=
  List.map (fun p => {| rel_id := id p; rel_name := name p;
                        rel_price := price p |})
    (Transform.slice
       (List.filter
          (fun p => negb (String.eqb (id p) (id product))
                    && String.eqb (category p) (category product)) l)
       0 3).

Definition details (product : Product) (l : list Product) : ProductDetails :=
  let sameCategory :=
    List.filter (fun p => String.eqb (category p) (category product)) l in
  {| pd_data := product;
     relatedProducts := related product l;
     pd_category := category product;
     isAboveAverage :=
       aboveAverage (price product) (sumPrices l) (Z.of_nat (List.length l));
     categoryAverage :=
       StatsCalculator.scaled_toFixed2 (sumPrices sameCategory) 1
         (Z.of_nat (List.length sameCategory)) |}.

(** [GET /api/products/:id] *)
Definition getProduct (env : Errors.Env) (products : nat) (productId : string)
  : M (ProductDetails + Errors.CustomError) :=
  let* l := read products in
  match findProduct productId l with
  | None => ret (inr (ErrorFactory.notFound env "Product" (Some productId)))
  | Some product => ret (inl (details product l))
  end.

(** The body of a creation request as [validateProductCreation] leaves it:
    strings, a finite number and a boolean. *)
Record NewProduct : Type := {
  n_name : string;
  n_description : string;
  n_price : decimal;
  n_category : string;
  n_inStock : bool
}.

(** [POST /api/products]; [uuid] is what [uuidv4()] returns, [t1] and [t2]
    the two readings of the clock. The price is already a number, which
    [parseFloat] returns as it is. *)
Definition createProduct (products : nat) (body : NewProduct)
    (uuid t1 t2 : string) : M Product :=
  let newProduct :=
    {| id := uuid;
       name := Str.trim (n_name body);
       description := Str.trim (n_description body);
       price := n_price body;
       category := Str.toLowerCase (Str.trim (n_category body));
       inStock := n_inStock body;
       createdAt := t1;
       updatedAt := t2 |} in
  let* l := read products in
  let* _ := write products (l ++ [newProduct]) in
  ret newProduct.

(** The body of an update request as [validateProductUpdate] leaves it:
    only the fields that were provided. *)
Record Changes : Type := {
  c_name : option string;
  c_description : option string;
  c_price : option decimal;
  c_category : option string;
  c_inStock : option bool
}.

Definition orKeep {A : Type} (new : option A) (old : A) : A :=
  match new with Some x => x | None => old end.

(** [{...product, ...req.body, updatedAt: now}] *)
Definition merged (product : Product) (body : Changes) (t : string) : Product :=
  {| id := id product;
     name := orKeep (c_name body) (name product);
     description := orKeep (c_description body) (description product);
     price := orKeep (c_price body) (price product);
     category := orKeep (c_category body) (category product);
     inStock := orKeep (c_inStock body) (inStock product);
     createdAt := createdAt product;
     updatedAt := t |}.

(** [PUT /api/products/:id] *)
Definition updateProduct (env : Errors.Env) (products : nat) (productId : string)
    (body : Changes) (t : string) : M (Product + Errors.CustomError) :=
  let* l := read products in
  match findIndex productId l with
  | None => ret (inr (ErrorFactory.notFound env "Product" (Some productId)))
  | Some productIndex =>
      match l !! productIndex with
      | None => (* the index found is within the array *)
          ret (inr (ErrorFactory.notFound env "Product" (Some productId)))
      | Some old =>
          let updatedProduct := merged old body t in
          let* _ := write products (<[productIndex := updatedProduct]> l) in
          ret (inl updatedProduct)
      end
  end.

(** [l.splice(i, 1)]: what is left of [l]. *)
Definition spliceOut {A : Type} (i : nat) (l : list A) : list A :=
  (List.firstn i l ++ List.skipn (S i) l)%list.

(** [DELETE /api/products/:id] *)
Definition deleteProduct (env : Errors.Env) (products : nat) (productId : string)
  : M (Product + Errors.CustomError) :=
  let* l := read products in
  match findIndex productId l with
  | None => ret (inr (ErrorFactory.notFound env "Product" (Some productId)))
  | Some productIndex =>
      match l !! productIndex with
      | None => (* the index found is within the array *)
          ret (inr (ErrorFactory.notFound env "Product" (Some productId)))
      | Some deletedProduct =>
          let* _ := write products (spliceOut productIndex l) in
          ret (inl deletedProduct)
      end
  end.

(** The identifiers of a catalogue. *)
Definition ids (l : list Product) : list string := List.map id l.

End Catalogue.

(** ** The route DELETE /api/products/:id *)

Module Routes.

Import Mem.

(** The request for a product, as the middleware sees it. *)
Definition requestFor (productId : string) (xApiKey authorization : option string)
  : Auth.Req :=
  {| Auth.path := "/api/products/" ++ productId;
     Auth.xApiKey := xApiKey;
     Auth.authorization := authorization;
     Auth.user := None |}.

(** The chain of the route: authentication (installed for every route),
    the permission to delete, the validation of the identifier, the
    handler. *)
Definition deleteRoute (env : Errors.Env) (products : nat) (productId : string)
    (xApiKey authorization : option string)
  : M (Product + Errors.CustomError) :=
  match Chain.andThen (Auth.authenticateApiKey env)
          (Auth.requirePermission "delete" env)
          (requestFor productId xApiKey authorization) with
  | inr e => ret (inr e)
  | inl _ =>
      match IdValidation.validateProductId env productId with
      | inr e => ret (inr e)
      | inl _ => Catalogue.deleteProduct env products productId
      end
  end.

End Routes.

(** ** StatsCalculator: overview, inventory, pricing, popular categories *)

Module Stats.

Import Grouping.





Record ProductRef : Type := {
  ref_id : string;
  ref_name : string;
  ref_price : decimal;
  ref_category : string
}.

Definition refOf (p : Product) : ProductRef :=
  {| ref_id := id p; ref_name := name p; ref_price := price p;
     ref_category := category p |}.

Record CategoryInventory : Type := {
  ci_inStock : Z;
  ci_outOfStock : Z;
  ci_total : Z
}.

(** The entry of the category of a product, after the product. *)
Definition counted (e : CategoryInventory) (product : Product)
  : CategoryInventory :=
  {| ci_inStock := ci_inStock e + (if inStock product then 1 else 0);
     ci_outOfStock := ci_outOfStock e + (if inStock product then 0 else 1);
     ci_total := ci_total e + 1 |}.

Definition emptyInventory : CategoryInventory :=
  {| ci_inStock := 0; ci_outOfStock := 0; ci_total := 0 |}.

Fixpoint countIn (product : Product) (t : list (string * CategoryInventory))
  : list (string * CategoryInventory) :=
  match t with
  | [] => [(category product, counted emptyInventory product)]
  | (k, e) :: t' =>
      if String.eqb k (category product) then (k, counted e product) :: t'
      else (k, e) :: countIn product t'
  end.

Record Inventory : Type := {
  inv_totalProducts : Z;
  inStockCount : Z;
  outOfStockCount : Z;
  inv_stockPercentage : number;
  mostExpensiveInStock : option ProductRef;
  cheapestInStock : option ProductRef;
  byCategory : list (string * CategoryInventory)
}.

Definition calculateInventoryStats (products : list Product) : Inventory :=
  let totalProducts := Z.of_nat (List.length products) in
  let inStockProducts := List.filter inStock products in
  let outOfStockProducts :=
    List.filter (fun p => negb (inStock p)) products in
  let mostExpensiveInStock :=
    List.find (fun p => Conv.num_eqb (Fin (price p)) (maxOf inStockProducts))
      inStockProducts in
  let cheapestInStock :=
    List.find (fun p => Conv.num_eqb (Fin (price p)) (minOf inStockProducts))
      inStockProducts in
  {| inv_totalProducts := totalProducts;
     inStockCount := Z.of_nat (List.length inStockProducts);
     outOfStockCount := Z.of_nat (List.length outOfStockProducts);
     inv_stockPercentage :=
       if totalProducts >? 0
       then StatsCalculator.ratio_toFixed2
              (Z.of_nat (List.length inStockProducts) * 100) totalProducts
       else Num.of_Z 0;
     mostExpensiveInStock := option_map refOf mostExpensiveInStock;
     cheapestInStock := option_map refOf cheapestInStock;
     byCategory :=
       List.fold_left (fun t p => countIn p t) products [] |}.

(** The comparator [(a, b) => a - b] on prices: the difference, up to a
    positive power of ten. *)
Definition byValue (a b : decimal) : Z :=
  let '(x, y) := Num.scaled a b in x - y.

(** [prices[i]]; the function only reads indices within the array. *)
Definition at_ (prices : list decimal) (i : Z) : decimal :=
  List.nth (Z.to_nat i) prices (Dec 0 0).

(** [(a + b) / 2] *)
Definition mean2 (a b : decimal) : number :=
  match StatsCalculator.add (Fin a) (Fin b) with
  | Fin s => Fin (Dec (mant s * 5) (expo s - 1))
  | other => other
  end.

Definition below (p : decimal) (k : Z) : bool := Num.dec_ltb p (Dec k 0).

Definition countIf (f : decimal -> bool) (prices : list decimal) : Z :=
  Z.of_nat (List.length (List.filter f prices)).

Record Bucket : Type := {
  range : string;
  b_min : number;
  b_max : number;
  b_count : Z
}.

Record Pricing : Type := {
  p_min : number;
  p_max : number;
  p_average : number;
  p_median : number;
  quartiles : option (number * number);
  priceRanges : list (string * Z);
  distribution : list Bucket
}.

Definition rounded (x : number) : number :=
  StatsCalculator.scaled_toFixed2 x 1 1.

Definition calculatePricingStats (products : list Product) : Pricing :=
  match products with
  | [] =>
      {| p_min := Num.of_Z 0; p_max := Num.of_Z 0; p_average := Num.of_Z 0;
         p_median := Num.of_Z 0; quartiles := None; priceRanges := [];
         distribution := [] |}
  | _ =>
      let prices := Transform.Array_sort byValue (List.map price products) in
      let n := Z.of_nat (List.length prices) in
      let totalValue :=
        List.fold_left (fun sum p => StatsCalculator.add sum (Fin p))
          prices (Num.of_Z 0) in
      let min := at_ prices 0 in
      let max := at_ prices (n - 1) in
      let median :=
        if n mod 2 =? 0
        then mean2 (at_ prices (n / 2 - 1)) (at_ prices (n / 2))
        else Fin (at_ prices (n / 2)) in
      let ranges :=
        [("under-25", countIf (fun p => below p 25) prices);
         ("25-50", countIf (fun p => negb (below p 25) && below p 50) prices);
         ("50-100", countIf (fun p => negb (below p 50) && below p 100) prices);
         ("100-500",
          countIf (fun p => negb (below p 100) && below p 500) prices);
         ("500-1000",
          countIf (fun p => negb (below p 500) && below p 1000) prices);
         ("over-1000", countIf (fun p => negb (below p 1000)) prices)] in
      let q1Index := n / 4 in
      let q3Index := (n * 3) / 4 in
      let q1 := at_ prices q1Index in
      let q3 := at_ prices q3Index in
      {| p_min := rounded (Fin min);
         p_max := rounded (Fin max);
         p_average := StatsCalculator.scaled_toFixed2 totalValue 1 n;
         p_median := rounded median;
         quartiles := Some (rounded (Fin q1), rounded (Fin q3));
         priceRanges := ranges;
         distribution :=
           [{| range := "Q1 (0-25%)"; b_min := Fin min; b_max := Fin q1;
               b_count := q1Index + 1 |};
            {| range := "Q2 (25-50%)"; b_min := Fin q1; b_max := median;
               b_count := n / 2 - q1Index |};
            {| range := "Q3 (50-75%)"; b_min := median; b_max := Fin q3;
               b_count := q3Index - n / 2 |};
            {| range := "Q4 (75-100%)"; b_min := Fin q3; b_max := Fin max;
               b_count := n - q3Index |}] |}
  end.




Definition sumCounts (t : list (string * Z)) : Z :=
  List.fold_right (fun e acc => snd e + acc) 0 t.

Definition sumBuckets (l : list Bucket) : Z :=
  List.fold_right (fun b acc => b_count b + acc) 0 l.

End Stats.

(** ** ErrorMetrics *)

(** A reading of the clock: the milliseconds since the epoch and the ISO
    text of the date. A date parsed from its ISO text is the same
    instant. *)
Record Instant : Type := {
  ms : Z;
  iso : string
}.

Module Metrics.

(** What [recordError] reads from the request. *)
Record ReqInfo : Type := {
  method : string;
  originalUrl : string;
  userAgent : jsval;
  ip : jsval;
  requestId : jsval
}.

Record ErrorRecord : Type := {
  er_timestamp : Instant;
  er_type : string;
  er_statusCode : jsval;
  er_message : string;
  er_endpoint : string;
  er_userAgent : jsval;
  er_ip : jsval;
  er_requestId : jsval
}.

(** [this.metrics]; the three breakdowns are objects used as maps from a
    key to a count. *)
Record State : Type := {
  totalErrors : Z;
  errorsByType : gmap string Z;
  errorsByStatusCode : gmap string Z;
  errorsByEndpoint : gmap string Z;
  lastHour : list ErrorRecord;
  lastDay : list ErrorRecord;
  lastWeek : list ErrorRecord
}.

(** The state set by the constructor and by [reset]. *)
Definition initial : State :=
  {| totalErrors := 0; errorsByType := ∅; errorsByStatusCode := ∅;
     errorsByEndpoint := ∅; lastHour := []; lastDay := []; lastWeek := [] |}.

Definition reset (s : State) : State := initial.

(** [m[k] = (m[k] || 0) + 1], for a key that is not the name of a property
    inherited from [Object.prototype]: the keys are names of error classes,
    texts of status codes and endpoints [METHOD url]. *)
Definition bump (k : string) (m : gmap string Z) : gmap string Z :=
  <[k := (match m !! k with
          | Some c => if c =? 0 then 0 else c
          | None => 0
          end) + 1]> m.

Definition hourMs : Z := 60 * 60 * 1000.
Definition dayMs : Z := 24 * 60 * 60 * 1000.
Definition weekMs : Z := 7 * 24 * 60 * 60 * 1000.

(** [new Date(record.timestamp) > limit] *)
Definition newerThan (limit : Z) (r : ErrorRecord) : bool :=
  limit <? ms (er_timestamp r).

(** [cleanupOldRecords], at the reading [now] of the clock. *)
Definition cleanupOldRecords (now : Instant) (s : State) : State :=
  {| totalErrors := totalErrors s;
     errorsByType := errorsByType s;
     errorsByStatusCode := errorsByStatusCode s;
     errorsByEndpoint := errorsByEndpoint s;
     lastHour := List.filter (newerThan (ms now - hourMs)) (lastHour s);
     lastDay := List.filter (newerThan (ms now - dayMs)) (lastDay s);
     lastWeek := List.filter (newerThan (ms now - weekMs)) (lastWeek s) |}.

Definition recordOf (now : Instant) (error : Errors.CustomError)
    (req : option ReqInfo) : ErrorRecord :=
  {| er_timestamp := now;
     er_type := Errors.name error;
     er_statusCode := Errors.or_else (Errors.statusCode error) (Val.int 500);
     er_message := Errors.message error;
     er_endpoint := match req with
                    | Some r => method r ++ " " ++ originalUrl r
                    | None => "unknown"
                    end;
     er_userAgent := match req with
                     | Some r => userAgent r
                     | None => VStr "unknown"
                     end;
     er_ip := match req with Some r => ip r | None => VStr "unknown" end;
     er_requestId := match req with
                     | Some r => requestId r
                     | None => VStr "unknown"
                     end |}.

(** [recordError(error, req)] for an instance of the error classes; [now]
    is the reading of the clock for the record and [later] the one taken
    by the clean-up. Returns the record and the new state. *)
Definition recordError (now later : Instant) (error : Errors.CustomError)
    (req : option ReqInfo) (s : State) : ErrorRecord * State :=
  let errorRecord := recordOf now error req in
  let s' :=
    {| totalErrors := totalErrors s + 1;
       errorsByType := bump (er_type errorRecord) (errorsByType s);
       errorsByStatusCode :=
         bump (Val.toString (er_statusCode errorRecord))
              (errorsByStatusCode s);
       errorsByEndpoint := bump (er_endpoint errorRecord) (errorsByEndpoint s);
       lastHour := (lastHour s ++ [errorRecord])%list;
       lastDay := (lastDay s ++ [errorRecord])%list;
       lastWeek := (lastWeek s ++ [errorRecord])%list |} in
  (errorRecord, cleanupOldRecords later s').

(** The errors and the minutes of a time range; an unknown range has no
    errors and counts as 60 minutes. *)
Definition rangeOf (timeRange : string) (s : State) : list ErrorRecord * Z :=
  if String.eqb timeRange "lastHour" then (lastHour s, 60)
  else if String.eqb timeRange "lastDay" then (lastDay s, 1440)
  else if String.eqb timeRange "lastWeek" then (lastWeek s, 10080)
  else ([], 60).

(** [getErrorRate]: the quotient [errors.length / minutes], kept as its
    two terms. *)
Definition getErrorRate (timeRange : string) (s : State) : Z * Z :=
  let '(errors, minutes) := rangeOf timeRange s in
  (Z.of_nat (List.length errors), minutes).

(** [getErrorRate(timeRange) > threshold]; the minutes are positive. *)
Definition isErrorRateHigh (threshold : decimal) (timeRange : string)
    (s : State) : bool :=
  let '(n, minutes) := getErrorRate timeRange s in
  Num.dec_ltb (Dec (mant threshold * minutes) (expo threshold)) (Dec n 0).

Record Summary : Type := {
  sm_totalErrors : Z;
  errorsLastHour : Z;
  errorsLastDay : Z;
  errorsLastWeek : Z
}.

Record StatsView : Type := {
  summary : Summary;
  byType : gmap string Z;
  byStatusCode : gmap string Z;
  byEndpoint : gmap string Z;
  recent : list ErrorRecord
}.

Definition getStats (s : State) : StatsView :=
  {| summary :=
       {| sm_totalErrors := totalErrors s;
          errorsLastHour := Z.of_nat (List.length (lastHour s));
          errorsLastDay := Z.of_nat (List.length (lastDay s));
          errorsLastWeek := Z.of_nat (List.length (lastWeek s)) |};
     byType := errorsByType s;
     byStatusCode := errorsByStatusCode s;
     byEndpoint := errorsByEndpoint s;
     recent := Transform.slice (lastHour s) (-10)
                 (Z.of_nat (List.length (lastHour s))) |}.

(** The sum of the counts of a breakdown. *)
Definition sumOf (m : gmap string Z) : Z :=
  map_fold (fun _ c acc => c + acc) 0 m.

(** What every state reached from the initial one satisfies. *)
Definition consistent (s : State) : Prop :=
  lastHour s `sublist_of` lastDay s
  /\ lastDay s `sublist_of` lastWeek s
  /\ Z.of_nat (List.length (lastWeek s)) <= totalErrors s
  /\ sumOf (errorsByType s) = totalErrors s
  /\ sumOf (errorsByStatusCode s) = totalErrors s
  /\ sumOf (errorsByEndpoint s) = totalErrors s
  /\ map_Forall (fun _ c => 1 <= c) (errorsByType s)
  /\ map_Forall (fun _ c => 1 <= c) (errorsByStatusCode s)
  /\ map_Forall (fun _ c => 1 <= c) (errorsByEndpoint s).

(** The states reached from the initial one by recording errors. *)
Inductive reachable : State -> Prop :=
| reach_initial : reachable initial
| reach_record (now later : Instant) (error : Errors.CustomError)
    (req : option ReqInfo) (s : State) :
    reachable s -> reachable (snd (recordError now later error req s))
| reach_reset (s : State) : reachable s -> reachable (reset s).

End Metrics.

(** ** The configuration of error handling *)

Module ErrorConfig.

Record Config : Type := {
  includeStackTrace : bool;
  includeErrorDetails : bool;
  logLevel : option string;
  exposeSensitiveInfo : bool;
  enableVerboseLogging : bool;
  genericMessages : option (list (string * string))
}.

Definition development : Config :=
  {| includeStackTrace := true; includeErrorDetails := true;
     logLevel := Some "debug"; exposeSensitiveInfo := true;
     enableVerboseLogging := true; genericMessages := None |}.

Definition production : Config :=
  {| includeStackTrace := false; includeErrorDetails := false;
     logLevel := Some "error"; exposeSensitiveInfo := false;
     enableVerboseLogging := false;
     genericMessages :=
       Some [("400", "Bad request");
             ("401", "Authentication required");
             ("403", "Access forbidden");
             ("404", "Resource not found");
             ("500", "Internal server error occurred")] |}.

Definition test : Config :=
  {| includeStackTrace := true; includeErrorDetails := true;
     logLevel := Some "silent"; exposeSensitiveInfo := false;
     enableVerboseLogging := false; genericMessages := None |}.

(** The names that every object inherits from [Object.prototype]. *)
Definition inherited : list string :=
  ["constructor"; "__defineGetter__"; "__defineSetter__"; "hasOwnProperty";
   "__lookupGetter__"; "__lookupSetter__"; "isPrototypeOf";
   "propertyIsEnumerable"; "toString"; "valueOf"; "__proto__";
   "toLocaleString"].

(** What [errorConfig[env]] is for an inherited name: a truthy value with
    none of the properties of a configuration. *)
Definition blank : Config :=
  {| includeStackTrace := false; includeErrorDetails := false;
     logLevel := None; exposeSensitiveInfo := false;
     enableVerboseLogging := false; genericMessages := None |}.

(** [getCurrentConfig], for the value of [process.env.NODE_ENV]. *)
Definition getCurrentConfig (nodeEnv : option string) : Config :=
  let env := if Errors.present nodeEnv then Errors.text nodeEnv
             else "development" in
  if String.eqb env "development" then development
  else if String.eqb env "production" then production
  else if String.eqb env "test" then test
  else if QueryProcessor.includes inherited env then blank
  else development.

(** [genericMessages[key]], for a key that is not an inherited name. *)
Fixpoint messageFor (table : list (string * string)) (key : string)
  : jsval :=
  match table with
  | [] => VUndefined
  | (k, m) :: table' =>
      if String.eqb k key then VStr m else messageFor table' key
  end.

End ErrorConfig.

(** ** The global error handler *)

Module ErrorHandler.

Import Errors.

(** The readings of the clock taken while an error is handled: by the
    constructor of a wrapping error, by [recordError], by its clean-up and
    for the timestamp of the response. *)
Record Clock : Type := {
  created : Instant;
  recorded : Instant;
  cleaned : Instant;
  answered : Instant
}.

Record Request : Type := {
  info : Metrics.ReqInfo;
  user : option Auth.User
}.

(** [errorResponse.debug] *)
Record Debug : Type := {
  errorId : string;
  severity : string;
  operational : bool;
  debugUser : option (string * string)
}.

(** What [res.status(...).json(...)] is given: the status, the properties
    of the body other than [debug], and [debug]. *)
Record Response : Type := {
  status : jsval;
  body : object;
  debug : option Debug
}.

(** The surroundings of the error classes under a value of [NODE_ENV]. *)
Definition envOf (nodeEnv : option string) (stackTrace : string)
    (at_ : Instant) : Env :=
  {| now := iso at_; stackTrace := stackTrace;
     development := match nodeEnv with
                    | Some s => String.eqb s "development"
                    | None => false
                    end |}.

(** The body in production: the sanitized rendering, with a generic
    message for a status of 500 and above. *)
Definition productionBody (env : Env) (config : ErrorConfig.Config)
    (customError : CustomError) : object :=
  let errorResponse :=
    match ErrorUtils.sanitizeForProduction env (Instance customError) with
    | inl o => o
    | inr e => toJSON env e
    end in
  match ErrorConfig.genericMessages config with
  | Some table =>
      if Conv.geb (statusCode customError) 500 then
        set errorResponse "message"
          (or_else
             (ErrorConfig.messageFor table
                (Val.toString (statusCode customError)))
             (ErrorConfig.messageFor table "500"))
      else errorResponse
  | None => errorResponse
  end.

(** [globalErrorHandler(err, req, res, next)]: the response sent and the
    metrics afterwards. [generated] is the request identifier made up when
    the request has none. What is written to the console is left out. *)
Definition globalErrorHandler (nodeEnv : option string)
    (stackTrace generated : string) (clock : Clock) (err : thrown)
    (req : Request) (metrics : Metrics.State) : Response * Metrics.State :=
  let customError :=
    ErrorFactory.fromNativeError
      (envOf nodeEnv stackTrace (created clock)) err in
  let config := ErrorConfig.getCurrentConfig nodeEnv in
  let '(errorRecord, metrics') :=
    Metrics.recordError (recorded clock) (cleaned clock) customError
      (Some (info req)) metrics in
  let env := envOf nodeEnv stackTrace (answered clock) in
  let errorResponse :=
    if match nodeEnv with
       | Some s => String.eqb s "production"
       | None => false
       end
    then productionBody env config customError
    else toJSON env customError in
  let errorResponse :=
    set errorResponse "requestId"
      (or_else (Metrics.requestId (info req)) (VStr generated)) in
  let errorResponse :=
    set errorResponse "path" (VStr (Metrics.originalUrl (info req))) in
  let errorResponse :=
    set errorResponse "method" (VStr (Metrics.method (info req))) in
  let errorResponse :=
    set errorResponse "timestamp" (VStr (iso (answered clock))) in
  let debug :=
    if ErrorConfig.includeErrorDetails config then
      Some {| errorId := iso (Metrics.er_timestamp errorRecord);
              severity := ErrorUtils.getSeverity (Instance customError);
              operational := ErrorUtils.isOperational (Instance customError);
              debugUser :=
                match user req with
                | Some u => Some (Auth.role u, Auth.apiKey u)
                | None => None
                end |}
    else None in
  ({| status := statusCode customError; body := errorResponse;
      debug := debug |}, metrics').

End ErrorHandler.

(** ** Validation of a new product *)

Module BodyValidation.

Import Errors.

(** The five properties read from [req.body]; a missing one is
    [undefined]. *)
Record Body : Type := {
  b_name : jsval;
  b_description : jsval;
  b_price : jsval;
  b_category : jsval;
  b_inStock : jsval
}.

(** The body as the middleware leaves it. *)
Record Sanitized : Type := {
  s_name : string;
  s_description : string;
  s_price : number;
  s_category : string;
  s_inStock : bool
}.

(** [!v || typeof v !== 'string' || v.trim().length === 0] *)
Definition notFilled (v : jsval) : bool :=
  match v with
  | VStr s => String.eqb s EmptyString || (Syntax.slen (Str.trim s) =? 0)
  | _ => true
  end.

(** A truthy value that is not a string: a number other than 0 and NaN,
    [true], an array or another object. *)
Definition foreign (v : jsval) : bool :=
  Val.truthy v && negb (match v with VStr _ => true | _ => false end).

(** [v.trim()]: only a string has the method. *)
Definition trimOf (field : string) (v : jsval) : outcome string :=
  match v with
  | VStr s => Return (Str.trim s)
  | VUndefined | VNull =>
      Throw ("Cannot read properties of " ++ Val.toString v
             ++ " (reading 'trim')")
  | _ => Throw (field ++ ".trim is not a function")
  end.

(** [v && v.trim().length > limit] *)
Definition longerThan (field : string) (limit : Z) (v : jsval)
  : outcome bool :=
  if Val.truthy v then
    match trimOf field v with
    | Return t => Return (limit <? Syntax.slen t)
    | Throw m => Throw m
    end
  else Return false.

(** [a <= b] on numbers. *)
Definition leb (a b : number) : bool := Num.ltb a b || Conv.num_eqb a b.

Definition cent : number := Fin (Dec 1 (-2)).

Definition priceErrors (price : jsval) : list string :=
  match price with
  | VUndefined | VNull => ["Price is required"]
  | VNum p =>
      if leb p (Num.of_Z 0) then ["Price must be a positive number"] else []
  | _ => ["Price must be a positive number"]
  end.

Definition rangeErrors (price : jsval) : list string :=
  match price with
  | VNum p =>
      if Num.ltb (Num.of_Z 999999) p || Num.ltb p cent
      then ["Price must be between 0.01 and 999999"] else []
  | _ => []
  end.

Definition stockErrors (inStock : jsval) : list string :=
  match inStock with
  | VUndefined | VNull => ["InStock status is required"]
  | VBool _ => []
  | _ => ["InStock must be a boolean value (true or false)"]
  end.

(** [category && !validCategories.includes(category.trim().toLowerCase())] *)
Definition unknownCategory (category : jsval) : outcome bool :=
  if Val.truthy category then
    match trimOf "category" category with
    | Return t =>
        Return (negb (QueryProcessor.includes QueryProcessor.validCategories
                        (Str.toLowerCase t)))
    | Throw m => Throw m
    end
  else Return false.

Definition when (cond : bool) (message : string) : list string :=
  if cond then [message] else [].

(** [validateProductCreation]: the middleware throws, passes an error on
    ([inr]) or lets the request continue with the sanitized body
    ([inl]). *)
Definition validateProductCreation (env : Env) (body : Body)
  : outcome (Sanitized + CustomError) :=
  let name := b_name body in
  let description := b_description body in
  let price := b_price body in
  let category := b_category body in
  let inStock := b_inStock body in
  let errors :=
    (when (notFilled name)
       "Name is required and must be a non-empty string"
     ++ when (notFilled description)
          "Description is required and must be a non-empty string"
     ++ priceErrors price
     ++ when (notFilled category)
          "Category is required and must be a non-empty string"
     ++ stockErrors inStock)%list in
  match longerThan "name" 100 name with
  | Throw m => Throw m
  | Return nameLong =>
  let errors :=
    (errors ++ when nameLong "Name must be less than 100 characters")%list in
  match longerThan "description" 500 description with
  | Throw m => Throw m
  | Return descriptionLong =>
  let errors :=
    (errors ++ when descriptionLong
                 "Description must be less than 500 characters"
            ++ rangeErrors price)%list in
  match unknownCategory category with
  | Throw m => Throw m
  | Return unknown =>
  let errors :=
    (errors ++ when unknown
                 ("Category must be one of: "
                  ++ Str.join ", " QueryProcessor.validCategories))%list in
  if (0 <? Z.of_nat (List.length errors)) then
    Return (inr (ErrorFactory.validation env "Product validation failed"
                   errors None))
  else
    match trimOf "name" name, trimOf "description" description,
          trimOf "category" category with
    | Return n, Return d, Return c =>
        Return (inl {| s_name := n;
                       s_description := d;
                       s_price := Syntax.parseFloat (Val.toString price);
                       s_category := Str.toLowerCase c;
                       s_inStock := Val.truthy inStock |})
    | Throw m, _, _ => Throw m
    | _, Throw m, _ => Throw m
    | _, _, Throw m => Throw m
    end
  end end end.

(** What the details of a validation error report about a body, message
    by message. *)
Definition filled (v : jsval) : Prop :=
  exists s, v = VStr s /\ 1 <= Syntax.slen (Str.trim s).

Definition missing (v : jsval) : Prop := v = VUndefined \/ v = VNull.

Definition detailsFor (body : Body) (details : list string) : Prop :=
  (In "Name is required and must be a non-empty string" details
   <-> ~ filled (b_name body))
  /\ (In "Description is required and must be a non-empty string" details
      <-> ~ filled (b_description body))
  /\ (In "Price is required" details <-> missing (b_price body))
  /\ (In "Price must be a positive number" details
      <-> ~ missing (b_price body)
          /\ ~ exists p, b_price body = VNum p
                         /\ leb p (Num.of_Z 0) = false)
  /\ (In "Category is required and must be a non-empty string" details
      <-> ~ filled (b_category body))
  /\ (In "InStock status is required" details <-> missing (b_inStock body))
  /\ (In "InStock must be a boolean value (true or false)" details
      <-> ~ missing (b_inStock body)
          /\ ~ exists s, b_inStock body = VBool s)
  /\ (In "Name must be less than 100 characters" details
      <-> exists s, b_name body = VStr s
                    /\ 100 < Syntax.slen (Str.trim s))
  /\ (In "Description must be less than 500 characters" details
      <-> exists s, b_description body = VStr s
                    /\ 500 < Syntax.slen (Str.trim s))
  /\ (In "Price must be between 0.01 and 999999" details
      <-> exists p, b_price body = VNum p
                    /\ (Num.ltb (Num.of_Z 999999) p = true
                        \/ Num.ltb p cent = true))
  /\ (In ("Category must be one of: electronics, kitchen, clothing, "
          ++ "books, sports, toys, other") details
      <-> exists s, b_category body = VStr s /\ s <> EmptyString
                    /\ ~ In (Str.toLowerCase (Str.trim s))
                            QueryProcessor.validCategories).

End BodyValidation.

(** ** More sample values *)

Module More.

(** A production surrounding at a fixed time. *)
Definition env : Errors.Env :=
  {| Errors.now := "2024-02-01T00:00:00.000Z";
     Errors.stackTrace := "Error";
     Errors.development := false |}.

(** The first second of that day, and one hour and a half later. *)
Definition early : Instant :=
  {| ms := 1706745601000; iso := "2024-02-01T00:00:01.000Z" |}.

Definition late : Instant :=
  {| ms := 1706751001000; iso := "2024-02-01T01:30:01.000Z" |}.

(** A product that was not found. *)
Definition missing : Errors.CustomError :=
  ErrorFactory.notFound env "Product" (Some "7").

(** The metrics after that error was recorded once. *)
Definition once : Metrics.State :=
  snd (Metrics.recordError early early missing None Metrics.initial).

(** A request to create a product, whose name is a number. *)
Definition numbered : BodyValidation.Body :=
  {| BodyValidation.b_name := Val.int 5;
     BodyValidation.b_description := VStr "A desk lamp";
     BodyValidation.b_price := Val.int 20;
     BodyValidation.b_category := VStr "electronics";
     BodyValidation.b_inStock := VBool true |}.

(** The error that this request raises, and the request as the error
    handler sees it. *)
Definition typeError : Errors.NativeError :=
  {| Errors.n_name := "TypeError";
     Errors.n_message := "name.trim is not a function";
     Errors.n_statusCode := VUndefined;
     Errors.n_code := VUndefined |}.

Definition posted : ErrorHandler.Request :=
  {| ErrorHandler.info :=
       {| Metrics.method := "POST";
          Metrics.originalUrl := "/api/products";
          Metrics.userAgent := VUndefined;
          Metrics.ip := VStr "127.0.0.1";
          Metrics.requestId := VStr "req_1" |};
     ErrorHandler.user := Some (Auth.userOf "dev-key-12345") |}.

Definition clock : ErrorHandler.Clock :=
  {| ErrorHandler.created := early; ErrorHandler.recorded := early;
     ErrorHandler.cleaned := early; ErrorHandler.answered := early |}.

End More.

(** * Properties *)

Import Samples.

(** ** Sanity checks of the number syntax *)

Example parseInt_examples :
  Syntax.parseInt "42" = Some 42 /\ Syntax.parseInt "  -7px" = Some (-7) /\
  Syntax.parseInt "0x1f" = Some 31 /\ Syntax.parseInt "abc" = None /\
  Syntax.parseInt EmptyString = None /\ Syntax.parseInt "3.9" = Some 3 /\
  Syntax.parseInt "0" = Some 0.
Proof. repeat split; reflexivity. Qed.

Example parseFloat_examples :
  Syntax.parseFloat "15" = Fin (Dec 15 0) /\
  Syntax.parseFloat "29.99" = Fin (Dec 2999 (-2)) /\
  Syntax.parseFloat " -1.5e3x" = Fin (Dec (-15) 2) /\
  Syntax.parseFloat ".5" = Fin (Dec 5 (-1)) /\
  Syntax.parseFloat "5." = Fin (Dec 5 0) /\
  Syntax.parseFloat "." = NaN /\ Syntax.parseFloat "abc" = NaN /\
  Syntax.parseFloat "Infinity" = Infinity /\
  Syntax.parseFloat "1e" = Fin (Dec 1 0).
Proof. repeat split; reflexivity. Qed.

Example toString_examples :
  Syntax.dec_toString (Dec 159999 (-2)) = "1599.99" /\
  Syntax.dec_toString (Dec 1200 0) = "1200" /\
  Syntax.dec_toString (Dec 5 (-1)) = "0.5" /\
  Syntax.dec_toString (Dec (-25) (-3)) = "-0.025" /\
  Syntax.dec_toString (Dec 1 21) = "1e+21" /\
  Syntax.dec_toString (Dec 15 (-8)) = "1.5e-7" /\
  Syntax.dec_toString (Dec 120 1) = "1200".
Proof. repeat split; reflexivity. Qed.

(** ** Pagination parameters *)

Section Pagination.

Import QueryProcessor.

(** The value kept for a key is never 0: a parsed 0 is replaced by the
    default, like a value that does not parse. *)
Lemma parseInt_or_nonzero (v : qval) (d : Z) :
  d <> 0 -> parseInt_or v d <> 0.
Proof.
  intros Hd. unfold parseInt_or.
  destruct (Syntax.parseInt (QVal.toString v)) as [n|]; [|exact Hd].
  destruct (n =? 0) eqn:E; [exact Hd|]. now apply Z.eqb_neq.
Qed.

(** What [parsePagination] does in terms of the two values it keeps. *)
Lemma parsePagination_cases (query : Query) :
  let p := parseInt_or (q_page query) 1 in
  let l := parseInt_or (q_limit query) 10 in
  (p < 1 /\ parsePagination query = Throw "Page number must be greater than 0")
  \/ (1 <= p /\ (l < 1 \/ 100 < l) /\
      parsePagination query = Throw "Limit must be between 1 and 100")
  \/ (1 <= p /\ 1 <= l <= 100 /\
      parsePagination query =
        Return {| page := p; limit := l; skip := (p - 1) * l;
                  offset := (p - 1) * l |}).
Proof.
  cbv zeta. unfold parsePagination.
  destruct (parseInt_or (q_page query) 1 <? 1) eqn:Hp.
  - left. split; [now apply Z.ltb_lt|reflexivity].
  - apply Z.ltb_ge in Hp. right.
    destruct (parseInt_or (q_limit query) 10 <? 1) eqn:Hl1; cbn [orb].
    + left. apply Z.ltb_lt in Hl1. auto.
    + apply Z.ltb_ge in Hl1.
      destruct (parseInt_or (q_limit query) 10 >? 100) eqn:Hl2.
      * left. rewrite Z.gtb_ltb in Hl2. apply Z.ltb_lt in Hl2. auto.
      * right. rewrite Z.gtb_ltb in Hl2. apply Z.ltb_ge in Hl2.
        repeat split; auto.
Qed.

(** C3 (the code departs from it). The page "0" is a number below 1, yet
    [parsePagination] does not throw: [parseInt("0") || 1] is 1, so the
    request is served as page 1; the limit "0" likewise becomes 10. *)
Theorem parsePagination_zero_is_defaulted :
  parsePagination (withPage (QStr "0") QUndefined)
    = Return {| page := 1; limit := 10; skip := 0; offset := 0 |}
  /\ parsePagination (withPage QUndefined (QStr "0"))
    = Return {| page := 1; limit := 10; skip := 0; offset := 0 |}
  /\ Syntax.parseInt "0" = Some 0
  /\ throws (parsePagination (withPage (QStr "-1") QUndefined)) = true
  /\ throws (parsePagination (withPage QUndefined (QStr "101"))) = true.
Proof. repeat split; reflexivity. Qed.

(** The page test of [parsePagination] can only reject negative pages. *)
Lemma parsePagination_page_error_negative (query : Query) :
  parsePagination query = Throw "Page number must be greater than 0" ->
  parseInt_or (q_page query) 1 < 0.
Proof.
  intros H.
  pose proof (parseInt_or_nonzero (q_page query) 1 ltac:(lia)) as Hnz.
  destruct (parsePagination_cases query) as [[Hp _]|[[_ [_ E]]|[_ [_ E]]]].
  - lia.
  - rewrite E in H. discriminate H.
  - rewrite E in H. discriminate H.
Qed.

End Pagination.

(** ** Filter parameters *)

Section Filters.

Import QueryProcessor.

(** C4 (the code departs from it). With minPrice=5 and maxPrice=0 both
    bounds are present and non-negative and 5 > 0, yet [parseFilters]
    returns the range: the test [filters.price.min && filters.price.max &&
    ...] takes the maximum 0 for an absent bound. *)
Theorem parseFilters_accepts_min_above_zero_max :
  parseFilters (withPrices (QStr "5") (QStr "0"))
    = Return {| f_category := None;
                f_price := Some {| price_min := Some (Num.of_Z 5);
                                   price_max := Some (Num.of_Z 0) |};
                f_inStock := None |}
  /\ Num.gtb (Num.of_Z 5) (Num.of_Z 0) = true
  /\ throws (parseFilters (withPrices (QStr "5") (QStr "1"))) = true.
Proof. repeat split; reflexivity. Qed.

(** Away from 0 the test works: a returned range with two non-zero bounds
    is never inverted. *)
Lemma parseFilters_range_ordered (query : Query) (fs : FilterSet)
    (pf : PriceFilter) (lo hi : number) :
  parseFilters query = Return fs ->
  f_price fs = Some pf ->
  price_min pf = Some lo -> price_max pf = Some hi ->
  Num.truthy lo = true -> Num.truthy hi = true ->
  Num.gtb lo hi = false.
Proof.
  unfold parseFilters. intros H Hpf Hlo Hhi Tlo Thi.
  destruct (parseCategory query); [|discriminate].
  destruct (parsePrice query) as [p|] eqn:Hp; [|discriminate].
  destruct (parseInStock query); [|discriminate].
  injection H as <-. cbn in Hpf. subst p.
  unfold parsePrice in Hp.
  destruct (_ || _) in Hp; [|discriminate].
  destruct (parseBound (q_minPrice query) _) as [mn|]; [|discriminate].
  destruct (parseBound (q_maxPrice query) _) as [mx|]; [|discriminate].
  destruct (bound_truthy mn && bound_truthy mx && bound_gtb mn mx) eqn:E;
    [discriminate|].
  injection Hp as <-. cbn in Hlo, Hhi. subst mn mx.
  cbn in E. rewrite Tlo, Thi in E. exact E.
Qed.

End Filters.

(** ** Sort parameters *)

Section SortParameters.

Import QueryProcessor.

Lemma is_string_eq (v : qval) (s : string) :
  QVal.is_string v s = true <-> v = QStr s.
Proof.
  destruct v as [|t|l]; cbn; split; try discriminate.
  - intros H. apply String.eqb_eq in H. now subst.
  - intros [= ->]. apply String.eqb_refl.
Qed.

(** C5, as stated, fails: without sortBy the order is [desc] although
    sortOrder is not "desc" (here it is absent, or even "asc"). *)
Lemma parseSorting_desc_without_sortOrder :
  ~ (forall (query : Query) (s : SortSpec),
        parseSorting query = Return s ->
        (order s = desc <-> q_sortOrder query = QStr "desc")).
Proof.
  intros H.
  destruct (H (withSort QUndefined (QStr "asc"))
              {| field := "createdAt"; order := desc |} eq_refl) as [H1 _].
  specialize (H1 eq_refl). discriminate H1.
Qed.

(** C5, amended. When sortBy is given and [parseSorting] returns, the
    order is [desc] exactly when sortOrder is the string "desc", and the
    field is the given one; when sortBy is absent (or empty) the result
    is createdAt/desc whatever sortOrder is. *)
Theorem parseSorting_spec (query : Query) :
  (QVal.truthy (q_sortBy query) = false ->
   parseSorting query = Return {| field := "createdAt"; order := desc |})
  /\ (forall s : SortSpec,
        QVal.truthy (q_sortBy query) = true ->
        parseSorting query = Return s ->
        (order s = desc <-> q_sortOrder query = QStr "desc")
        /\ (order s = asc <-> q_sortOrder query <> QStr "desc")
        /\ q_sortBy query = QStr (field s)
        /\ In (field s) validSortFields)
  /\ (forall f : string,
        q_sortBy query = QStr f -> In f validSortFields ->
        exists s, parseSorting query = Return s /\ field s = f).
Proof.
  unfold parseSorting. split; [|split].
  - intros ->. reflexivity.
  - intros s -> H.
    destruct (q_sortBy query) as [|f|l]; try discriminate.
    destruct (includes validSortFields f) eqn:Hin; [|discriminate].
    injection H as <-. cbn [order field].
    assert (Hf : In f validSortFields).
    { unfold includes in Hin. apply List.existsb_exists in Hin.
      destruct Hin as [x [Hx E]]. apply String.eqb_eq in E. now subst. }
    destruct (QVal.is_string (q_sortOrder query) "desc") eqn:E.
    + apply is_string_eq in E.
      split; [split; auto|]. split; [|split; auto].
      split; [discriminate|]. intros Hne. now destruct Hne.
    + assert (Hne : q_sortOrder query <> QStr "desc").
      { intros C. apply is_string_eq in C. congruence. }
      split; [|split; [|split; auto]].
      * split; [discriminate|]. intros C. now destruct Hne.
      * split; auto.
  - intros f -> Hf.
    assert (Hin : includes validSortFields f = true).
    { unfold includes. apply List.existsb_exists. exists f. split; [exact Hf|].
      apply String.eqb_refl. }
    assert (Ht : QVal.truthy (QStr f) = true).
    { cbn in Hf. cbn.
      destruct Hf as [<-|[<-|[<-|[<-|[<-|[<-|[]]]]]]]; reflexivity. }
    rewrite Ht, Hin. eexists. split; reflexivity.
Qed.

Lemma parseSorting_spec_witness :
  exists s, parseSorting (withSort (QStr "price") (QStr "desc")) = Return s
            /\ order s = desc /\ field s = "price".
Proof.
  exists {| field := "price"; order := desc |}.
  pose proof (parseSorting_spec (withSort (QStr "price") (QStr "desc")))
    as [_ [H _]].
  specialize (H {| field := "price"; order := desc |} eq_refl eq_refl).
  destruct H as [[_ H] _].
  split; [reflexivity|]. split; [exact (H eq_refl)|reflexivity].
Defined.

End SortParameters.

(** ** Pagination of a sequence *)

Section Paging.

Import Transform.

(** For a start that is not negative and a stop that is not before it,
    [slice] is "drop, then take". *)
Lemma slice_drop_take {A : Type} (l : list A) (start len : Z) :
  0 <= start -> 0 <= len ->
  slice l start (start + len)
    = List.firstn (Z.to_nat len) (List.skipn (Z.to_nat start) l).
Proof.
  intros Hs Hl. unfold slice.
  assert (E1 : (start <? 0) = false) by (apply Z.ltb_ge; lia).
  assert (E2 : (start + len <? 0) = false) by (apply Z.ltb_ge; lia).
  rewrite E1, E2.
  destruct (Z_le_gt_dec (Z.of_nat (List.length l)) start) as [Hge|Hlt].
  - (* the start is past the end *)
    rewrite !Z.min_r by lia.
    rewrite (List.skipn_all2 l (n := Z.to_nat start)) by lia.
    rewrite List.skipn_all2 by lia.
    now rewrite !List.firstn_nil.
  - rewrite (Z.min_l start) by lia.
    destruct (Z_le_gt_dec (start + len) (Z.of_nat (List.length l))) as [H|H].
    + rewrite Z.min_l by lia. f_equal. lia.
    + rewrite Z.min_r by lia.
      rewrite !List.firstn_all2; [reflexivity| |];
        rewrite List.length_skipn; lia.
Qed.

Lemma ceil_div_bounds (n d : Z) :
  0 < d ->
  exists t, ceil_div n d = Num.of_Z t /\ (t - 1) * d < n <= t * d.
Proof.
  intros Hd. unfold ceil_div.
  assert (E : (d =? 0) = false) by (apply Z.eqb_neq; lia). rewrite E.
  exists (- (- n / d)). split; [reflexivity|].
  pose proof (Z.div_mod (- n) d ltac:(lia)) as Hdm.
  pose proof (Z.mod_pos_bound (- n) d Hd) as Hb.
  nia.
Qed.

(** C7. For a valid pagination (page at least 1, limit between 1 and 100,
    skip = (page - 1) * limit), [applyPagination] returns the items from
    skip up to skip + limit, so at most limit of them; totalPages is the
    ceiling of n / limit, 0 for an empty sequence; hasNextPage tells
    whether skip + limit < n and hasPrevPage whether page > 1; a page
    beyond the end is empty. *)
Theorem applyPagination_spec (products : list Product) (pg : Pagination)
    (Hpage : 1 <= page pg) (Hlimit : 1 <= limit pg <= 100)
    (Hskip : skip pg = (page pg - 1) * limit pg) :
  let n := Z.of_nat (List.length products) in
  let data := fst (applyPagination products pg) in
  let info := snd (applyPagination products pg) in
  data = List.firstn (Z.to_nat (limit pg))
           (List.skipn (Z.to_nat (skip pg)) products)
  /\ Z.of_nat (List.length data) <= limit pg
  /\ (exists t, totalPages info = Num.of_Z t
                /\ (t - 1) * limit pg < n <= t * limit pg)
  /\ (n = 0 -> totalPages info = Num.of_Z 0)
  /\ totalItems info = n
  /\ (hasNextPage info = true <-> skip pg + limit pg < n)
  /\ (hasPrevPage info = true <-> page pg > 1)
  /\ (n <= skip pg -> data = []).
Proof.
  intros n data info.
  assert (Hs0 : 0 <= skip pg) by nia.
  assert (Hdata : data = List.firstn (Z.to_nat (limit pg))
                           (List.skipn (Z.to_nat (skip pg)) products)).
  { unfold data, applyPagination. cbn [fst].
    apply slice_drop_take; lia. }
  split; [exact Hdata|]. split; [|split; [|split; [|split; [|split; [|split]]]]].
  - rewrite Hdata, List.length_firstn. lia.
  - apply ceil_div_bounds. lia.
  - intros Hn. destruct (ceil_div_bounds n (limit pg) ltac:(lia)) as [t [E B]].
    unfold info, applyPagination, pageInfo. cbn [snd totalPages].
    fold n. rewrite E. f_equal. nia.
  - reflexivity.
  - unfold info, applyPagination, pageInfo. cbn [snd hasNextPage].
    fold n. apply Z.ltb_lt.
  - unfold info, applyPagination, pageInfo. cbn [snd hasPrevPage].
    rewrite Z.gtb_ltb, Z.ltb_lt. lia.
  - intros Hn. rewrite Hdata, List.skipn_all2 by lia. apply List.firstn_nil.
Qed.

Lemma applyPagination_spec_witness :
  let pg := {| page := 2; limit := 2; skip := 2; offset := 2 |} in
  let P := [Samples.lamp; Samples.pan; Samples.coat] in
  fst (applyPagination P pg) = [Samples.coat]
  /\ totalPages (snd (applyPagination P pg)) = Num.of_Z 2.
Proof.
  intros pg P.
  pose proof (applyPagination_spec P pg ltac:(cbn; lia) ltac:(cbn; lia) eq_refl)
    as [H _].
  split; [exact H|reflexivity].
Defined.

End Paging.

(** ** Search *)

Section Searching.

Import Transform.

Lemma prefix_app (needle hay : string) :
  String.prefix needle hay = true <-> exists post, hay = needle ++ post.
Proof.
  revert hay. induction needle as [|c needle IH]; intros hay; cbn.
  - split; [intros _; now exists hay|intros _; now destruct hay].
  - destruct hay as [|h hay]; cbn.
    + split; [discriminate|intros [post H]; discriminate H].
    + destruct (Ascii.ascii_dec c h) as [->|Hne].
      * rewrite IH. split; intros [post H]; exists post.
        -- now rewrite H.
        -- now injection H.
      * split; [discriminate|]. intros [post H]. injection H as E _.
        now destruct Hne.
Qed.

(** [includes] decides the substring relation. *)
Lemma includes_occurs (hay needle : string) :
  Str.includes hay needle = true <-> Str.occurs_in needle hay.
Proof.
  unfold Str.occurs_in. split.
  - induction hay as [|h hay IH]; cbn [Str.includes]; intros H;
      apply orb_true_iff in H as [H|H].
    + apply prefix_app in H as [post H]. now exists EmptyString, post.
    + discriminate H.
    + apply prefix_app in H as [post H]. now exists EmptyString, post.
    + destruct (IH H) as [pre [post E]].
      exists (String h pre), post. cbn. now rewrite E.
  - intros [pre [post E]]. revert hay E.
    induction pre as [|c pre IH]; intros hay E.
    + cbn in E. destruct hay; cbn [Str.includes]; apply orb_true_iff; left;
        apply prefix_app; now exists post.
    + cbn in E. subst hay. cbn [Str.includes]. apply orb_true_iff. right.
      now apply IH.
Qed.

(** The callback of [applySearch], in words. *)
Lemma matchesSearch_iff (t : string) (flds : list string) (p : Product) :
  matchesSearch t flds p = true <->
  exists f, In f flds /\ Val.truthy (get_field p f) = true
            /\ Str.occurs_in t (Str.toLowerCase (Val.toString (get_field p f))).
Proof.
  unfold matchesSearch. rewrite List.existsb_exists.
  split; intros [f [Hf H]]; exists f; (split; [exact Hf|]).
  - apply andb_true_iff in H as [H1 H2]. split; [exact H1|].
    now apply includes_occurs.
  - destruct H as [H1 H2]. apply andb_true_iff. split; [exact H1|].
    now apply includes_occurs.
Qed.

(** With a term set, [applySearch] keeps the products for which some
    configured field has a truthy value whose lower-cased text contains
    the term, in their order; with no term set it returns the sequence
    unchanged. *)
Lemma applySearch_filter (products : list Product) (search : SearchSpec) :
  (term_set search = None -> applySearch products search = products)
  /\ (forall t : string,
        term_set search = Some t ->
        (forall p : Product,
            In p (applySearch products search) <->
            In p products
            /\ exists f, In f (fields search)
                         /\ Val.truthy (get_field p f) = true
                         /\ Str.occurs_in t
                              (Str.toLowerCase (Val.toString (get_field p f))))
        /\ applySearch products search
             = List.filter (matchesSearch t (fields search)) products).
Proof.
  unfold applySearch. split.
  - intros ->. reflexivity.
  - intros t ->. split; [|reflexivity].
    intros p. rewrite List.filter_In, matchesSearch_iff. reflexivity.
Qed.

(** An inherited property is read like an own one: every product has the
    function [Object] as its constructor, whose text contains "object". *)
Lemma applySearch_inherited_field (products : list Product) :
  applySearch products {| term := Some "object"; fields := ["constructor"] |}
  = products.
Proof.
  unfold applySearch. cbn [term_set term fields String.eqb Ascii.eqb Bool.eqb].
  induction products as [|p l IH]; [reflexivity|].
  cbn [List.filter]. rewrite IH. reflexivity.
Qed.

(** C6. The code does not do what the claim says. A search for "false" in
    the field inStock returns no product at all, whatever the sequence:
    the product [pan] is out of stock and the text of its value, "false",
    contains the term, yet it is missed, because the callback tests
    [fieldValue && ...] and the value [false] is falsy. The same search
    for "true" returns exactly the products in stock, so the callback does
    match booleans by their text and misses this one by the guard. *)
Theorem applySearch_misses_false (products : list Product) :
  applySearch products {| term := Some "false"; fields := ["inStock"] |} = []
  /\ applySearch products {| term := Some "true"; fields := ["inStock"] |}
     = List.filter inStock products
  /\ inStock Samples.pan = false
  /\ Str.occurs_in "false"
       (Str.toLowerCase (Val.toString (get_field Samples.pan "inStock")))
  /\ applySearch [Samples.lamp; Samples.pan]
       {| term := Some "false"; fields := ["inStock"] |} = []
  /\ applySearch [Samples.lamp; Samples.pan]
       {| term := Some "true"; fields := ["inStock"] |} = [Samples.lamp].
Proof.
  unfold applySearch. cbn [term_set term fields String.eqb Ascii.eqb Bool.eqb].
  split; [|split; [|split; [reflexivity|split; [|split; reflexivity]]]].
  - induction products as [|p l IH]; [reflexivity|].
    cbn [List.filter]. rewrite IH.
    unfold matchesSearch, get_field.
    cbn [String.eqb Ascii.eqb Bool.eqb List.existsb].
    now destruct (inStock p).
  - induction products as [|p l IH]; [reflexivity|].
    cbn [List.filter]. rewrite IH.
    unfold matchesSearch, get_field.
    cbn [String.eqb Ascii.eqb Bool.eqb List.existsb].
    now destruct (inStock p).
  - now exists EmptyString, EmptyString.
Qed.

(** The term kept by [parseSearch] is in lower case already. *)
Lemma toLowerCase_idempotent (s : string) :
  Str.toLowerCase (Str.toLowerCase s) = Str.toLowerCase s.
Proof.
  induction s as [|c s IH]; cbn; [reflexivity|]. rewrite IH. f_equal.
  destruct c as [[] [] [] [] [] [] [] []]; reflexivity.
Qed.

Lemma parseSearch_term_lower (query : Query) (search : SearchSpec) (t : string) :
  QueryProcessor.parseSearch query = Return search ->
  term search = Some t -> Str.toLowerCase t = t.
Proof.
  unfold QueryProcessor.parseSearch. intros H Ht.
  destruct (_ || _) in H; [|injection H as <-; discriminate Ht].
  destruct (QueryProcessor.searchInput query) as [|s|l]; try discriminate H.
  destruct (_ <? 2) in H; [discriminate H|].
  destruct (_ >? 100) in H; [discriminate H|].
  destruct (q_fields query); try discriminate H; injection H as <-;
    cbn in Ht; injection Ht as <-; apply toLowerCase_idempotent.
Qed.

End Searching.

(** ** Statistics by category *)

Section CategoryStatistics.

Import StatsCalculator.

Lemma finite_not_infinite (x : number) : finite x -> Num.is_infinite x = false.
Proof. intros [d ->]. reflexivity. Qed.

Lemma min_finite (x : number) (p : decimal) :
  x = Infinity \/ finite x -> finite (Num.min x (Fin p)).
Proof.
  intros [->|[d ->]]; unfold Num.min, Num.ltb.
  - now exists p.
  - destruct (Num.dec_ltb p d); [now exists p|now exists d].
Qed.

Lemma max_finite (x : number) (p : decimal) :
  x = NegInfinity \/ finite x -> finite (Num.max x (Fin p)).
Proof.
  intros [->|[d ->]]; unfold Num.max, Num.ltb.
  - now exists p.
  - destruct (Num.dec_ltb d p); [now exists p|now exists d].
Qed.

Lemma add_finite (x : number) (p : decimal) :
  finite x -> finite (add x (Fin p)).
Proof.
  intros [d ->]. unfold add. destruct (Num.scaled d p). eexists; reflexivity.
Qed.

Lemma accumulate_populated (s : CategoryStats) (p : Product) :
  s = emptyStats \/ populated s -> populated (accumulate s p).
Proof.
  intros [->|(Hc & Ht & Hmin & Hmax)]; unfold populated, accumulate;
    cbn [count totalValue minPrice maxPrice emptyStats].
  - split; [lia|]. split; [|split].
    + apply add_finite. now eexists.
    + apply min_finite. now left.
    + apply max_finite. now left.
  - split; [lia|]. split; [|split].
    + now apply add_finite.
    + apply min_finite. now right.
    + apply max_finite. now right.
Qed.

Lemma step_populated (t : StatsTable) (p : Product) :
  Forall (fun e => populated (snd e)) t ->
  Forall (fun e => populated (snd e)) (step t p).
Proof.
  unfold step. induction 1 as [|[k s] t Hs Ht IH]; cbn [upsert].
  - constructor; [|constructor]. apply accumulate_populated. now left.
  - destruct (String.eqb k (category p)).
    + constructor; [|exact Ht]. apply accumulate_populated. now right.
    + constructor; [exact Hs|exact IH].
Qed.

(** Every entry of the table built by the first pass has received a
    product: an entry is created only for the product being counted. *)
Lemma fold_populated (products : list Product) (t : StatsTable) :
  Forall (fun e => populated (snd e)) t ->
  Forall (fun e => populated (snd e)) (List.fold_left step products t).
Proof.
  revert t. induction products as [|p products IH]; intros t Ht; cbn.
  - exact Ht.
  - apply IH. now apply step_populated.
Qed.

Lemma ratio_toFixed2_finite (p q : Z) : q <> 0 -> finite (ratio_toFixed2 p q).
Proof.
  intros Hq. unfold ratio_toFixed2.
  destruct (q =? 0) eqn:E; [apply Z.eqb_eq in E; contradiction|].
  destruct (q <? 0); eexists; reflexivity.
Qed.

Lemma scaled_toFixed2_finite (x : number) (k n : Z) :
  finite x -> n <> 0 -> finite (scaled_toFixed2 x k n).
Proof.
  intros [d ->] Hn. unfold scaled_toFixed2.
  destruct (expo d <? 0) eqn:E; apply ratio_toFixed2_finite; [|exact Hn].
  apply Z.ltb_lt in E.
  pose proof (Z.pow_pos_nonneg 10 (- expo d) ltac:(lia) ltac:(lia)). nia.
Qed.

(** C8. Every entry of the statistics by category has a finite minPrice
    and a finite maxPrice, and its other numbers are finite as well: no
    Infinity or -Infinity is returned. An entry that has accumulated no
    product would have its sentinels resolved to 0 by the second pass. *)
Theorem calculateCategoryStats_finite (products : list Product)
    (cat : string) (s : CategoryStats)
    (Hin : In (cat, s) (calculateCategoryStats products)) :
  finite (minPrice s) /\ finite (maxPrice s)
  /\ Num.is_infinite (minPrice s) = false
  /\ Num.is_infinite (maxPrice s) = false
  /\ finite (totalValue s) /\ finite (averagePrice s)
  /\ (exists x, stockPercentage s = Some x /\ finite x)
  /\ 1 <= count s
  /\ minPrice (finalize emptyStats) = Num.of_Z 0
  /\ maxPrice (finalize emptyStats) = Num.of_Z 0.
Proof.
  unfold calculateCategoryStats in Hin.
  apply List.in_map_iff in Hin as [[k s0] [E Hin]].
  injection E as _ <-.
  pose proof (fold_populated products [] (Forall_nil _)) as Hall.
  rewrite List.Forall_forall in Hall.
  destruct (Hall _ Hin) as (Hc & Ht & Hmin & Hmax). cbn [snd] in *.
  assert (Fmin : finite (minPrice (finalize s0))).
  { destruct Hmin as [d Hd]. exists d. cbn. now rewrite Hd. }
  assert (Fmax : finite (maxPrice (finalize s0))).
  { destruct Hmax as [d Hd]. exists d. cbn. now rewrite Hd. }
  split; [exact Fmin|]. split; [exact Fmax|].
  split; [now apply finite_not_infinite|].
  split; [now apply finite_not_infinite|].
  split; [|split; [|split; [|split; [|split]]]].
  - cbn. apply scaled_toFixed2_finite; [exact Ht|lia].
  - cbn. apply scaled_toFixed2_finite; [exact Ht|lia].
  - eexists. split; [reflexivity|]. apply ratio_toFixed2_finite. lia.
  - exact Hc.
  - reflexivity.
  - reflexivity.
Qed.

Lemma calculateCategoryStats_finite_witness :
  exists s, In ("kitchen", s)
               (calculateCategoryStats
                  [Samples.lamp; Samples.pan; Samples.coat])
            /\ minPrice s = Num.of_Z 10 /\ finite (maxPrice s).
Proof.
  eexists. split; [right; left; reflexivity|]. split; [reflexivity|].
  refine (proj1 (proj2 (calculateCategoryStats_finite
                          [Samples.lamp; Samples.pan; Samples.coat]
                          "kitchen" _ _))).
  right; left; reflexivity.
Defined.

End CategoryStatistics.

(** ** The error classes *)

Section ErrorTaxonomy.

Import Errors.

(** Status and code set by each constructor. *)
Lemma constructors_status_and_code (env : Env) (m r : string)
    (d : list string) (f p q : option string) :
  (statusCode (newValidationError env m d f),
   errorCode (newValidationError env m d f))
    = (Val.int 400, VStr "VALIDATION_ERROR")
  /\ (statusCode (newAuthenticationError env m r),
      errorCode (newAuthenticationError env m r))
    = (Val.int 401, VStr "AUTHENTICATION_ERROR")
  /\ (statusCode (newAuthorizationError env m p q),
      errorCode (newAuthorizationError env m p q))
    = (Val.int 403, VStr "AUTHORIZATION_ERROR")
  /\ (statusCode (newNotFoundError env r f),
      errorCode (newNotFoundError env r f))
    = (Val.int 404, VStr "RESOURCE_NOT_FOUND").
Proof. repeat split. Qed.

(** The five common properties survive the additions of each subclass. *)
Lemma toJSON_common (env : Env) (e : CustomError) (key : string) :
  In key ["success"; "message"; "error"; "statusCode"; "timestamp"] ->
  get (toJSON env e) key = get (baseJSON env e) key.
Proof.
  intros Hkey. unfold toJSON, baseJSON, set_if.
  destruct e as [c m sc ec op ts st]; cbn [class message statusCode errorCode
    timestamp stack].
  cbn in Hkey.
  destruct Hkey as [<-|[<-|[<-|[<-|[<-|[]]]]]];
    destruct c as [|d f|r|p q|r i]; destruct (development env);
    try destruct (present f); try destruct (present p);
    try destruct (present q); try destruct (present i); reflexivity.
Qed.

(** C9. Every error of the classes renders to an object with
    success = false, its message, its code under "error", its statusCode
    and its timestamp. A NotFound error built for a product identifier has
    status 404, code RESOURCE_NOT_FOUND, resource "Product" and that
    identifier, and renders them; the identifier is rendered whenever it
    is not the empty string. *)
Theorem toJSON_structured (env : Env) (e : CustomError) :
  (get (toJSON env e) "success" = Some (VBool false)
   /\ get (toJSON env e) "message" = Some (VStr (message e))
   /\ get (toJSON env e) "error" = Some (errorCode e)
   /\ get (toJSON env e) "statusCode" = Some (statusCode e)
   /\ get (toJSON env e) "timestamp" = Some (VStr (timestamp e)))
  /\ forall (env0 : Env) (productId : string),
      let nf := ErrorFactory.notFound env0 "Product" (Some productId) in
      statusCode nf = Val.int 404
      /\ errorCode nf = VStr "RESOURCE_NOT_FOUND"
      /\ class nf = NotFound "Product" (Some productId)
      /\ timestamp nf = now env0
      /\ get (toJSON env nf) "success" = Some (VBool false)
      /\ get (toJSON env nf) "statusCode" = Some (Val.int 404)
      /\ get (toJSON env nf) "error" = Some (VStr "RESOURCE_NOT_FOUND")
      /\ get (toJSON env nf) "resource" = Some (VStr "Product")
      /\ get (toJSON env nf) "resourceId"
         = (if String.eqb productId EmptyString then None
            else Some (VStr productId)).
Proof.
  split.
  - rewrite !toJSON_common by (cbn; tauto).
    unfold baseJSON. destruct (development env); repeat split.
  - intros env0 productId nf.
    split; [reflexivity|]. split; [reflexivity|]. split; [reflexivity|].
    split; [reflexivity|].
    rewrite !toJSON_common by (cbn; tauto).
    unfold toJSON, baseJSON, set_if, present, nf, ErrorFactory.notFound,
      newNotFoundError, construct.
    cbn [class message statusCode errorCode timestamp stack].
    destruct (development env);
      destruct (String.eqb productId EmptyString); repeat split.
Qed.

(** C10. [fromNativeError] returns an instance of the classes as it is,
    so classifying twice is classifying once, whatever was thrown and
    whenever the second classification happens. *)
Theorem fromNativeError_idempotent (env env' : Env) :
  (forall e : CustomError, ErrorFactory.fromNativeError env (Instance e) = e)
  /\ (forall t : thrown,
        ErrorFactory.fromNativeError env'
          (Instance (ErrorFactory.fromNativeError env t))
        = ErrorFactory.fromNativeError env t).
Proof. split; reflexivity. Qed.

(** A foreign error is always wrapped; for instance a malformed body. *)
Example fromNativeError_syntax_error (env : Env) :
  let e := ErrorFactory.fromNativeError env
             (Foreign {| n_name := "SyntaxError";
                         n_message := "Unexpected token in JSON";
                         n_statusCode := Val.int 400;
                         n_code := VUndefined |}) in
  class e = Validation ["Request body must be valid JSON"] None
  /\ message e = "Invalid JSON format" /\ statusCode e = Val.int 400.
Proof. repeat split. Qed.

End ErrorTaxonomy.

(** ** Sorting *)

Section StableSort.

Import Transform.

Context {A : Type} (cmp : A -> A -> Z).

Lemma insert_perm (x : A) (l : list A) : Permutation (x :: l) (insert cmp x l).
Proof.
  induction l as [|y l IH]; cbn.
  - apply Permutation_refl.
  - destruct (cmp x y >? 0).
    + eapply perm_trans; [apply perm_swap|]. now apply perm_skip.
    + apply Permutation_refl.
Qed.

Lemma Array_sort_perm (l : list A) : Permutation l (Array_sort cmp l).
Proof.
  induction l as [|x l IH]; cbn.
  - apply perm_nil.
  - eapply perm_trans; [|apply insert_perm]. now apply perm_skip.
Qed.

Hypothesis cmp_antisym : forall x y, cmp x y > 0 -> cmp y x <= 0.
Hypothesis cmp_trans :
  forall x y z, cmp x y <= 0 -> cmp y z <= 0 -> cmp x z <= 0.

Lemma insert_sorted (x : A) (l : list A) :
  StronglySorted (fun a b => cmp a b <= 0) l ->
  StronglySorted (fun a b => cmp a b <= 0) (insert cmp x l).
Proof.
  induction 1 as [|y l Hl IH Hy]; cbn.
  - constructor; [constructor|constructor].
  - destruct (cmp x y >? 0) eqn:E.
    + constructor; [exact IH|].
      rewrite Z.gtb_ltb in E. apply Z.ltb_lt in E.
      eapply Permutation_Forall; [apply insert_perm|].
      constructor; [apply cmp_antisym; lia|exact Hy].
    + rewrite Z.gtb_ltb in E. apply Z.ltb_ge in E.
      constructor; [now constructor|].
      constructor; [exact E|].
      eapply List.Forall_impl; [|exact Hy].
      intros z Hz. now apply cmp_trans with y.
Qed.

Lemma Array_sort_sorted (l : list A) :
  StronglySorted (fun a b => cmp a b <= 0) (Array_sort cmp l).
Proof.
  induction l as [|x l IH]; cbn.
  - constructor.
  - now apply insert_sorted.
Qed.

End StableSort.

Section Comparator.

Import Transform.

Lemma str_ltb_asym (a b : string) : Str.ltb a b = true -> Str.ltb b a = false.
Proof.
  revert b. induction a as [|x a IH]; intros [|y b]; cbn; try easy.
  destruct (Z.ltb_spec (Str.code x) (Str.code y));
    destruct (Z.ltb_spec (Str.code y) (Str.code x)); try easy; try lia.
  apply IH.
Qed.

Lemma str_ltb_negtrans (a b c : string) :
  Str.ltb a c = true -> Str.ltb a b = true \/ Str.ltb b c = true.
Proof.
  revert b c. induction a as [|x a IH]; intros [|y b] [|z c]; cbn;
    try easy; try (intros; now left); try (intros; now right).
  destruct (Z.ltb_spec (Str.code x) (Str.code z));
    destruct (Z.ltb_spec (Str.code z) (Str.code x));
    destruct (Z.ltb_spec (Str.code x) (Str.code y));
    destruct (Z.ltb_spec (Str.code y) (Str.code x));
    destruct (Z.ltb_spec (Str.code y) (Str.code z));
    destruct (Z.ltb_spec (Str.code z) (Str.code y));
    try easy; try lia; try (intros; now left); try (intros; now right).
  apply IH.
Qed.

(** [dec_ltb] compares the values: at any scale that suits both. *)
Lemma dec_ltb_scale (a b : decimal) (e : Z) :
  e <= expo a -> e <= expo b ->
  Num.dec_ltb a b = true <->
  mant a * 10 ^ (expo a - e) < mant b * 10 ^ (expo b - e).
Proof.
  intros Ha Hb. unfold Num.dec_ltb, Num.scaled. rewrite Z.ltb_lt.
  set (m := Z.min (expo a) (expo b)).
  assert (Hm : e <= m) by (unfold m; lia).
  assert (Hma : m <= expo a) by (unfold m; lia).
  assert (Hmb : m <= expo b) by (unfold m; lia).
  replace (expo a - e) with ((expo a - m) + (m - e)) by lia.
  replace (expo b - e) with ((expo b - m) + (m - e)) by lia.
  rewrite !Z.pow_add_r by lia.
  pose proof (Z.pow_pos_nonneg 10 (m - e) ltac:(lia) ltac:(lia)) as Hpos.
  rewrite !Z.mul_assoc.
  split; intros H; [apply Z.mul_lt_mono_pos_r; assumption|].
  now apply Z.mul_lt_mono_pos_r in H.
Qed.

Lemma dec_ltb_asym (a b : decimal) :
  Num.dec_ltb a b = true -> Num.dec_ltb b a = false.
Proof.
  intros H. apply not_true_is_false. intros H'.
  apply (dec_ltb_scale a b (Z.min (expo a) (expo b))) in H; try lia.
  apply (dec_ltb_scale b a (Z.min (expo a) (expo b))) in H'; try lia.
Qed.

Lemma dec_ltb_negtrans (a b c : decimal) :
  Num.dec_ltb a c = true ->
  Num.dec_ltb a b = true \/ Num.dec_ltb b c = true.
Proof.
  intros H.
  set (e := Z.min (expo a) (Z.min (expo b) (expo c))).
  apply (dec_ltb_scale a c e) in H; try (unfold e; lia).
  destruct (Z_lt_ge_dec (mant a * 10 ^ (expo a - e))
                        (mant b * 10 ^ (expo b - e))) as [L|G].
  - left. apply (dec_ltb_scale a b e); try (unfold e; lia). exact L.
  - right. apply (dec_ltb_scale b c e); try (unfold e; lia). lia.
Qed.

(** All products read the same kind of value from a given field. *)
Lemma get_field_kind (f : string) :
  (exists g : Product -> string, forall p, get_field p f = VStr (g p))
  \/ (exists g : Product -> decimal, forall p, get_field p f = VNum (Fin (g p)))
  \/ (exists g : Product -> bool, forall p, get_field p f = VBool (g p))
  \/ (exists text : string, forall p, get_field p f = VObj text)
  \/ (forall p, get_field p f = VUndefined).
Proof.
  unfold get_field.
  destruct (String.eqb f "id"); [left; now exists id|].
  destruct (String.eqb f "name"); [left; now exists name|].
  destruct (String.eqb f "description"); [left; now exists description|].
  destruct (String.eqb f "price"); [right; left; now exists price|].
  destruct (String.eqb f "category"); [left; now exists category|].
  destruct (String.eqb f "inStock"); [right; right; left; now exists inStock|].
  destruct (String.eqb f "createdAt"); [left; now exists createdAt|].
  destruct (String.eqb f "updatedAt"); [left; now exists updatedAt|].
  do 3 right.
  destruct (String.eqb f "constructor"); [left; now eexists|].
  destruct (String.eqb f "__proto__"); [left; now eexists|].
  destruct (List.existsb (String.eqb f) inheritedMethods);
    [left; now eexists|].
  right. reflexivity.
Qed.

Lemma bool_number (b : bool) :
  toNumber (VBool b) = Fin (Dec (if b then 1 else 0) 0).
Proof. now destruct b. Qed.

Lemma key_lt_asym (f : string) (a b : Product) :
  key_lt f a b = true -> key_lt f b a = false.
Proof.
  unfold key_lt.
  destruct (get_field_kind f) as [[g H]|[[g H]|[[g H]|[[g H]|H]]]]; rewrite !H.
  - cbn. apply str_ltb_asym.
  - cbn. apply dec_ltb_asym.
  - unfold lowered, lt. rewrite !bool_number. apply dec_ltb_asym.
  - cbn. apply str_ltb_asym.
  - cbn. easy.
Qed.

Lemma key_lt_negtrans (f : string) (a b c : Product) :
  key_lt f a c = true -> key_lt f a b = true \/ key_lt f b c = true.
Proof.
  unfold key_lt.
  destruct (get_field_kind f) as [[g H]|[[g H]|[[g H]|[[g H]|H]]]]; rewrite !H.
  - cbn. apply str_ltb_negtrans.
  - cbn. apply dec_ltb_negtrans.
  - unfold lowered, lt. rewrite !bool_number. apply dec_ltb_negtrans.
  - cbn. apply str_ltb_negtrans.
  - cbn. easy.
Qed.

(** The comparator in terms of the order of the keys. *)
Lemma compareProducts_keys (sort : SortSpec) (a b : Product) :
  compareProducts sort a b =
    match order sort with
    | desc => if key_lt (field sort) a b then 1
              else if key_lt (field sort) b a then -1 else 0
    | asc => if key_lt (field sort) b a then 1
             else if key_lt (field sort) a b then -1 else 0
    end.
Proof.
  unfold compareProducts, key_lt.
  destruct (get_field_kind (field sort)) as [[g H]|[[g H]|[[g H]|[[g H]|H]]]];
    rewrite !H; reflexivity.
Qed.

Lemma compareProducts_antisym (sort : SortSpec) (a b : Product) :
  compareProducts sort a b > 0 -> compareProducts sort b a <= 0.
Proof.
  rewrite !compareProducts_keys.
  destruct (order sort);
    destruct (key_lt (field sort) a b) eqn:Hab;
    destruct (key_lt (field sort) b a) eqn:Hba; try lia;
    apply key_lt_asym in Hab; congruence.
Qed.

Lemma compareProducts_trans (sort : SortSpec) (a b c : Product) :
  compareProducts sort a b <= 0 -> compareProducts sort b c <= 0 ->
  compareProducts sort a c <= 0.
Proof.
  rewrite !compareProducts_keys.
  destruct (order sort).
  - (* ascending: nothing later is below something earlier *)
    destruct (key_lt (field sort) b a) eqn:Hba; [lia|].
    destruct (key_lt (field sort) c b) eqn:Hcb; [lia|].
    destruct (key_lt (field sort) c a) eqn:Hca.
    + apply (key_lt_negtrans _ c b a) in Hca. destruct Hca; congruence.
    + destruct (key_lt (field sort) a c), (key_lt (field sort) a b),
        (key_lt (field sort) b c); lia.
  - destruct (key_lt (field sort) a b) eqn:Hab; [lia|].
    destruct (key_lt (field sort) b c) eqn:Hbc; [lia|].
    destruct (key_lt (field sort) a c) eqn:Hac.
    + apply (key_lt_negtrans _ a b c) in Hac. destruct Hac; congruence.
    + destruct (key_lt (field sort) c a), (key_lt (field sort) b a),
        (key_lt (field sort) c b); lia.
Qed.


End Comparator.

(** ** Arrays in the store: sorting in place and the listing pipeline *)

Section InStore.

Import Mem Ref.

(** A new array never takes the place of an existing one. *)
Lemma fresh_unused (m : gmap nat (list Product)) : m !! fresh (dom m) = None.
Proof. apply not_elem_of_dom. apply is_fresh. Qed.

Lemma fresh_other (m : gmap nat (list Product)) (r : nat) (l : list Product) :
  m !! r = Some l -> fresh (dom m) <> r.
Proof. intros H E. rewrite <- E, fresh_unused in H. discriminate H. Qed.

Lemma enter_run (s : stage) (r : nat) (P : list Product) (st : store) :
  arrays st !! r = Some P ->
  enter s r st = Some (P, Store (arrays st) (calls st ++ [Call s r P])).
Proof. intros H. unfold enter, bind, read, record, ret. now rewrite H. Qed.

Lemma applyFilters_run (r : nat) (P : list Product) (filters : FilterSet)
    (st : store) :
  arrays st !! r = Some P ->
  applyFilters r filters st =
    Some (fresh (dom (arrays st)),
          Store (<[fresh (dom (arrays st)) := Transform.applyFilters P filters]>
                   (arrays st))
                (calls st ++ [Call StageFilters r P])).
Proof.
  intros H. unfold applyFilters, bind. now rewrite (enter_run _ _ P).
Qed.

Lemma applySearch_run (r : nat) (P : list Product) (search : SearchSpec)
    (st : store) :
  arrays st !! r = Some P ->
  applySearch r search st =
    match Transform.term_set search with
    | None => Some (r, Store (arrays st) (calls st ++ [Call StageSearch r P]))
    | Some _ =>
        Some (fresh (dom (arrays st)),
              Store (<[fresh (dom (arrays st)) := Transform.applySearch P search]>
                       (arrays st))
                    (calls st ++ [Call StageSearch r P]))
    end.
Proof.
  intros H. unfold applySearch, bind. rewrite (enter_run _ _ P) by exact H.
  now destruct (Transform.term_set search).
Qed.

Lemma applySorting_run (r : nat) (P : list Product) (sort : SortSpec)
    (st : store) :
  arrays st !! r = Some P ->
  applySorting r sort st =
    Some (r, Store (<[r := Transform.sorted P sort]> (arrays st))
                   (calls st ++ [Call StageSorting r P])).
Proof.
  intros H. unfold applySorting, bind. rewrite (enter_run _ _ P) by exact H.
  unfold write, ret. cbn [arrays calls]. now rewrite H.
Qed.

Lemma applyPagination_run (r : nat) (P : list Product) (pg : Pagination)
    (st : store) :
  arrays st !! r = Some P ->
  applyPagination r pg st =
    Some ((fresh (dom (arrays st)), snd (Transform.applyPagination P pg)),
          Store (<[fresh (dom (arrays st)) :=
                     fst (Transform.applyPagination P pg)]> (arrays st))
                (calls st ++ [Call StagePaging r P])).
Proof.
  intros H. unfold applyPagination, bind. now rewrite (enter_run _ _ P).
Qed.

(** The two filters commute. *)
Lemma filters_search_commute (P : list Product) (filters : FilterSet)
    (search : SearchSpec) :
  Transform.applyFilters (Transform.applySearch P search) filters
  = Transform.applySearch (Transform.applyFilters P filters) search.
Proof.
  unfold Transform.applySearch, Transform.applyFilters.
  destruct (Transform.term_set search) as [t|]; [|reflexivity].
  induction P as [|p P IH]; [reflexivity|]. cbn.
  destruct (Transform.matchesSearch t (fields search) p) eqn:Es;
    destruct (Transform.passesFilters filters p) eqn:Ef; cbn;
    rewrite ?Es, ?Ef, IH; reflexivity.
Qed.

(** What a run of the handler does to the store and what it answers. *)
Lemma listProducts_run (st : store) (products : nat) (P : list Product)
    (req : Request) :
  arrays st !! products = Some P ->
  let found := Transform.applySearch P (req_search req) in
  let filtered := Transform.applyFilters found (req_filters req) in
  let ordered := Transform.sorted filtered (req_sort req) in
  let result := Transform.applyPagination ordered (req_pagination req) in
  exists (resp : ListResponse) (st' : store),
    listProducts products req st = Some (resp, st')
    /\ resp = buildListResponse (fst result) (req_filters req)
                (req_search req) (req_sort req) (snd result)
    /\ List.map view (calls st')
       = (List.map view (calls st) ++ search_first_calls P req)%list
    /\ arrays st' !! products = Some P.
Proof.
  intros H found filtered ordered result.
  unfold listProducts, bind at 1, read. rewrite H.
  unfold bind at 1, alloc. cbn [arrays calls].
  set (r1 := fresh (dom (arrays st))).
  assert (N1 : r1 <> products) by (apply fresh_other with P; exact H).
  set (m1 := <[r1 := P]> (arrays st)).
  assert (L1 : m1 !! r1 = Some P) by apply lookup_insert_eq.
  assert (K1 : m1 !! products = Some P)
    by (unfold m1; now rewrite lookup_insert_ne).
  unfold search_first_calls. fold found filtered ordered.
  unfold bind at 1.
  destruct (Transform.term_set (req_search req)) as [t|] eqn:Et.
  - (* a term is set: search allocates *)
    rewrite (applySearch_run r1 P) by exact L1. rewrite Et.
    cbn [arrays calls].
    set (r2 := fresh (dom m1)).
    set (m2 := <[r2 := Transform.applySearch P (req_search req)]> m1).
    assert (L2 : m2 !! r2 = Some found) by apply lookup_insert_eq.
    assert (K2 : m2 !! products = Some P).
    { unfold m2. rewrite lookup_insert_ne; [exact K1|].
      apply fresh_other with P. exact K1. }
    unfold bind at 1. rewrite (applyFilters_run r2 found) by exact L2.
    cbn [arrays calls].
    set (r3 := fresh (dom m2)).
    set (m3 := <[r3 := Transform.applyFilters found (req_filters req)]> m2).
    assert (L3 : m3 !! r3 = Some filtered) by apply lookup_insert_eq.
    assert (N3 : r3 <> products) by (apply fresh_other with P; exact K2).
    assert (K3 : m3 !! products = Some P)
      by (unfold m3; now rewrite lookup_insert_ne).
    unfold bind at 1. rewrite (applySorting_run r3 filtered) by exact L3.
    cbn [arrays calls].
    set (m4 := <[r3 := Transform.sorted filtered (req_sort req)]> m3).
    assert (L4 : m4 !! r3 = Some ordered) by apply lookup_insert_eq.
    assert (K4 : m4 !! products = Some P)
      by (unfold m4; now rewrite lookup_insert_ne).
    unfold bind at 1. rewrite (applyPagination_run r3 ordered) by exact L4.
    cbn [arrays calls fst snd].
    set (r5 := fresh (dom m4)).
    unfold bind, read, ret. cbn [arrays calls].
    rewrite lookup_insert_eq.
    eexists; eexists. split; [reflexivity|]. split; [reflexivity|].
    cbn [arrays calls]. split.
    + rewrite <- !List.app_assoc, List.map_app. reflexivity.
    + rewrite lookup_insert_ne; [exact K4|].
      apply fresh_other with P. exact K4.
  - (* no term: the copy goes to the filters as it is *)
    unfold ret at 1.
    assert (Ef : found = P).
    { unfold found, Transform.applySearch. now rewrite Et. }
    unfold bind at 1. rewrite (applyFilters_run r1 P) by exact L1.
    cbn [arrays calls].
    set (r3 := fresh (dom m1)).
    set (m3 := <[r3 := Transform.applyFilters P (req_filters req)]> m1).
    assert (L3 : m3 !! r3 = Some filtered)
      by (unfold filtered; rewrite Ef; apply lookup_insert_eq).
    assert (N3 : r3 <> products) by (apply fresh_other with P; exact K1).
    assert (K3 : m3 !! products = Some P)
      by (unfold m3; now rewrite lookup_insert_ne).
    unfold bind at 1. rewrite (applySorting_run r3 filtered) by exact L3.
    cbn [arrays calls].
    set (m4 := <[r3 := Transform.sorted filtered (req_sort req)]> m3).
    assert (L4 : m4 !! r3 = Some ordered) by apply lookup_insert_eq.
    assert (K4 : m4 !! products = Some P)
      by (unfold m4; now rewrite lookup_insert_ne).
    unfold bind at 1. rewrite (applyPagination_run r3 ordered) by exact L4.
    cbn [arrays calls fst snd].
    unfold bind, read, ret. cbn [arrays calls].
    rewrite lookup_insert_eq.
    eexists; eexists. split; [reflexivity|]. split; [reflexivity|].
    cbn [arrays calls]. split.
    + rewrite <- !List.app_assoc, List.map_app, Ef. reflexivity.
    + rewrite lookup_insert_ne; [exact K4|].
      apply fresh_other with P. exact K4.
Qed.




(** C1, as stated, fails: with a search term set, the handler calls
    [applySearch] first, on the copy of the whole catalogue, and hands its
    result to [applyFilters]; the record of calls is not the one of
    filter, search, sort, paginate. *)
Lemma listProducts_searches_before_filtering :
  let st := Samples.shop in
  exists (resp : ListResponse) (st' : store),
    listProducts 0 Samples.request st = Some (resp, st')
    /\ List.map view (calls st')
       = [(StageSearch, [Samples.lamp; Samples.pan; Samples.coat]);
          (StageFilters, [Samples.lamp; Samples.coat]);
          (StageSorting, [Samples.lamp; Samples.coat]);
          (StagePaging, [Samples.coat; Samples.lamp])]
    /\ List.map view (calls st')
       <> filter_first_calls [Samples.lamp; Samples.pan; Samples.coat]
            Samples.request.
Proof.
  cbv zeta. eexists. eexists. split; [vm_compute; reflexivity|].
  split; [reflexivity|]. vm_compute. intros E. discriminate E.
Qed.

(** C1, amended. The handler composes search (called only when a term is
    set), then filter, then sort, then paginate: [applyFilters] receives
    the output of the search, [applySorting] the output of the filters,
    and [applyPagination] comes last, on the sorted sequence. Filtering
    and searching commute, so the page and its metadata are those of
    filter, search, sort, paginate. *)
Theorem listProducts_pipeline (st : store) (products : nat)
    (P : list Product) (req : Request)
    (H : arrays st !! products = Some P) :
  exists (resp : ListResponse) (st' : store),
    listProducts products req st = Some (resp, st')
    /\ List.map view (calls st')
       = (List.map view (calls st) ++ search_first_calls P req)%list
    /\ let filtered := Transform.applyFilters P (req_filters req) in
       let found := Transform.applySearch filtered (req_search req) in
       let ordered := Transform.sorted found (req_sort req) in
       let result := Transform.applyPagination ordered (req_pagination req) in
       data resp = fst result /\ meta_pagination resp = snd result.
Proof.
  destruct (listProducts_run st products P req H)
    as (resp & st' & Hrun & Hresp & Hcalls & _).
  exists resp, st'. split; [exact Hrun|]. split; [exact Hcalls|].
  cbv zeta. rewrite <- filters_search_commute. now rewrite Hresp.
Qed.

Lemma listProducts_pipeline_witness :
  let st := Samples.shop in
  exists (resp : ListResponse) (st' : store),
    listProducts 0 Samples.request st = Some (resp, st')
    /\ data resp = [Samples.coat; Samples.lamp].
Proof.
  cbv zeta.
  destruct (listProducts_pipeline
              Samples.shop 0%nat [Samples.lamp; Samples.pan; Samples.coat]
              Samples.request ltac:(vm_compute; reflexivity))
    as (resp & st' & Hrun & _ & Hdata & _).
  exists resp, st'. split; [exact Hrun|exact Hdata].
Defined.

End InStore.

(** ** The scenarios of the specification *)

Section Scenarios.

Import Transform.

(** minPrice=15 over the prices 10, 20, 30 keeps 20 and 30. *)
Example scenario_minPrice :
  exists fs, QueryProcessor.parseFilters
               (Samples.withPrices (QStr "15") QUndefined) = Return fs
             /\ applyFilters [Samples.priced "1" 10; Samples.priced "2" 20; Samples.priced "3" 30] fs
                = [Samples.priced "2" 20; Samples.priced "3" 30].
Proof. eexists. split; reflexivity. Qed.

(** sortBy=price, sortOrder=desc, page=1, limit=2 over the prices 10, 30,
    20 gives 30, 20 and page 1 of 2, with a next page. *)
Example scenario_sorted_page :
  let P := [Samples.priced "1" 10; Samples.priced "2" 30; Samples.priced "3" 20] in
  let sort := {| field := "price"; order := desc |} in
  let pg := {| page := 1; limit := 2; skip := 0; offset := 0 |} in
  QueryProcessor.parseSorting (Samples.withSort (QStr "price") (QStr "desc"))
    = Return sort
  /\ QueryProcessor.parsePagination (Samples.withPage (QStr "1") (QStr "2"))
    = Return pg
  /\ applyPagination (sorted P sort) pg
    = ([Samples.priced "2" 30; Samples.priced "3" 20],
       {| currentPage := 1; totalPages := Num.of_Z 2; totalItems := 3;
          itemsPerPage := 2; hasNextPage := true; hasPrevPage := false |}).
Proof. repeat split. Qed.

(** category=bogus is refused, naming the value and the valid ones. *)
Example scenario_bogus_category :
  QueryProcessor.parseFilters
    {| q_page := QUndefined; q_limit := QUndefined;
       q_category := QStr "bogus"; q_minPrice := QUndefined;
       q_maxPrice := QUndefined; q_inStock := QUndefined; q_q := QUndefined;
       q_search := QUndefined; q_fields := QUndefined;
       q_sortBy := QUndefined; q_sortOrder := QUndefined |}
  = Throw ("Invalid categories: bogus. Valid categories: " ++
           "electronics, kitchen, clothing, books, sports, toys, other").
Proof. reflexivity. Qed.

(** A negative page is answered by a validation error with status 400. *)
Example scenario_negative_page (env : Errors.Env) :
  exists e, Ref.validateProductQuery env
              (Samples.withPage (QStr "-1") QUndefined) = inr e
            /\ Errors.statusCode e = Val.int 400
            /\ Errors.errorCode e = VStr "VALIDATION_ERROR"
            /\ Errors.message e
               = "Query validation error: Page number must be greater than 0".
Proof. eexists. repeat split. Qed.

End Scenarios.

(** * Further properties of the code *)

(** ** The parsers *)

Section ParserResults.

Import QueryProcessor Inputs.

(** X1. What [parsePagination] returns is a valid pagination: the page is
    at least 1, the limit lies between 1 and 100, skip and offset are both
    (page - 1) * limit, and the page it selects from any sequence has at
    most 100 items. This is stated for the pages whose product with the
    limit is at most 2 ^ 53, where the numbers of the code are the exact
    integers. *)
Theorem parsePagination_returns_valid (query : Query) (pg : Pagination)
    (H : parsePagination query = Return pg)
    (Hexact : page pg * limit pg <= 2 ^ 53) :
  1 <= page pg /\ 1 <= limit pg <= 100
  /\ skip pg = (page pg - 1) * limit pg /\ offset pg = skip pg
  /\ 0 <= skip pg
  /\ forall products : list Product,
      Z.of_nat (List.length (fst (Transform.applyPagination products pg)))
        <= limit pg <= 100.
Proof.
  destruct (parsePagination_cases query) as [[_ E]|[[_ [_ E]]|[Hp [Hl E]]]];
    rewrite E in H; try discriminate H.
  injection H as <-. cbn [page limit skip offset].
  split; [exact Hp|]. split; [exact Hl|]. split; [reflexivity|].
  split; [reflexivity|]. split; [nia|].
  intros products. unfold Transform.applyPagination. cbn [fst skip limit].
  rewrite slice_drop_take by nia.
  rewrite List.length_firstn. lia.
Qed.

Lemma parsePagination_returns_valid_witness :
  1 <= 2 /\ 1 <= 5 <= 100 /\ 5 = (2 - 1) * 5.
Proof.
  assert (Hexact : 2 * 5 <= 2 ^ 53) by (cbn; lia).
  pose proof (parsePagination_returns_valid
                (withPage (QStr "2") (QStr "5"))
                {| page := 2; limit := 5; skip := 5; offset := 5 |} eq_refl
                Hexact)
    as (H1 & H2 & H3 & _).
  exact (conj H1 (conj H2 H3)).
Defined.

(** [parseFilters] returns when its three parts do. *)
Lemma parseFilters_parts (query : Query) (fs : FilterSet) :
  parseFilters query = Return fs ->
  parseCategory query = Return (f_category fs)
  /\ parsePrice query = Return (f_price fs)
  /\ parseInStock query = Return (f_inStock fs).
Proof.
  unfold parseFilters.
  destruct (parseCategory query); [|discriminate].
  destruct (parsePrice query); [|discriminate].
  destruct (parseInStock query); [|discriminate].
  intros [= <-]. auto.
Qed.

Lemma filter_nil_all {A : Type} (f : A -> bool) (l : list A) :
  List.filter f l = [] -> forall x, In x l -> f x = false.
Proof.
  induction l as [|a l IH]; cbn; [intros _ x []|].
  destruct (f a) eqn:E; [discriminate|].
  intros H x [<-|Hx]; [exact E|now apply IH].
Qed.

(** X2. The categories that [parseFilters] returns are the supplied ones in
    lower case, and each is one of the seven valid categories; a supplied
    category that is not valid once lower-cased makes [parseFilters]
    throw. *)
Theorem parseFilters_categories_valid (query : Query) :
  (forall (fs : FilterSet) (cats : list string),
      parseFilters query = Return fs -> f_category fs = Some cats ->
      cats = List.map Str.toLowerCase (suppliedCategories query)
      /\ forall c, In c cats -> In c validCategories)
  /\ (forall c : string,
        In c (suppliedCategories query) ->
        ~ In (Str.toLowerCase c) validCategories ->
        throws (parseFilters query) = true).
Proof.
  split.
  - intros fs cats H Hc. apply parseFilters_parts in H as [H _].
    rewrite Hc in H. unfold parseCategory, suppliedCategories in *.
    destruct (q_category query) as [|s|l]; cbn [QVal.truthy] in H;
      try discriminate H.
    + destruct (String.eqb s EmptyString); cbn [negb] in H; [discriminate H|].
      destruct (0 <? _) eqn:E in H; [discriminate H|]. injection H as <-.
      split; [reflexivity|]. intros c Hin.
      apply Z.ltb_ge in E.
      assert (Hnil : List.filter
                       (fun cat => negb (includes validCategories cat))
                       [Str.toLowerCase s] = []).
      { destruct (List.filter _ _); [reflexivity|cbn in E; lia]. }
      pose proof (filter_nil_all _ _ Hnil c Hin) as Hv.
      apply negb_false_iff in Hv. unfold includes in Hv.
      apply List.existsb_exists in Hv as [x [Hx Ex]].
      apply String.eqb_eq in Ex. now subst.
    + destruct (0 <? _) eqn:E in H; [discriminate H|]. injection H as <-.
      split; [reflexivity|]. intros c Hin.
      apply Z.ltb_ge in E.
      assert (Hnil : List.filter
                       (fun cat => negb (includes validCategories cat))
                       (List.map Str.toLowerCase l) = []).
      { destruct (List.filter _ _); [reflexivity|cbn in E; lia]. }
      pose proof (filter_nil_all _ _ Hnil c Hin) as Hv.
      apply negb_false_iff in Hv. unfold includes in Hv.
      apply List.existsb_exists in Hv as [x [Hx Ex]].
      apply String.eqb_eq in Ex. now subst.
  - intros c Hin Hbad. unfold parseFilters.
    assert (Hthrow : exists m, parseCategory query = Throw m).
    { unfold parseCategory, suppliedCategories in *.
      assert (Hinc : includes validCategories (Str.toLowerCase c) = false).
      { apply not_true_is_false. intros Hv. apply Hbad.
        unfold includes in Hv. apply List.existsb_exists in Hv as [x [Hx Ex]].
        apply String.eqb_eq in Ex. now subst. }
      assert (Hgen : forall l : list string, In c l ->
                (0 <? Z.of_nat (List.length
                   (List.filter (fun cat => negb (includes validCategories cat))
                      (List.map Str.toLowerCase l)))) = true).
      { intros l Hl. apply Z.ltb_lt.
        assert (Hf : In (Str.toLowerCase c)
                       (List.filter
                          (fun cat => negb (includes validCategories cat))
                          (List.map Str.toLowerCase l))).
        { apply List.filter_In. split; [now apply List.in_map|].
          now rewrite Hinc. }
        destruct (List.filter _ _); [destruct Hf|cbn; lia]. }
      destruct (q_category query) as [|s|l]; [destruct Hin| |].
      - cbn [QVal.truthy]. destruct (String.eqb s EmptyString);
          [destruct Hin|]. cbn [negb].
        pose proof (Hgen [s] Hin) as G. cbn [List.map] in G. rewrite G.
        eexists; reflexivity.
      - cbn [QVal.truthy]. rewrite (Hgen l Hin). eexists; reflexivity. }
    destruct Hthrow as [m ->]. reflexivity.
Qed.

Lemma parseFilters_categories_valid_witness :
  In "books" validCategories
  /\ throws (parseFilters
               {| q_page := QUndefined; q_limit := QUndefined;
                  q_category := QArr ["Books"; "Bogus"];
                  q_minPrice := QUndefined; q_maxPrice := QUndefined;
                  q_inStock := QUndefined; q_q := QUndefined;
                  q_search := QUndefined; q_fields := QUndefined;
                  q_sortBy := QUndefined; q_sortOrder := QUndefined |}) = true.
Proof.
  split.
  - pose proof (parseFilters_categories_valid
                  {| q_page := QUndefined; q_limit := QUndefined;
                     q_category := QStr "Books";
                     q_minPrice := QUndefined; q_maxPrice := QUndefined;
                     q_inStock := QUndefined; q_q := QUndefined;
                     q_search := QUndefined; q_fields := QUndefined;
                     q_sortBy := QUndefined; q_sortOrder := QUndefined |})
      as [H _].
    destruct (H _ ["books"] eq_refl eq_refl) as [_ Hv].
    apply Hv. now left.
  - refine (proj2 (parseFilters_categories_valid _) "Bogus" _ _).
    + right. now left.
    + cbn. intros [E|[E|[E|[E|[E|[E|[E|[]]]]]]]]; discriminate E.
Defined.

Lemma parseBound_result (v : qval) (m : string) (x : number) :
  parseBound v m = Return (Some x) ->
  Num.isNaN x = false /\ Num.ltb x (Num.of_Z 0) = false
  /\ x = Syntax.parseFloat (QVal.toString v).
Proof.
  unfold parseBound. destruct (QVal.truthy v); [|discriminate].
  destruct (Num.isNaN _ || Num.ltb _ _) eqn:E; [discriminate|].
  intros [= <-]. apply orb_false_iff in E as [E1 E2]. auto.
Qed.

(** X3. Every price bound that [parseFilters] returns is a number that is
    neither NaN nor negative: it is what [parseFloat] reads from the
    key. *)
Theorem parseFilters_bounds_not_negative (query : Query) (fs : FilterSet)
    (pf : PriceFilter)
    (H : parseFilters query = Return fs) (Hpf : f_price fs = Some pf) :
  (forall lo, price_min pf = Some lo ->
     Num.isNaN lo = false /\ Num.ltb lo (Num.of_Z 0) = false
     /\ lo = Syntax.parseFloat (QVal.toString (q_minPrice query)))
  /\ (forall hi, price_max pf = Some hi ->
        Num.isNaN hi = false /\ Num.ltb hi (Num.of_Z 0) = false
        /\ hi = Syntax.parseFloat (QVal.toString (q_maxPrice query))).
Proof.
  apply parseFilters_parts in H as (_ & H & _). rewrite Hpf in H.
  unfold parsePrice in H.
  destruct (_ || _) in H; [|discriminate H].
  destruct (parseBound (q_minPrice query) _) as [mn|] eqn:Emin;
    [|discriminate H].
  destruct (parseBound (q_maxPrice query) _) as [mx|] eqn:Emax;
    [|discriminate H].
  destruct (_ && _) in H; [discriminate H|]. injection H as <-.
  cbn [price_min price_max]. split.
  - intros lo ->. now apply parseBound_result in Emin.
  - intros hi ->. now apply parseBound_result in Emax.
Qed.

Lemma parseFilters_bounds_not_negative_witness :
  Num.ltb (Num.of_Z 15) (Num.of_Z 0) = false.
Proof.
  pose proof (parseFilters_bounds_not_negative
                (withPrices (QStr "15") QUndefined)
                {| f_category := None;
                   f_price := Some {| price_min := Some (Num.of_Z 15);
                                      price_max := None |};
                   f_inStock := None |}
                {| price_min := Some (Num.of_Z 15); price_max := None |}
                eq_refl eq_refl) as [H _].
  exact (proj1 (proj2 (H _ eq_refl))).
Defined.

Lemma split_from_nonempty (sep : ascii) (cur s : string) :
  Str.split_from sep cur s <> [].
Proof.
  revert cur. induction s as [|c s IH]; intros cur; cbn; [discriminate|].
  destruct (Ascii.eqb c sep); [discriminate|apply IH].
Qed.

(** X4. A search term returned by [parseSearch] is the lower case of the
    trimmed input, the trimmed input has between 2 and 100 characters, and
    there is at least one field to scan; no term is returned exactly when
    neither q nor search is given. *)
Theorem parseSearch_term_bounds (query : Query) (search : SearchSpec)
    (H : parseSearch query = Return search) :
  (forall t, term search = Some t ->
     (exists s, searchInput query = QStr s
                /\ t = Str.toLowerCase (Str.trim s)
                /\ (2 <= String.length (Str.trim s) <= 100)%nat)
     /\ Str.toLowerCase t = t
     /\ fields search <> [])
  /\ (term search = None <->
      QVal.truthy (q_q query) = false /\ QVal.truthy (q_search query) = false).
Proof.
  unfold parseSearch in H.
  destruct (QVal.truthy (q_q query) || QVal.truthy (q_search query)) eqn:Et.
  - destruct (searchInput query) as [|s|l]; try discriminate H.
    destruct (_ <? 2) eqn:E2 in H; [discriminate H|].
    destruct (_ >? 100) eqn:E100 in H; [discriminate H|].
    apply Z.ltb_ge in E2. rewrite Z.gtb_ltb in E100. apply Z.ltb_ge in E100.
    unfold Syntax.slen in E2, E100.
    assert (Hfields : forall f, (if String.eqb f EmptyString
                                 then ["name"; "description"]
                                 else Str.split "," f) <> []).
    { intros f. destruct (String.eqb f EmptyString); [discriminate|].
      apply split_from_nonempty. }
    assert (Hres : term search = Some (Str.toLowerCase (Str.trim s))
                   /\ fields search <> []).
    { destruct (q_fields query) as [|f|fl]; try discriminate H;
        injection H as <-; cbn [term fields]; split; try reflexivity.
      - discriminate.
      - apply Hfields. }
    destruct Hres as [Hterm Hf]. split.
    + intros t Ht. rewrite Hterm in Ht. injection Ht as <-.
      split; [exists s; split; [reflexivity|split; [reflexivity|lia]]|].
      split; [apply toLowerCase_idempotent|exact Hf].
    + rewrite Hterm. split; [discriminate|].
      intros [Hq Hs]. rewrite Hq, Hs in Et. discriminate Et.
  - injection H as <-. cbn [term]. split; [discriminate|].
    apply orb_false_iff in Et. tauto.
Qed.

Lemma parseSearch_term_bounds_witness :
  exists s, QStr "  Gaming " = QStr s
            /\ "gaming" = Str.toLowerCase (Str.trim s)
            /\ (2 <= String.length (Str.trim s) <= 100)%nat.
Proof.
  pose proof (parseSearch_term_bounds
                {| q_page := QUndefined; q_limit := QUndefined;
                   q_category := QUndefined; q_minPrice := QUndefined;
                   q_maxPrice := QUndefined; q_inStock := QUndefined;
                   q_q := QStr "  Gaming "; q_search := QUndefined;
                   q_fields := QUndefined; q_sortBy := QUndefined;
                   q_sortOrder := QUndefined |}
                {| term := Some "gaming"; fields := ["name"; "description"] |}
                eq_refl) as [H _].
  exact (proj1 (H "gaming" eq_refl)).
Defined.

End ParserResults.

(** ** Filtering, sorting and paging *)

Section Transformations.

Import QueryProcessor Transform Inputs.

(** The callback of [applyFilters], in words. *)
Lemma passesFilters_iff (filters : FilterSet) (p : Product) :
  passesFilters filters p = true <->
  (forall cats, f_category filters = Some cats -> In (category p) cats)
  /\ (forall pf lo, f_price filters = Some pf -> price_min pf = Some lo ->
        Num.truthy lo = true -> Num.ltb (Fin (price p)) lo = false)
  /\ (forall pf hi, f_price filters = Some pf -> price_max pf = Some hi ->
        Num.truthy hi = true -> Num.ltb hi (Fin (price p)) = false)
  /\ (forall b, f_inStock filters = Some b -> inStock p = b).
Proof.
  unfold passesFilters.
  destruct filters as [fc fp fi]; cbn [f_category f_price f_inStock].
  split.
  - intros H.
    destruct fc as [cats|].
    + destruct (includes cats (category p)) eqn:Ec; cbn [negb] in H;
        [|discriminate H].
      destruct (match fp with Some _ => _ | None => false end) eqn:Ep;
        [discriminate H|].
      destruct (match fi with Some _ => _ | None => false end) eqn:Ei;
        [discriminate H|].
      split; [|split; [|split]].
      * intros c [= <-]. unfold includes in Ec.
        apply List.existsb_exists in Ec as [x [Hx Ex]].
        apply String.eqb_eq in Ex. now subst.
      * intros pf lo [= ->] Hlo T. apply orb_false_iff in Ep as [Ep _].
        rewrite Hlo in Ep. cbn in Ep. rewrite T in Ep. exact Ep.
      * intros pf hi [= ->] Hhi T. apply orb_false_iff in Ep as [_ Ep].
        rewrite Hhi in Ep. cbn in Ep. rewrite T in Ep. exact Ep.
      * intros b [= ->]. apply negb_false_iff in Ei.
        now apply Bool.eqb_prop in Ei.
    + destruct (match fp with Some _ => _ | None => false end) eqn:Ep;
        [discriminate H|].
      destruct (match fi with Some _ => _ | None => false end) eqn:Ei;
        [discriminate H|].
      split; [|split; [|split]].
      * intros c [=].
      * intros pf lo [= ->] Hlo T. apply orb_false_iff in Ep as [Ep _].
        rewrite Hlo in Ep. cbn in Ep. rewrite T in Ep. exact Ep.
      * intros pf hi [= ->] Hhi T. apply orb_false_iff in Ep as [_ Ep].
        rewrite Hhi in Ep. cbn in Ep. rewrite T in Ep. exact Ep.
      * intros b [= ->]. apply negb_false_iff in Ei.
        now apply Bool.eqb_prop in Ei.
  - intros (Hc & Hlo & Hhi & Hs).
    assert (Ec : match fc with
                 | Some cats => negb (includes cats (category p))
                 | None => false
                 end = false).
    { destruct fc as [cats|]; [|reflexivity]. apply negb_false_iff.
      unfold includes. apply List.existsb_exists. exists (category p).
      split; [now apply Hc|apply String.eqb_refl]. }
    assert (Ep : match fp with
                 | Some pf =>
                     (bound_truthy (price_min pf) &&
                      bound_gtb (price_min pf) (Some (Fin (price p))))
                     || (bound_truthy (price_max pf) &&
                         bound_gtb (Some (Fin (price p))) (price_max pf))
                 | None => false
                 end = false).
    { destruct fp as [pf|]; [|reflexivity]. apply orb_false_iff. split.
      - destruct (price_min pf) as [lo|] eqn:E; [|reflexivity]. cbn.
        destruct (Num.truthy lo) eqn:T; [|reflexivity].
        now apply (Hlo pf lo).
      - destruct (price_max pf) as [hi|] eqn:E; [|reflexivity]. cbn.
        destruct (Num.truthy hi) eqn:T; [|reflexivity].
        now apply (Hhi pf hi). }
    assert (Ei : match fi with
                 | Some b => negb (Bool.eqb (inStock p) b)
                 | None => false
                 end = false).
    { destruct fi as [b|]; [|reflexivity]. apply negb_false_iff.
      rewrite (Hs b eq_refl). apply Bool.eqb_reflx. }
    now rewrite Ec, Ep, Ei.
Qed.

(** X5. [applyFilters] keeps exactly the products that pass every filter
    that is set: the category is one of the given ones, the price is not
    below a minimum and not above a maximum (a bound that is 0 is not
    applied), and the stock status is the given one. Without filters the
    sequence is returned as it is, and filtering twice changes nothing. *)
Theorem applyFilters_spec (products : list Product) (filters : FilterSet) :
  (forall p : Product,
      In p (applyFilters products filters) <->
      In p products
      /\ (forall cats, f_category filters = Some cats -> In (category p) cats)
      /\ (forall pf lo, f_price filters = Some pf -> price_min pf = Some lo ->
            Num.truthy lo = true -> Num.ltb (Fin (price p)) lo = false)
      /\ (forall pf hi, f_price filters = Some pf -> price_max pf = Some hi ->
            Num.truthy hi = true -> Num.ltb hi (Fin (price p)) = false)
      /\ (forall b, f_inStock filters = Some b -> inStock p = b))
  /\ applyFilters products noFilters = products
  /\ applyFilters (applyFilters products filters) filters
     = applyFilters products filters.
Proof.
  unfold applyFilters. split; [|split].
  - intros p. rewrite List.filter_In, passesFilters_iff. reflexivity.
  - induction products as [|p l IH]; [reflexivity|]. cbn. now rewrite IH.
  - induction products as [|p l IH]; [reflexivity|]. cbn.
    destruct (passesFilters filters p) eqn:E; [|exact IH].
    cbn. now rewrite E, IH.
Qed.

(** A sequence that is in order is left as it is by the sort. *)
Lemma Array_sort_fixed {A : Type} (cmp : A -> A -> Z) (l : list A) :
  StronglySorted (fun a b => cmp a b <= 0) l -> Array_sort cmp l = l.
Proof.
  induction 1 as [|x l Hl IH Hx]; [reflexivity|]. cbn. rewrite IH.
  destruct l as [|y l']; [reflexivity|]. cbn.
  apply List.Forall_inv in Hx.
  destruct (cmp x y >? 0) eqn:E; [|reflexivity].
  rewrite Z.gtb_ltb in E. apply Z.ltb_lt in E. lia.
Qed.

(** X6. Sorting is idempotent: sorting a sequence that [applySorting] has
    sorted, by the same field and order, returns it unchanged. *)
Theorem sorted_idempotent (products : list Product) (sort : SortSpec) :
  sorted (sorted products sort) sort = sorted products sort.
Proof.
  unfold sorted at 1. apply Array_sort_fixed.
  apply (Array_sort_sorted (compareProducts sort)).
  - apply compareProducts_antisym.
  - apply compareProducts_trans.
Qed.

Lemma firstn_plus {A : Type} (a b : nat) (l : list A) :
  List.firstn (a + b) l = (List.firstn a l ++ List.firstn b (List.skipn a l))%list.
Proof.
  revert l. induction a as [|a IH]; intros l; [reflexivity|].
  destruct l as [|x l]; cbn.
  - now rewrite List.firstn_nil.
  - now rewrite IH.
Qed.

Lemma chunks_concat {A : Type} (m k : nat) (l : list A) :
  List.concat (List.map (fun i => List.firstn m (List.skipn (i * m) l))
                        (List.seq 0 k))
  = List.firstn (k * m) l.
Proof.
  induction k as [|k IH]; [reflexivity|].
  rewrite List.seq_S, List.map_app, List.concat_app, IH. cbn.
  rewrite List.app_nil_r.
  replace (m + k * m)%nat with (k * m + m)%nat by lia.
  now rewrite firstn_plus.
Qed.

(** X7. The pages partition the sequence: for a limit of at least 1, the
    pages 1 to k put one after the other are the whole sequence, in order,
    as soon as k is the number of pages reported (or more). *)
Theorem pages_cover_sequence (products : list Product) (l : Z) (k : nat)
    (Hl : 1 <= l)
    (Hk : Z.of_nat (List.length products) <= Z.of_nat k * l) :
  List.concat (pagesUpTo products l k) = products
  /\ exists t, totalPages (pageInfo products (pageOf 1 l)) = Num.of_Z t
               /\ Z.of_nat (List.length products) <= t * l
               /\ (t <= Z.of_nat k).
Proof.
  split.
  - unfold pagesUpTo.
    rewrite (List.map_ext _
               (fun i => List.firstn (Z.to_nat l)
                           (List.skipn (i * Z.to_nat l) products))).
    + rewrite chunks_concat. apply List.firstn_all2. nia.
    + intros i. unfold applyPagination, pageOf. cbn [fst skip limit].
      rewrite slice_drop_take by nia. do 2 f_equal. nia.
  - destruct (ceil_div_bounds (Z.of_nat (List.length products)) l ltac:(lia))
      as [t [E B]].
    exists t. split; [exact E|]. split; [lia|]. nia.
Qed.

Lemma pages_cover_sequence_witness :
  List.concat (pagesUpTo [Samples.lamp; Samples.pan; Samples.coat] 2 2)
  = [Samples.lamp; Samples.pan; Samples.coat].
Proof.
  exact (proj1 (pages_cover_sequence
                  [Samples.lamp; Samples.pan; Samples.coat] 2 2
                  ltac:(lia) ltac:(cbn; lia))).
Defined.

End Transformations.

(** ** The listing handler and its middleware *)

Section Listing.

Import Mem Ref.

(** X8. In the answer of [GET /api/products] the count reported with the
    search term (resultsFound) and the count in the message are the number
    of items on the returned page, at most the limit; the number of all
    matching products is the totalItems of the pagination. *)
Theorem listProducts_counts (st : store) (products : nat) (P : list Product)
    (req : Request)
    (H : arrays st !! products = Some P)
    (Hskip : 0 <= skip (req_pagination req))
    (Hlimit : 0 <= limit (req_pagination req)) :
  exists (resp : ListResponse) (st' : store),
    listProducts products req st = Some (resp, st')
    /\ (forall m, meta_search resp = Some m ->
          resultsFound m = Z.of_nat (List.length (data resp)))
    /\ message resp = "Retrieved " ++ Syntax.digits
                                        (Z.of_nat (List.length (data resp)))
                       ++ " product(s) successfully"
    /\ Z.of_nat (List.length (data resp)) <= limit (req_pagination req)
    /\ Transform.totalItems (meta_pagination resp)
       = Z.of_nat (List.length
                     (Transform.applyFilters
                        (Transform.applySearch P (req_search req))
                        (req_filters req))).
Proof.
  destruct (listProducts_run st products P req H)
    as (resp & st' & Hrun & Hresp & _ & _).
  exists resp, st'. split; [exact Hrun|]. subst resp.
  unfold buildListResponse.
  cbn [meta_search data message meta_pagination].
  split; [|split; [reflexivity|split]].
  - intros m Hm. destruct (Transform.term_set (req_search req));
      [|discriminate Hm]. injection Hm as <-. reflexivity.
  - unfold Transform.applyPagination. cbn [fst].
    rewrite slice_drop_take by lia. rewrite List.length_firstn. lia.
  - unfold Transform.applyPagination, Transform.pageInfo.
    cbn [snd Transform.totalItems]. f_equal.
    symmetry. apply Permutation_length. apply Array_sort_perm.
Qed.

Lemma listProducts_counts_witness :
  exists (resp : ListResponse) (st' : store),
    listProducts 0 Samples.request Samples.shop = Some (resp, st')
    /\ Z.of_nat (List.length (data resp)) <= 2.
Proof.
  assert (H0 : arrays Samples.shop !! 0%nat
               = Some [Samples.lamp; Samples.pan; Samples.coat])
    by reflexivity.
  destruct (listProducts_counts Samples.shop 0%nat _ Samples.request H0
              ltac:(cbn; lia) ltac:(cbn; lia))
    as (resp & st' & Hrun & _ & _ & Hle & _).
  exists resp, st'. split; [exact Hrun|exact Hle].
Defined.

(** X9. [validateProductQuery] lets a request through exactly when the four
    parsers return, and then leaves their four results on the request.
    Otherwise it passes on a validation error with status 400 and code
    VALIDATION_ERROR for the field "query", whose only detail is the
    message thrown by the first parser that fails, in the order
    pagination, filters, search, sorting. *)
Theorem validateProductQuery_spec (env : Errors.Env) (query : Query) :
  (forall req : Request,
      validateProductQuery env query = inl req <->
      QueryProcessor.parsePagination query = Return (req_pagination req)
      /\ QueryProcessor.parseFilters query = Return (req_filters req)
      /\ QueryProcessor.parseSearch query = Return (req_search req)
      /\ QueryProcessor.parseSorting query = Return (req_sort req))
  /\ (forall e : Errors.CustomError,
        validateProductQuery env query = inr e ->
        Errors.statusCode e = Val.int 400
        /\ Errors.errorCode e = VStr "VALIDATION_ERROR"
        /\ Errors.isOperational e = true
        /\ exists m : string,
            Errors.class e = Errors.Validation [m] (Some "query")
            /\ Errors.message e = "Query validation error: " ++ m
            /\ (QueryProcessor.parsePagination query = Throw m
                \/ (throws (QueryProcessor.parsePagination query) = false
                    /\ QueryProcessor.parseFilters query = Throw m)
                \/ (throws (QueryProcessor.parsePagination query) = false
                    /\ throws (QueryProcessor.parseFilters query) = false
                    /\ QueryProcessor.parseSearch query = Throw m)
                \/ (throws (QueryProcessor.parsePagination query) = false
                    /\ throws (QueryProcessor.parseFilters query) = false
                    /\ throws (QueryProcessor.parseSearch query) = false
                    /\ QueryProcessor.parseSorting query = Throw m))).
Proof.
  unfold validateProductQuery. split.
  - intros [pg fl se so]; cbn [req_pagination req_filters req_search req_sort].
    destruct (QueryProcessor.parsePagination query) as [pg'|m1];
      [|split; [discriminate|intros [E _]; discriminate E]].
    destruct (QueryProcessor.parseFilters query) as [fl'|m2];
      [|split; [discriminate|intros (_ & E & _); discriminate E]].
    destruct (QueryProcessor.parseSearch query) as [se'|m3];
      [|split; [discriminate|intros (_ & _ & E & _); discriminate E]].
    destruct (QueryProcessor.parseSorting query) as [so'|m4];
      [|split; [discriminate|intros (_ & _ & _ & E); discriminate E]].
    split.
    + intros [= -> -> -> ->]. auto.
    + intros ([= ->] & [= ->] & [= ->] & [= ->]). reflexivity.
  - intros e He.
    destruct (QueryProcessor.parsePagination query) as [pg'|m1].
    + destruct (QueryProcessor.parseFilters query) as [fl'|m2].
      * destruct (QueryProcessor.parseSearch query) as [se'|m3].
        -- destruct (QueryProcessor.parseSorting query) as [so'|m4];
             [discriminate He|].
           injection He as <-. do 3 (split; [reflexivity|]). exists m4.
           split; [reflexivity|]. split; [reflexivity|]. right; right; right.
           auto.
        -- injection He as <-. do 3 (split; [reflexivity|]). exists m3.
           split; [reflexivity|]. split; [reflexivity|]. right; right; left.
           auto.
      * injection He as <-. do 3 (split; [reflexivity|]). exists m2.
        split; [reflexivity|]. split; [reflexivity|]. right; left. auto.
    + injection He as <-. do 3 (split; [reflexivity|]). exists m1.
      split; [reflexivity|]. split; [reflexivity|]. now left.
Qed.

End Listing.

(** ** Statistics by category: what the entries hold *)

Section CategoryEntries.

Import StatsCalculator Grouping.

Lemma dedupe_snoc (l : list string) (x : string) :
  dedupe (l ++ [x]) =
    if List.existsb (String.eqb x) (dedupe l) then dedupe l
    else (dedupe l ++ [x])%list.
Proof. unfold dedupe. now rewrite List.fold_left_app. Qed.

Lemma existsb_eqb_In (x : string) (l : list string) :
  List.existsb (String.eqb x) l = true <-> In x l.
Proof.
  rewrite List.existsb_exists. split.
  - intros [y [Hy E]]. apply String.eqb_eq in E. now subst.
  - intros H. exists x. split; [exact H|apply String.eqb_refl].
Qed.

(** [dedupe] keeps every element once. *)
Lemma dedupe_spec (l : list string) :
  NoDup (dedupe l) /\ forall x, In x (dedupe l) <-> In x l.
Proof.
  induction l as [|x l IH] using List.rev_ind.
  - split; [constructor|reflexivity].
  - destruct IH as [Hnd Hin]. rewrite dedupe_snoc.
    destruct (List.existsb (String.eqb x) (dedupe l)) eqn:E.
    + apply existsb_eqb_In in E. split; [exact Hnd|].
      intros y. rewrite List.in_app_iff, Hin. cbn. split; [tauto|].
      intros [H|[<-|[]]]; [exact H|now apply Hin].
    + split.
      * apply List.NoDup_app; [exact Hnd| |].
        -- constructor; [intros []|constructor].
        -- intros y Hy [<-|[]]. apply existsb_eqb_In in Hy. congruence.
      * intros y. rewrite !List.in_app_iff, Hin. reflexivity.
Qed.

Lemma members_snoc (k : string) (l : list Product) (p : Product) :
  members k (l ++ [p]) =
    if String.eqb (category p) k then (members k l ++ [p])%list
    else members k l.
Proof.
  unfold members. rewrite List.filter_app. cbn.
  destruct (String.eqb (category p) k); [reflexivity|apply List.app_nil_r].
Qed.

Lemma summary_snoc (k : string) (l : list Product) (p : Product) :
  summary k (l ++ [p]) =
    if String.eqb (category p) k then accumulate (summary k l) p
    else summary k l.
Proof.
  unfold summary. rewrite members_snoc.
  destruct (String.eqb (category p) k); [|reflexivity].
  now rewrite List.fold_left_app.
Qed.

Lemma members_nil_notin (k : string) (l : list Product) :
  ~ In k (List.map category l) -> members k l = [].
Proof.
  intros H. unfold members. induction l as [|p l IH]; [reflexivity|]. cbn.
  destruct (String.eqb (category p) k) eqn:E.
  - apply String.eqb_eq in E. exfalso. apply H. left. exact E.
  - apply IH. intros C. apply H. now right.
Qed.

(** The table of the categories [keys] for the products [seen]. *)
Lemma upsert_table (keys : list string) (seen : list Product) (p : Product) :
  NoDup keys ->
  upsert (category p) (fun s => accumulate s p)
         (List.map (fun k => (k, summary k seen)) keys)
  = if List.existsb (String.eqb (category p)) keys
    then List.map (fun k => (k, summary k (seen ++ [p]))) keys
    else (List.map (fun k => (k, summary k (seen ++ [p]))) keys
          ++ [(category p, accumulate emptyStats p)])%list.
Proof.
  induction 1 as [|k keys Hk Hnd IH]; [reflexivity|].
  cbn [List.map upsert List.existsb]. rewrite summary_snoc.
  rewrite (String.eqb_sym (category p) k).
  destruct (String.eqb k (category p)) eqn:E.
  - apply String.eqb_eq in E. subst k. cbn [orb]. f_equal.
    apply List.map_ext_in. intros k' Hk'. rewrite summary_snoc.
    destruct (String.eqb (category p) k') eqn:E'; [|reflexivity].
    apply String.eqb_eq in E'. subst k'. contradiction.
  - cbn [orb]. rewrite IH.
    destruct (List.existsb (String.eqb (category p)) keys); reflexivity.
Qed.

(** The first pass groups the products by category, the categories in the
    order in which they first occur. *)
Lemma first_pass_groups (products : list Product) :
  List.fold_left step products []
  = List.map (fun k => (k, summary k products))
             (dedupe (List.map category products)).
Proof.
  induction products as [|p l IH] using List.rev_ind; [reflexivity|].
  rewrite List.fold_left_app, IH. cbn [List.fold_left]. unfold step.
  rewrite upsert_table by apply dedupe_spec.
  rewrite List.map_app. cbn [List.map]. rewrite dedupe_snoc.
  destruct (List.existsb (String.eqb (category p))
              (dedupe (List.map category l))) eqn:E; [reflexivity|].
  rewrite List.map_app. cbn [List.map]. f_equal. f_equal. f_equal.
  rewrite summary_snoc, String.eqb_refl. f_equal.
  unfold summary. rewrite members_nil_notin; [reflexivity|].
  intros C. apply dedupe_spec in C. apply existsb_eqb_In in C. congruence.
Qed.

(** What the accumulation of a list of products holds. *)
Lemma accumulated_counts (l : list Product) (s0 : CategoryStats) :
  let s := List.fold_left accumulate l s0 in
  count s = count s0 + Z.of_nat (List.length l)
  /\ cs_inStock s
     = cs_inStock s0 + Z.of_nat (List.length (List.filter inStock l))
  /\ outOfStock s
     = outOfStock s0
       + Z.of_nat (List.length (List.filter (fun p => negb (inStock p)) l))
  /\ StatsCalculator.products s
     = (StatsCalculator.products s0
        ++ List.map (fun p => {| ps_id := id p; ps_name := name p;
                                 ps_price := price p;
                                 ps_inStock := inStock p |}) l)%list
  /\ minPrice s
     = List.fold_left (fun m p => Num.min m (Fin (price p))) l (minPrice s0)
  /\ maxPrice s
     = List.fold_left (fun m p => Num.max m (Fin (price p))) l (maxPrice s0).
Proof.
  revert s0. induction l as [|p l IH]; intros s0; cbn zeta.
  - cbn. rewrite List.app_nil_r. repeat split; lia.
  - cbn [List.fold_left]. specialize (IH (accumulate s0 p)). cbn zeta in IH.
    destruct IH as (H1 & H2 & H3 & H4 & H5 & H6).
    rewrite H1, H2, H3, H4, H5, H6.
    cbn [accumulate count cs_inStock outOfStock StatsCalculator.products
         minPrice maxPrice List.length List.filter List.map].
    destruct (inStock p); cbn [negb List.length];
      rewrite <- ?List.app_assoc; cbn [app]; repeat split; lia.
Qed.

Lemma filter_split_length {A : Type} (f : A -> bool) (l : list A) :
  (List.length (List.filter f l)
   + List.length (List.filter (fun x => negb (f x)) l))%nat = List.length l.
Proof.
  induction l as [|x l IH]; [reflexivity|]. cbn.
  destruct (f x); cbn; lia.
Qed.

(** X10. The statistics by category have one entry per category that
    occurs among the products, in the order of first occurrence. The entry
    of a category counts its products: count is their number, inStock and
    outOfStock split it, and the embedded summaries are those of its
    products in their order. *)
Theorem calculateCategoryStats_entries (products : list Product) :
  let stats := calculateCategoryStats products in
  List.map fst stats = dedupe (List.map category products)
  /\ NoDup (List.map fst stats)
  /\ (forall k, In k (List.map fst stats)
                <-> exists p, In p products /\ category p = k)
  /\ forall k s, In (k, s) stats ->
       count s = Z.of_nat (List.length (members k products))
       /\ 1 <= count s
       /\ cs_inStock s
          = Z.of_nat (List.length (List.filter inStock (members k products)))
       /\ cs_inStock s + outOfStock s = count s
       /\ StatsCalculator.products s
          = List.map (fun p => {| ps_id := id p; ps_name := name p;
                                  ps_price := price p;
                                  ps_inStock := inStock p |})
                     (members k products).
Proof.
  cbv zeta. unfold calculateCategoryStats. rewrite first_pass_groups.
  rewrite !List.map_map. cbn [fst].
  assert (Hkeys : List.map (fun k : string => k)
                    (dedupe (List.map category products))
                  = dedupe (List.map category products))
    by apply List.map_id.
  rewrite Hkeys.
  destruct (dedupe_spec (List.map category products)) as [Hnd Hin].
  split; [reflexivity|]. split; [exact Hnd|]. split.
  - intros k. rewrite Hin, List.in_map_iff. split.
    + intros [p [E Hp]]. now exists p.
    + intros [p [Hp E]]. now exists p.
  - intros k s Hs. apply List.in_map_iff in Hs as [k' [E Hk']].
    injection E as -> <-.
    pose proof (accumulated_counts (members k products) emptyStats) as Hacc.
    cbv zeta in Hacc. fold (summary k products) in Hacc.
    destruct Hacc as (H1 & H2 & H3 & H4 & _).
    cbn [finalize count cs_inStock outOfStock StatsCalculator.products].
    rewrite H1, H2, H3, H4. cbn [emptyStats count cs_inStock outOfStock
      StatsCalculator.products app].
    pose proof (filter_split_length inStock (members k products)) as Hsplit.
    assert (Hne : members k products <> []).
    { apply Hin in Hk'. apply List.in_map_iff in Hk' as [p [E Hp]].
      intros C. assert (Hm : In p (members k products)).
      { unfold members. apply List.filter_In. split; [exact Hp|].
        rewrite E. apply String.eqb_refl. }
      rewrite C in Hm. destruct Hm. }
    destruct (members k products) as [|m ms] eqn:Em; [contradiction|].
    rewrite <- Em in *.
    repeat split; try reflexivity; try lia.
    rewrite Em. cbn [List.length]. lia.
Qed.

End CategoryEntries.

Section CategoryTotals.

Import StatsCalculator Grouping.

Lemma totalCount_upsert (t : StatsTable) (p : Product) :
  totalCount (step t p) = totalCount t + 1.
Proof.
  unfold step, totalCount.
  induction t as [|[k s] t IH];
    cbn [upsert List.fold_right snd count accumulate emptyStats]; [lia|].
  destruct (String.eqb k (category p));
    cbn [List.fold_right snd count accumulate]; lia.
Qed.

Lemma totalCount_fold (products : list Product) (t : StatsTable) :
  totalCount (List.fold_left step products t)
  = totalCount t + Z.of_nat (List.length products).
Proof.
  revert t. induction products as [|p l IH]; intros t; cbn [List.fold_left].
  - cbn. lia.
  - rewrite IH, totalCount_upsert. cbn [List.length]. lia.
Qed.

(** X11. The counts of the categories add up to the number of products:
    every product is counted in exactly one entry. *)
Theorem calculateCategoryStats_total (products : list Product) :
  totalCount (calculateCategoryStats products)
  = Z.of_nat (List.length products).
Proof.
  unfold calculateCategoryStats.
  assert (Hfin : forall t : StatsTable,
             totalCount (List.map (fun '(k, s) => (k, finalize s)) t)
             = totalCount t).
  { induction t as [|[k s] t IH]; [reflexivity|]. unfold totalCount in *.
    cbn [List.map List.fold_right snd]. now rewrite IH. }
  rewrite Hfin, totalCount_fold. reflexivity.
Qed.

(** The order of numbers that are not NaN. *)
Lemma num_ltb_asym (a b : number) : Num.ltb a b = true -> Num.ltb b a = false.
Proof.
  destruct a as [| |x|], b as [| |y|]; cbn; try easy. apply dec_ltb_asym.
Qed.

Lemma num_ltb_negtrans (a b c : number) :
  Num.isNaN b = false ->
  Num.ltb a c = true -> Num.ltb a b = true \/ Num.ltb b c = true.
Proof.
  destruct a as [| |x|], b as [| |y|], c as [| |z|]; cbn; try easy;
    try (intros; now left); try (intros; now right).
  intros _. apply dec_ltb_negtrans.
Qed.

(** [le a b]: [a] is not above [b]. *)
Lemma num_le_trans (a b c : number) :
  Num.isNaN b = false ->
  Num.ltb b a = false -> Num.ltb c b = false -> Num.ltb c a = false.
Proof.
  intros Hb H1 H2. apply not_true_is_false. intros H.
  destruct (num_ltb_negtrans c b a Hb H) as [E|E]; congruence.
Qed.

Lemma num_ltb_irrefl (a : number) : Num.ltb a a = false.
Proof.
  destruct (Num.ltb a a) eqn:E; [|reflexivity].
  pose proof (num_ltb_asym _ _ E). congruence.
Qed.

Ltac order_step :=
  first [ reflexivity | assumption | apply num_ltb_irrefl
        | now apply num_ltb_asym | now left | now right ].

(** One step of the running minimum. *)
Lemma min_step (m0 : number) (d : decimal) :
  Num.isNaN m0 = false ->
  Num.isNaN (Num.min m0 (Fin d)) = false
  /\ (Num.min m0 (Fin d) = m0 \/ Num.min m0 (Fin d) = Fin d)
  /\ Num.ltb m0 (Num.min m0 (Fin d)) = false
  /\ Num.ltb (Fin d) (Num.min m0 (Fin d)) = false.
Proof.
  intros Hm0. destruct m0 as [| |x|]; try discriminate Hm0; unfold Num.min.
  - change (Num.ltb (Fin d) NegInfinity) with false.
    cbv iota. repeat split; order_step.
  - destruct (Num.ltb (Fin d) (Fin x)) eqn:E; repeat split; order_step.
  - change (Num.ltb (Fin d) Infinity) with true.
    cbv iota. repeat split; order_step.
Qed.

Lemma max_step (m0 : number) (d : decimal) :
  Num.isNaN m0 = false ->
  Num.isNaN (Num.max m0 (Fin d)) = false
  /\ (Num.max m0 (Fin d) = m0 \/ Num.max m0 (Fin d) = Fin d)
  /\ Num.ltb (Num.max m0 (Fin d)) m0 = false
  /\ Num.ltb (Num.max m0 (Fin d)) (Fin d) = false.
Proof.
  intros Hm0. destruct m0 as [| |x|]; try discriminate Hm0; unfold Num.max.
  - change (Num.ltb NegInfinity (Fin d)) with true.
    cbv iota. repeat split; order_step.
  - destruct (Num.ltb (Fin x) (Fin d)) eqn:E; repeat split; order_step.
  - change (Num.ltb Infinity (Fin d)) with false.
    cbv iota. repeat split; order_step.
Qed.

(** The running minimum: it is the start or one of the prices, it is not
    above the start, and no price is below it. *)
Lemma running_min (l : list Product) (m0 : number) :
  Num.isNaN m0 = false ->
  let r := List.fold_left (fun m p => Num.min m (Fin (price p))) l m0 in
  Num.isNaN r = false
  /\ (r = m0 \/ exists p, In p l /\ r = Fin (price p))
  /\ Num.ltb m0 r = false
  /\ forall p, In p l -> Num.ltb (Fin (price p)) r = false.
Proof.
  revert m0. induction l as [|p l IH]; intros m0 Hm0; cbv zeta.
  - cbn [List.fold_left]. split; [exact Hm0|]. split; [now left|].
    split; [apply num_ltb_irrefl|intros p []].
  - cbn [List.fold_left].
    destruct (min_step m0 (price p) Hm0) as (N1 & C1 & L1 & P1).
    specialize (IH _ N1). cbv zeta in IH.
    destruct IH as (N2 & C2 & L2 & P2).
    split; [exact N2|]. split; [|split].
    + destruct C2 as [->|[q [Hq ->]]].
      * destruct C1 as [-> | ->]; [now left|].
        right; exists p; split; [now left|reflexivity].
      * right. exists q. split; [now right|reflexivity].
    + apply (num_le_trans _ (Num.min m0 (Fin (price p)))); assumption.
    + intros q [E|Hq]; [subst q|now apply P2].
      apply (num_le_trans _ (Num.min m0 (Fin (price p)))); assumption.
Qed.

(** The running maximum, likewise. *)
Lemma running_max (l : list Product) (m0 : number) :
  Num.isNaN m0 = false ->
  let r := List.fold_left (fun m p => Num.max m (Fin (price p))) l m0 in
  Num.isNaN r = false
  /\ (r = m0 \/ exists p, In p l /\ r = Fin (price p))
  /\ Num.ltb r m0 = false
  /\ forall p, In p l -> Num.ltb r (Fin (price p)) = false.
Proof.
  revert m0. induction l as [|p l IH]; intros m0 Hm0; cbv zeta.
  - cbn [List.fold_left]. split; [exact Hm0|]. split; [now left|].
    split; [apply num_ltb_irrefl|intros p []].
  - cbn [List.fold_left].
    destruct (max_step m0 (price p) Hm0) as (N1 & C1 & L1 & P1).
    specialize (IH _ N1). cbv zeta in IH.
    destruct IH as (N2 & C2 & L2 & P2).
    split; [exact N2|]. split; [|split].
    + destruct C2 as [->|[q [Hq ->]]].
      * destruct C1 as [-> | ->]; [now left|].
        right; exists p; split; [now left|reflexivity].
      * right. exists q. split; [now right|reflexivity].
    + apply (num_le_trans _ (Num.max m0 (Fin (price p)))); assumption.
    + intros q [E|Hq]; [subst q|now apply P2].
      apply (num_le_trans _ (Num.max m0 (Fin (price p)))); assumption.
Qed.

(** X12. In the entry of a category, minPrice is the price of one of its
    products and no product of the category is cheaper; maxPrice is the
    price of one of its products and none is dearer. *)
Theorem calculateCategoryStats_extremes (products : list Product)
    (k : string) (s : CategoryStats)
    (H : In (k, s) (calculateCategoryStats products)) :
  (exists p, In p (members k products) /\ minPrice s = Fin (price p))
  /\ (forall p, In p products -> category p = k ->
        Num.ltb (Fin (price p)) (minPrice s) = false)
  /\ (exists p, In p (members k products) /\ maxPrice s = Fin (price p))
  /\ (forall p, In p products -> category p = k ->
        Num.ltb (maxPrice s) (Fin (price p)) = false)
  /\ Num.ltb (maxPrice s) (minPrice s) = false.
Proof.
  unfold calculateCategoryStats in H. rewrite first_pass_groups in H.
  rewrite List.map_map in H. apply List.in_map_iff in H as [k' [E Hk']].
  injection E as -> <-.
  pose proof (accumulated_counts (members k products) emptyStats) as Hacc.
  cbv zeta in Hacc. fold (summary k products) in Hacc.
  destruct Hacc as (_ & _ & _ & _ & Hmin & Hmax).
  cbn [emptyStats minPrice maxPrice] in Hmin, Hmax.
  pose proof (running_min (members k products) Infinity eq_refl) as Rmin.
  pose proof (running_max (members k products) NegInfinity eq_refl) as Rmax.
  cbv zeta in Rmin, Rmax. rewrite <- Hmin in Rmin. rewrite <- Hmax in Rmax.
  destruct Rmin as (_ & Cmin & _ & Pmin).
  destruct Rmax as (_ & Cmax & _ & Pmax).
  assert (Hmem : forall p, In p products -> category p = k ->
                   In p (members k products)).
  { intros p Hp Hc. unfold members. apply List.filter_In.
    split; [exact Hp|]. rewrite Hc. apply String.eqb_refl. }
  assert (Hne : exists p, In p (members k products)).
  { apply (proj2 (dedupe_spec (List.map category products))) in Hk'.
    apply List.in_map_iff in Hk' as [p [Ec Hp]].
    exists p. now apply Hmem. }
  assert (Amin : exists p, In p (members k products)
                           /\ minPrice (summary k products) = Fin (price p)).
  { destruct Cmin as [E|Hex]; [|exact Hex].
    destruct Hne as [p Hp]. specialize (Pmin p Hp). rewrite E in Pmin.
    discriminate Pmin. }
  assert (Amax : exists p, In p (members k products)
                           /\ maxPrice (summary k products) = Fin (price p)).
  { destruct Cmax as [E|Hex]; [|exact Hex].
    destruct Hne as [p Hp]. specialize (Pmax p Hp). rewrite E in Pmax.
    discriminate Pmax. }
  destruct Amin as [pm [Hpm Emin]]. destruct Amax as [px [Hpx Emax]].
  cbn [finalize minPrice maxPrice]. rewrite Emin, Emax.
  rewrite Emin in Pmin. rewrite Emax in Pmax.
  split; [now exists pm|]. split; [intros p Hp Hc; now apply Pmin, Hmem|].
  split; [now exists px|]. split; [intros p Hp Hc; now apply Pmax, Hmem|].
  apply (num_le_trans _ (Fin (price pm))); [reflexivity| |].
  - apply num_ltb_irrefl.
  - now apply Pmax.
Qed.

Lemma calculateCategoryStats_extremes_witness :
  exists s, In ("other", s)
               (calculateCategoryStats
                  [Samples.lamp; Samples.priced "7" 12; Samples.pan])
            /\ Num.ltb (maxPrice s) (minPrice s) = false.
Proof.
  eexists. split; [left; reflexivity|].
  refine (proj2 (proj2 (proj2 (proj2
            (calculateCategoryStats_extremes
               [Samples.lamp; Samples.priced "7" 12; Samples.pan]
               "other" _ _))))).
  left. reflexivity.
Defined.

End CategoryTotals.

(** ** Severity, logging and the production rendering of errors *)

Section Severity.

Import Errors.

(** X13. A foreign error is always classified into an operational error
    with a truthy status, so whether it is logged depends on its severity
    alone. The names ValidationError and CastError, and a SyntaxError that
    mentions JSON, become validation errors with status 400, of medium
    severity and not logged; any other error without a status of its own
    becomes an internal error with status 500, of high severity and
    logged. *)
Theorem fromNativeError_classifies (env : Env) (n : NativeError) :
  let e := ErrorFactory.fromNativeError env (Foreign n) in
  ErrorUtils.isOperational (Instance e) = true
  /\ Val.truthy (statusCode e) = true
  /\ ErrorUtils.shouldLog (Instance e)
     = String.eqb (ErrorUtils.getSeverity (Instance e)) "high"
  /\ (n_name n = "ValidationError" \/ n_name n = "CastError"
      \/ (n_name n = "SyntaxError" /\ Str.includes (n_message n) "JSON" = true)
      -> statusCode e = Val.int 400
         /\ errorCode e = VStr "VALIDATION_ERROR"
         /\ ErrorUtils.getSeverity (Instance e) = "medium"
         /\ ErrorUtils.shouldLog (Instance e) = false)
  /\ (n_name n <> "ValidationError" -> n_name n <> "CastError"
      -> (n_name n = "SyntaxError" -> Str.includes (n_message n) "JSON" = false)
      -> Val.truthy (n_statusCode n) = false
      -> statusCode e = Val.int 500
         /\ class e = Base
         /\ errorCode e = or_else (n_code n) (VStr "INTERNAL_ERROR")
         /\ ErrorUtils.getSeverity (Instance e) = "high"
         /\ ErrorUtils.shouldLog (Instance e) = true).
Proof.
  cbv zeta. unfold ErrorFactory.fromNativeError.
  destruct (String.eqb (n_name n) "ValidationError") eqn:E1.
  { apply String.eqb_eq in E1.
    split; [reflexivity|]. split; [reflexivity|]. split; [reflexivity|].
    split; [intros _; repeat split|]. intros C. now destruct C. }
  destruct (String.eqb (n_name n) "CastError") eqn:E2.
  { apply String.eqb_eq in E2.
    split; [reflexivity|]. split; [reflexivity|]. split; [reflexivity|].
    split; [intros _; repeat split|]. intros _ C. now destruct C. }
  apply String.eqb_neq in E1, E2.
  assert (Hwrap :
    ErrorUtils.isOperational (Instance (ErrorFactory.wrap env n)) = true
    /\ Val.truthy (statusCode (ErrorFactory.wrap env n)) = true
    /\ ErrorUtils.shouldLog (Instance (ErrorFactory.wrap env n))
       = String.eqb (ErrorUtils.getSeverity (Instance (ErrorFactory.wrap env n)))
           "high"
    /\ (Val.truthy (n_statusCode n) = false ->
        statusCode (ErrorFactory.wrap env n) = Val.int 500
        /\ class (ErrorFactory.wrap env n) = Base
        /\ errorCode (ErrorFactory.wrap env n)
           = or_else (n_code n) (VStr "INTERNAL_ERROR")
        /\ ErrorUtils.getSeverity (Instance (ErrorFactory.wrap env n)) = "high"
        /\ ErrorUtils.shouldLog (Instance (ErrorFactory.wrap env n)) = true)).
  { unfold ErrorFactory.wrap, newCustomError, construct, or_else,
      ErrorUtils.shouldLog, ErrorUtils.isOperational.
    cbn [statusCode isOperational class errorCode].
    split; [reflexivity|]. split.
    - destruct (Val.truthy (n_statusCode n)) eqn:T; [exact T|reflexivity].
    - split; [now rewrite orb_false_r|].
      intros T. rewrite T. repeat split. }
  destruct Hwrap as (W1 & W2 & W3 & W4).
  destruct (String.eqb (n_name n) "SyntaxError") eqn:E3.
  - apply String.eqb_eq in E3.
    destruct (Str.includes (n_message n) "JSON") eqn:EJ.
    + split; [reflexivity|]. split; [reflexivity|]. split; [reflexivity|].
      split; [intros _; repeat split|].
      intros _ _ C. specialize (C E3). discriminate C.
    + split; [exact W1|]. split; [exact W2|]. split; [exact W3|]. split.
      * intros [C|[C|[_ C]]]; [contradiction|contradiction|discriminate C].
      * intros _ _ _. exact W4.
  - apply String.eqb_neq in E3.
    split; [exact W1|]. split; [exact W2|]. split; [exact W3|]. split.
    + intros [C|[C|[C _]]]; contradiction.
    + intros _ _ _. exact W4.
Qed.

Lemma fromNativeError_classifies_witness :
  statusCode (ErrorFactory.fromNativeError More.env
                (Foreign {| n_name := "CastError"; n_message := "bad id";
                            n_statusCode := VUndefined;
                            n_code := VUndefined |}))
  = Val.int 400.
Proof.
  exact (proj1 (proj1 (proj2 (proj2 (proj2
           (fromNativeError_classifies More.env
              {| n_name := "CastError"; n_message := "bad id";
                 n_statusCode := VUndefined; n_code := VUndefined |}))))
           (or_intror (or_introl eq_refl)))).
Defined.

(** The errors built by the four specific classes are of medium
    severity and are not logged; an internal error with the default status
    500 is of high severity and logged, and so is anything that is not an
    instance of the classes. *)
Lemma taxonomy_severity (env : Env) (m r : string) (d : list string)
    (f p q : option string) (n : NativeError) :
  let medium e :=
    ErrorUtils.getSeverity (Instance e) = "medium"
    /\ ErrorUtils.shouldLog (Instance e) = false in
  medium (newValidationError env m d f)
  /\ medium (newAuthenticationError env m r)
  /\ medium (newAuthorizationError env m p q)
  /\ medium (newNotFoundError env r f)
  /\ ErrorUtils.getSeverity
       (Instance (newCustomError env m (Val.int 500) (VStr "INTERNAL_ERROR")))
     = "high"
  /\ ErrorUtils.shouldLog
       (Instance (newCustomError env m (Val.int 500) (VStr "INTERNAL_ERROR")))
     = true
  /\ ErrorUtils.getSeverity (Foreign n) = "high"
  /\ ErrorUtils.shouldLog (Foreign n) = true.
Proof. cbv zeta. repeat split. Qed.

(** X15. For an instance of the classes, [sanitizeForProduction] gives
    the rendering that [toJSON] gives outside development: whatever the
    mode, the result has neither stack nor name and keeps all the other
    properties. For anything else it gives an error object with status
    500, not a rendering. *)
Theorem sanitizeForProduction_spec (env : Env) (e : CustomError)
    (n : NativeError) :
  ErrorUtils.sanitizeForProduction env (Instance e)
    = inl (toJSON {| now := now env; stackTrace := stackTrace env;
                     development := false |} e)
  /\ (forall o, ErrorUtils.sanitizeForProduction env (Instance e) = inl o ->
        get o "stack" = None /\ get o "name" = None
        /\ get o "message" = Some (VStr (message e))
        /\ get o "statusCode" = Some (statusCode e))
  /\ ErrorUtils.sanitizeForProduction env (Foreign n)
     = inr (newCustomError env "Internal server error" (Val.int 500)
              (VStr "INTERNAL_ERROR")).
Proof.
  assert (Heq : ErrorUtils.sanitizeForProduction env (Instance e)
                = inl (toJSON {| now := now env; stackTrace := stackTrace env;
                                 development := false |} e)).
  { unfold ErrorUtils.sanitizeForProduction, toJSON, baseJSON, set_if.
    cbn [development].
    destruct e as [c m sc ec op ts st];
      cbn [class message statusCode errorCode timestamp stack].
    destruct c as [|d f|r|p q|r i]; destruct (development env);
      try destruct (present f); try destruct (present p);
      try destruct (present q); try destruct (present i); reflexivity. }
  split; [exact Heq|]. split; [|reflexivity].
  intros o Ho. rewrite Heq in Ho. injection Ho as <-.
  unfold toJSON, baseJSON, set_if. cbn [development].
  destruct e as [c m sc ec op ts st];
    cbn [class message statusCode errorCode timestamp stack].
  destruct c as [|d f|r|p q|r i];
    try destruct (present f); try destruct (present p);
    try destruct (present q); try destruct (present i); repeat split.
Qed.

End Severity.

(** ** Authentication and permissions *)

Section Authentication.

Import Errors Auth.

Lemma includes_In (l : list string) (s : string) :
  QueryProcessor.includes l s = true <-> In s l.
Proof. unfold QueryProcessor.includes. apply existsb_eqb_In. Qed.

(** Off the open paths: the request passes with the user of a valid key,
    or an authentication error is passed on. *)
Lemma authenticateApiKey_cases (env : Env) (req : Req) :
  path req <> "/" -> path req <> "/docs" ->
  match authenticateApiKey env req with
  | inl req' =>
      exists k, suppliedKey req = Some k /\ In k validApiKeys
                /\ user req' = Some (userOf k) /\ path req' = path req
  | inr e =>
      statusCode e = Val.int 401
      /\ errorCode e = VStr "AUTHENTICATION_ERROR"
      /\ ((present (suppliedKey req) = false
           /\ class e = Authentication "MISSING_API_KEY")
          \/ (exists k, suppliedKey req = Some k /\ ~ In k validApiKeys
                        /\ class e = Authentication "INVALID_API_KEY"))
  end.
Proof.
  unfold authenticateApiKey. intros H1 H2.
  apply String.eqb_neq in H1, H2. rewrite H1, H2. cbn [orb].
  destruct (present (suppliedKey req)) eqn:Ep; cbn [negb].
  - destruct (suppliedKey req) as [k|] eqn:Ek; [|discriminate Ep].
    cbn [text].
    destruct (QueryProcessor.includes validApiKeys k) eqn:Ei; cbn [negb].
    + exists k. apply includes_In in Ei. auto.
    + do 2 (split; [reflexivity|]). right. exists k.
      split; [reflexivity|]. split; [|reflexivity].
      intros C. apply includes_In in C. congruence.
  - do 2 (split; [reflexivity|]). left. auto.
Qed.

(** X16. On the paths "/" and "/docs" the request passes untouched. On any
    other path [authenticateApiKey] lets a request through exactly when the
    key it supplies (the X-API-Key header, or Authorization when that one
    is missing or empty) is one of the three valid keys, and sets the user
    of that key; otherwise it passes on an authentication error with
    status 401, whose reason is MISSING_API_KEY when no key is supplied
    and INVALID_API_KEY when the key is not a valid one. *)
Theorem authenticateApiKey_spec (env : Env) (req : Req) :
  (path req = "/" \/ path req = "/docs" ->
   authenticateApiKey env req = inl req)
  /\ (path req <> "/" -> path req <> "/docs" ->
      match authenticateApiKey env req with
      | inl req' =>
          exists k, suppliedKey req = Some k /\ In k validApiKeys
                    /\ user req' = Some (userOf k) /\ path req' = path req
      | inr e =>
          statusCode e = Val.int 401
          /\ errorCode e = VStr "AUTHENTICATION_ERROR"
          /\ ((present (suppliedKey req) = false
               /\ class e = Authentication "MISSING_API_KEY")
              \/ (exists k, suppliedKey req = Some k /\ ~ In k validApiKeys
                            /\ class e = Authentication "INVALID_API_KEY"))
      end).
Proof.
  split.
  - unfold authenticateApiKey. intros [-> | ->]; reflexivity.
  - apply authenticateApiKey_cases.
Qed.

Lemma authenticateApiKey_spec_witness :
  authenticateApiKey More.env
    {| path := "/docs"; xApiKey := None; authorization := None; user := None |}
  = inl {| path := "/docs"; xApiKey := None; authorization := None;
           user := None |}.
Proof.
  exact (proj1 (authenticateApiKey_spec More.env
                  {| path := "/docs"; xApiKey := None; authorization := None;
                     user := None |}) (or_intror eq_refl)).
Defined.

(** The chain of authentication and a required permission. *)
Lemma permission_chain (env : Env) (req : Req)
    (H1 : path req <> "/") (H2 : path req <> "/docs") :
  let auth p := Chain.andThen (authenticateApiKey env)
                              (requirePermission p env) req in
  ((exists req', auth "delete" = inl req')
   <-> suppliedKey req = Some "admin-key-abcdef")
  /\ ((exists req', auth "write" = inl req')
      <-> exists req', authenticateApiKey env req = inl req')
  /\ (forall req' e,
        authenticateApiKey env req = inl req' ->
        auth "delete" = inr e ->
        statusCode e = Val.int 403
        /\ errorCode e = VStr "AUTHORIZATION_ERROR"
        /\ class e = Authorization (Some "delete") None).
Proof.
  cbv zeta. unfold Chain.andThen.
  pose proof (authenticateApiKey_cases env req H1 H2) as Hauth.
  destruct (authenticateApiKey env req) as [req'|e] eqn:Ea.
  - destruct Hauth as (k & Hk & Hin & Hu & _).
    unfold requirePermission. rewrite Hu.
    cbn in Hin.
    destruct Hin as [<-|[<-|[<-|[]]]]; cbn; rewrite Hk.
    + split; [|split].
      * split; [intros [r C]; discriminate C|discriminate].
      * split; intros _; eexists; reflexivity.
      * intros r e _ [= <-]. repeat split.
    + split; [|split].
      * split; [intros [r C]; discriminate C|discriminate].
      * split; intros _; eexists; reflexivity.
      * intros r e _ [= <-]. repeat split.
    + split; [|split].
      * split; [reflexivity|intros _; eexists; reflexivity].
      * split; intros _; eexists; reflexivity.
      * intros r e _ C. discriminate C.
  - destruct Hauth as (_ & _ & Hcase). split; [|split].
    + split; [intros [r C]; discriminate C|].
      intros Hk. exfalso. destruct Hcase as [[Hp _]|[k [Hk' [Hn _]]]].
      * rewrite Hk in Hp. discriminate Hp.
      * rewrite Hk in Hk'. injection Hk' as <-. apply Hn. cbn. tauto.
    + split; intros [r C]; discriminate C.
    + intros r e' C. discriminate C.
Qed.

(** X17. Among the valid keys only the admin key gives the role admin and
    the permission to delete: the two other keys give the role user, and
    every valid key may read and write. So, after authentication on a path
    other than "/" and "/docs", [requirePermission('delete')] and
    [requireRole('admin')] let through exactly the requests that supply
    the admin key, and [requirePermission('read')] and
    [requirePermission('write')] every authenticated request; a refusal
    is an authorization error with status 403 that names the
    permission. *)
Theorem delete_needs_admin_key (env : Env) (req : Req)
    (H1 : path req <> "/") (H2 : path req <> "/docs") :
  let auth p := Chain.andThen (authenticateApiKey env)
                              (requirePermission p env) req in
  ((exists req', auth "delete" = inl req')
   <-> suppliedKey req = Some "admin-key-abcdef")
  /\ ((exists req', auth "write" = inl req')
      <-> exists req', authenticateApiKey env req = inl req')
  /\ (forall req' e,
        authenticateApiKey env req = inl req' ->
        auth "delete" = inr e ->
        statusCode e = Val.int 403
        /\ errorCode e = VStr "AUTHORIZATION_ERROR"
        /\ class e = Authorization (Some "delete") None)
  /\ ((exists req', auth "read" = inl req')
      <-> exists req', authenticateApiKey env req = inl req')
  /\ ((exists req', Chain.andThen (authenticateApiKey env)
                      (requireRole "admin" env) req = inl req')
      <-> suppliedKey req = Some "admin-key-abcdef")
  /\ (forall req', authenticateApiKey env req = inl req' ->
        exists k, suppliedKey req = Some k /\ In k validApiKeys
                  /\ user req' = Some (userOf k))
  /\ (forall k, In k validApiKeys ->
        apiKey (userOf k) = k
        /\ (k = "admin-key-abcdef" ->
            role (userOf k) = "admin"
            /\ permissions (userOf k) = ["read"; "write"; "delete"])
        /\ (k <> "admin-key-abcdef" ->
            role (userOf k) = "user"
            /\ permissions (userOf k) = ["read"; "write"])).
Proof.
  destruct (permission_chain env req H1 H2) as (P1 & P2 & P3).
  cbv zeta. split; [exact P1|]. split; [exact P2|]. split; [exact P3|].
  pose proof (authenticateApiKey_cases env req H1 H2) as Hauth.
  assert (Hkeys : forall k, In k validApiKeys ->
            apiKey (userOf k) = k
            /\ (k = "admin-key-abcdef" ->
                role (userOf k) = "admin"
                /\ permissions (userOf k) = ["read"; "write"; "delete"])
            /\ (k <> "admin-key-abcdef" ->
                role (userOf k) = "user"
                /\ permissions (userOf k) = ["read"; "write"])).
  { intros k Hin. cbn in Hin.
    destruct Hin as [<-|[<-|[<-|[]]]];
      (split; [reflexivity|split; [intros E|intros N]]);
      try discriminate E; try (now destruct N); split; reflexivity. }
  unfold Chain.andThen.
  destruct (authenticateApiKey env req) as [req'|e] eqn:Ea.
  - destruct Hauth as (k & Hk & Hin & Hu & _).
    split; [|split; [|split; [|exact Hkeys]]].
    + unfold requirePermission. rewrite Hu.
      cbn in Hin. destruct Hin as [<-|[<-|[<-|[]]]]; cbn;
        split; intros _; eexists; reflexivity.
    + unfold requireRole. rewrite Hu, Hk.
      cbn in Hin. destruct Hin as [<-|[<-|[<-|[]]]]; cbn.
      * split; [intros [r C]; discriminate C|discriminate].
      * split; [intros [r C]; discriminate C|discriminate].
      * split; [reflexivity|intros _; eexists; reflexivity].
    + intros r [= <-]. exists k. auto.
  - destruct Hauth as (_ & _ & Hcase).
    split; [|split; [|split; [|exact Hkeys]]].
    + split; intros [r C]; discriminate C.
    + split; [intros [r C]; discriminate C|].
      intros Hk. exfalso. destruct Hcase as [[Hp _]|[k [Hk' [Hn _]]]].
      * rewrite Hk in Hp. discriminate Hp.
      * rewrite Hk in Hk'. injection Hk' as <-. apply Hn. cbn. tauto.
    + intros r C. discriminate C.
Qed.

Lemma delete_needs_admin_key_witness :
  exists req',
    Chain.andThen (authenticateApiKey More.env)
      (requirePermission "delete" More.env)
      {| path := "/api/products/1"; xApiKey := Some "admin-key-abcdef";
         authorization := None; user := None |} = inl req'.
Proof.
  apply (proj2 (proj1 (delete_needs_admin_key More.env
                         {| path := "/api/products/1";
                            xApiKey := Some "admin-key-abcdef";
                            authorization := None; user := None |}
                         ltac:(discriminate) ltac:(discriminate)))).
  reflexivity.
Defined.

End Authentication.

(** ** Product identifiers and the handlers of single products *)

Section SingleProducts.

Import Mem Catalogue IdValidation.

Lemma matchesAll_length (classes : list (ascii -> bool)) (s : string) :
  matchesAll classes s = true -> String.length s = List.length classes.
Proof.
  revert s. induction classes as [|f cs IH]; intros [|c s]; cbn;
    try discriminate; [reflexivity|].
  intros H. apply andb_true_iff in H as [_ H]. now rewrite (IH s H).
Qed.

Lemma matchesAll_app (l1 l2 : list (ascii -> bool)) (s : string) :
  matchesAll (l1 ++ l2) s = true <->
  exists s1 s2, s = s1 ++ s2 /\ matchesAll l1 s1 = true
                /\ matchesAll l2 s2 = true.
Proof.
  revert s. induction l1 as [|f l1 IH]; intros s; cbn [app].
  - split.
    + intros H. exists EmptyString, s. now repeat split.
    + intros ([|c s1] & s2 & -> & H1 & H2); [exact H2|discriminate H1].
  - destruct s as [|c s]; cbn [matchesAll].
    + split; [discriminate|].
      intros ([|c s1] & s2 & E & H1 & _); [|discriminate E].
      cbn in H1. destruct l1; discriminate H1.
    + rewrite andb_true_iff, IH. split.
      * intros (Hf & s1 & s2 & -> & H1 & H2).
        exists (String c s1), s2. cbn [matchesAll]. rewrite Hf, H1.
        now repeat split.
      * intros ([|c' s1] & s2 & E & H1 & H2); [discriminate H1|].
        cbn in E. injection E as <- ->. cbn [matchesAll] in H1.
        apply andb_true_iff in H1 as [Hf H1].
        split; [exact Hf|]. now exists s1, s2.
Qed.

Lemma matchesAll_repeat (f : ascii -> bool) (n : nat) (s : string) :
  matchesAll (List.repeat f n) s = true <->
  String.length s = n
  /\ List.forallb f (list_ascii_of_string s) = true.
Proof.
  revert s. induction n as [|n IH]; intros [|c s]; cbn;
    try (split; [discriminate|intros [C _]; discriminate C]).
  - now split.
  - rewrite andb_true_iff, IH. split.
    + intros (Hf & Hl & Ha). rewrite Hl, Hf, Ha. now split.
    + intros (Hl & Ha). injection Hl as Hl.
      apply andb_true_iff in Ha. tauto.
Qed.

Lemma matchesAll_one (f : ascii -> bool) (s : string) :
  matchesAll [f] s = true <-> exists c, s = String c EmptyString /\ f c = true.
Proof.
  destruct s as [|c [|c' s]]; cbn.
  - split; [discriminate|]. intros (c & E & _). discriminate E.
  - rewrite andb_true_r. split.
    + intros H. now exists c.
    + intros (c' & [= <-] & H). exact H.
  - rewrite andb_false_r. split; [discriminate|].
    intros (c0 & E & _). discriminate E.
Qed.

Lemma isHex_among (c : ascii) : isHex c = among hexDigits c.
Proof. destruct c as [[] [] [] [] [] [] [] []]; reflexivity. Qed.

Lemma isVersion_among (c : ascii) :
  isVersion c = among (list_ascii_of_string "12345") c.
Proof. destruct c as [[] [] [] [] [] [] [] []]; reflexivity. Qed.

Lemma isVariant_among (c : ascii) :
  isVariant c = among (list_ascii_of_string "89abAB") c.
Proof. destruct c as [[] [] [] [] [] [] [] []]; reflexivity. Qed.

Lemma hexGroup_matches (n : nat) (s : string) :
  matchesAll (List.repeat isHex n) s = true <-> hexGroup n s.
Proof.
  rewrite matchesAll_repeat. unfold hexGroup.
  assert (E : forall l, List.forallb isHex l
                        = List.forallb (among hexDigits) l).
  { induction l as [|c l IH]; [reflexivity|].
    cbn [List.forallb]. now rewrite isHex_among, IH. }
  rewrite E. reflexivity.
Qed.

(** The regular expression accepts exactly the strings of the form of a
    UUID. *)
Lemma uuidRegex_form (s : string) : uuidRegex_test s = true <-> uuidForm s.
Proof.
  unfold uuidRegex_test, uuidPattern, uuidForm. split.
  - intros H.
    apply matchesAll_app in H as (a & s1 & -> & Ha & H).
    apply matchesAll_app in H as (x1 & s2 & -> & Hx1 & H).
    apply matchesAll_app in H as (b & s3 & -> & Hb & H).
    apply matchesAll_app in H as (x2 & s4 & -> & Hx2 & H).
    apply matchesAll_app in H as (v & s5 & -> & Hv & H).
    apply matchesAll_app in H as (c & s6 & -> & Hc & H).
    apply matchesAll_app in H as (x3 & s7 & -> & Hx3 & H).
    apply matchesAll_app in H as (r & s8 & -> & Hr & H).
    apply matchesAll_app in H as (d & s9 & -> & Hd & H).
    apply matchesAll_app in H as (x4 & e & -> & Hx4 & He).
    apply matchesAll_one in Hx1 as (y1 & -> & Hy1).
    apply matchesAll_one in Hx2 as (y2 & -> & Hy2).
    apply matchesAll_one in Hx3 as (y3 & -> & Hy3).
    apply matchesAll_one in Hx4 as (y4 & -> & Hy4).
    apply matchesAll_one in Hv as (v' & -> & Hv).
    apply matchesAll_one in Hr as (r' & -> & Hr).
    unfold isDash in Hy1, Hy2, Hy3, Hy4.
    apply Ascii.eqb_eq in Hy1, Hy2, Hy3, Hy4. subst y1 y2 y3 y4.
    rewrite isVersion_among in Hv. rewrite isVariant_among in Hr.
    apply hexGroup_matches in Ha, Hb, Hc, Hd, He.
    exists a, b, v', c, r', d, e. cbn [String.append].
    repeat (split; [first [reflexivity | assumption]|]). assumption.
  - intros (a & b & v & c & r & d & e & -> & Ha & Hb & Hc & Hd & He & Hv & Hr).
    apply hexGroup_matches in Ha, Hb, Hc, Hd, He.
    rewrite <- isVersion_among in Hv. rewrite <- isVariant_among in Hr.
    apply matchesAll_app. exists a. eexists. split; [reflexivity|].
    split; [exact Ha|].
    apply (matchesAll_app [isDash]). exists "-". eexists.
    split; [reflexivity|]. split; [reflexivity|].
    apply matchesAll_app. exists b. eexists. split; [reflexivity|].
    split; [exact Hb|].
    apply (matchesAll_app [isDash]). exists "-". eexists.
    split; [reflexivity|]. split; [reflexivity|].
    apply (matchesAll_app [isVersion]). exists (String v EmptyString).
    eexists. split; [reflexivity|]. split; [cbn; now rewrite Hv|].
    apply matchesAll_app. exists c. eexists. split; [reflexivity|].
    split; [exact Hc|].
    apply (matchesAll_app [isDash]). exists "-". eexists.
    split; [reflexivity|]. split; [reflexivity|].
    apply (matchesAll_app [isVariant]). exists (String r EmptyString).
    eexists. split; [reflexivity|]. split; [cbn; now rewrite Hr|].
    apply matchesAll_app. exists d. eexists. split; [reflexivity|].
    split; [exact Hd|].
    apply (matchesAll_app [isDash]). exists "-". eexists.
    split; [reflexivity|]. split; [reflexivity|exact He].
Qed.

(** A string that starts with a character other than white space is not
    blank. *)
Lemma trim_not_blank (c : ascii) (s : string) :
  Str.is_space c = false ->
  String.eqb (String c s) EmptyString
  || (Syntax.slen (Str.trim (String c s)) =? 0) = false.
Proof.
  intros Hc. cbn [String.eqb orb]. unfold Str.trim.
  cbn [Str.trimStart]. rewrite Hc. cbn [Str.trimEnd]. rewrite Hc.
  destruct (Str.trimEnd s); reflexivity.
Qed.

Lemma hex_not_space (c : ascii) : isHex c = true -> Str.is_space c = false.
Proof. destruct c as [[] [] [] [] [] [] [] []]; vm_compute; congruence. Qed.

Lemma uuid_not_blank (s : string) :
  uuidRegex_test s = true ->
  String.eqb s EmptyString || (Syntax.slen (Str.trim s) =? 0) = false.
Proof.
  destruct s as [|c s]; [discriminate|].
  unfold uuidRegex_test, uuidPattern. cbn [List.repeat app matchesAll].
  intros H. apply andb_true_iff in H as [H _].
  apply trim_not_blank, hex_not_space, H.
Qed.

(** X18. [validateProductId] lets through the identifiers "1", "2" and "3"
    and the strings in the form of a UUID (five groups of 8, 4, 4, 4 and
    12 hexadecimal digits separated by dashes, the third starting with 1
    to 5 and the fourth with 8, 9, a or b), which have 36 characters, and
    nothing else: any other identifier, such as "4" or "10", is answered
    by a validation error with status 400 for the field "id", before the
    handler is reached. *)
Theorem validateProductId_spec (env : Errors.Env) (productId : string) :
  (forall r, validateProductId env productId = inl r <->
     r = productId
     /\ (productId = "1" \/ productId = "2" \/ productId = "3"
         \/ uuidForm productId))
  /\ (uuidForm productId -> String.length productId = 36%nat)
  /\ (forall e, validateProductId env productId = inr e ->
        Errors.statusCode e = Val.int 400
        /\ Errors.errorCode e = VStr "VALIDATION_ERROR"
        /\ exists m d, Errors.class e = Errors.Validation [d] (Some "id")
                       /\ Errors.message e = m)
  /\ (productId = "1" \/ productId = "2" \/ productId = "3" ->
      validateProductId env productId = inl productId)
  /\ (uuidForm productId -> validateProductId env productId = inl productId)
  /\ (String.length productId <> 36%nat ->
      productId <> "1" -> productId <> "2" -> productId <> "3" ->
      exists e, validateProductId env productId = inr e).
Proof.
  assert (Hlen : uuidForm productId -> String.length productId = 36%nat).
  { intros H. apply uuidRegex_form in H. now apply matchesAll_length in H. }
  assert (Huuid : uuidForm productId ->
                  validateProductId env productId = inl productId).
  { intros H. apply uuidRegex_form in H. unfold validateProductId.
    rewrite (uuid_not_blank _ H), H. cbn. now rewrite !andb_false_r. }
  assert (Hlegacy : productId = "1" \/ productId = "2" \/ productId = "3" ->
                    validateProductId env productId = inl productId).
  { intros [-> | [-> | ->]]; reflexivity. }
  split; [|split; [exact Hlen|split; [|split; [exact Hlegacy|
            split; [exact Huuid|]]]]].
  - intros r. split.
    + unfold validateProductId. intros H.
      destruct (String.eqb productId EmptyString
                || (Syntax.slen (Str.trim productId) =? 0));
        [discriminate H|].
      destruct (String.eqb productId "1") eqn:E1;
        [apply String.eqb_eq in E1; injection H as <-; auto|].
      destruct (String.eqb productId "2") eqn:E2;
        [apply String.eqb_eq in E2; injection H as <-; auto|].
      destruct (String.eqb productId "3") eqn:E3;
        [apply String.eqb_eq in E3; injection H as <-; auto|].
      destruct (uuidRegex_test productId) eqn:Eu; cbn in H; [|discriminate H].
      injection H as <-. split; [reflexivity|]. do 3 right.
      now apply uuidRegex_form.
    + intros [-> [H|[H|[H|H]]]]; auto.
  - unfold validateProductId. intros e H.
    destruct (String.eqb productId EmptyString
              || (Syntax.slen (Str.trim productId) =? 0)).
    + injection H as <-. repeat split. eexists; eexists; split; reflexivity.
    + destruct (negb (String.eqb productId "1")
                && negb (String.eqb productId "2")
                && negb (String.eqb productId "3")
                && negb (uuidRegex_test productId)); [|discriminate H].
      injection H as <-. repeat split. eexists; eexists; split; reflexivity.
  - unfold validateProductId. intros Hl N1 N2 N3.
    destruct (String.eqb productId EmptyString
              || (Syntax.slen (Str.trim productId) =? 0));
      [eexists; reflexivity|].
    apply String.eqb_neq in N1, N2, N3. rewrite N1, N2, N3.
    destruct (uuidRegex_test productId) eqn:Eu.
    + apply matchesAll_length in Eu. contradiction.
    + eexists; reflexivity.
Qed.

Lemma validateProductId_spec_witness :
  validateProductId More.env "123e4567-e89b-42d3-A456-426614174000"
  = inl "123e4567-e89b-42d3-A456-426614174000"
  /\ exists e, validateProductId More.env "10" = inr e.
Proof.
  split.
  - apply (proj1 (proj2 (proj2 (proj2 (proj2
             (validateProductId_spec More.env
                "123e4567-e89b-42d3-A456-426614174000")))))).
    exists "123e4567", "e89b", "4"%char, "2d3", "A"%char, "456",
      "426614174000".
    repeat split.
  - apply (proj2 (proj2 (proj2 (proj2 (proj2
             (validateProductId_spec More.env "10"))))));
      cbn; discriminate.
Defined.


(** What [findIndex] finds: the first product with the identifier. *)
Lemma findIndex_Some (productId : string) (l : list Product) (i : nat) :
  findIndex productId l = Some i ->
  exists p, l !! i = Some p /\ id p = productId
            /\ findProduct productId l = Some p
            /\ ~ In productId (ids (List.firstn i l)).
Proof.
  revert i. induction l as [|q l IH]; intros i; cbn; [discriminate|].
  unfold findProduct. cbn [List.find].
  destruct (String.eqb (id q) productId) eqn:E.
  - intros [= <-]. exists q. apply String.eqb_eq in E.
    repeat split; auto.
  - destruct (findIndex productId l) as [j|] eqn:Ej; [|discriminate].
    intros [= <-]. destruct (IH j eq_refl) as (p & Hp & Hid & Hf & Hn).
    exists p. split; [exact Hp|]. split; [exact Hid|]. split; [exact Hf|].
    cbn. intros [C|C]; [|contradiction].
    apply String.eqb_neq in E. contradiction.
Qed.

Lemma findIndex_None (productId : string) (l : list Product) :
  findIndex productId l = None <-> ~ In productId (ids l).
Proof.
  induction l as [|q l IH]; cbn; [tauto|].
  destruct (String.eqb (id q) productId) eqn:E.
  - apply String.eqb_eq in E. split; [discriminate|]. intros C.
    exfalso. apply C. now left.
  - apply String.eqb_neq in E.
    destruct (findIndex productId l) as [j|].
    + split; [discriminate|]. intros C. exfalso.
      assert (Hn : ~ In productId (ids l)) by tauto.
      apply IH in Hn. discriminate Hn.
    + split; [|reflexivity]. intros _ [C|C]; [contradiction|].
      now apply (proj1 IH).
Qed.

Lemma findProduct_None (productId : string) (l : list Product) :
  findProduct productId l = None <-> ~ In productId (ids l).
Proof.
  unfold findProduct. induction l as [|q l IH]; cbn; [tauto|].
  destruct (String.eqb (id q) productId) eqn:E.
  - apply String.eqb_eq in E. split; [discriminate|]. intros C.
    exfalso. apply C. now left.
  - apply String.eqb_neq in E. rewrite IH. tauto.
Qed.

Lemma findProduct_Some (productId : string) (l : list Product) (p : Product) :
  findProduct productId l = Some p -> In p l /\ id p = productId.
Proof.
  unfold findProduct. intros H. apply List.find_some in H as [H1 H2].
  apply String.eqb_eq in H2. auto.
Qed.



End SingleProducts.

Section Mutations.

Import Mem Catalogue.

Lemma findProduct_app_new (productId : string) (l : list Product) (p : Product) :
  id p = productId -> ~ In productId (ids l) ->
  findProduct productId (l ++ [p]) = Some p.
Proof.
  intros Hid Hn. unfold findProduct. induction l as [|q l IH]; cbn.
  - now rewrite Hid, String.eqb_refl.
  - destruct (String.eqb (id q) productId) eqn:E.
    + apply String.eqb_eq in E. exfalso. apply Hn. now left.
    + apply IH. intros C. apply Hn. now right.
Qed.

Lemma findProduct_app_old (productId : string) (l k : list Product) :
  In productId (ids l) ->
  findProduct productId (l ++ k) = findProduct productId l.
Proof.
  unfold findProduct. induction l as [|q l IH]; cbn; [intros []|].
  destruct (String.eqb (id q) productId) eqn:E; [reflexivity|].
  intros [C|C]; [apply String.eqb_neq in E; contradiction|now apply IH].
Qed.

(** X20. [POST /api/products] appends the new product to the catalogue and
    changes nothing else: the product carries the given identifier and
    clock readings, its name and description trimmed, its category
    trimmed and in lower case, and the price and stock status of the
    body. Looking the identifier up afterwards returns the new product
    when no earlier product has that identifier; an earlier product with
    the same identifier would be returned instead. *)
Theorem createProduct_spec (env : Errors.Env) (st : store) (products : nat)
    (l : list Product) (body : NewProduct) (uuid t1 t2 : string)
    (H : arrays st !! products = Some l) :
  exists (p : Product) (st' : store),
    createProduct products body uuid t1 t2 st = Some (p, st')
    /\ arrays st' !! products = Some (l ++ [p])%list
    /\ (forall r, r <> products -> arrays st' !! r = arrays st !! r)
    /\ id p = uuid /\ createdAt p = t1 /\ updatedAt p = t2
    /\ name p = Str.trim (n_name body)
    /\ description p = Str.trim (n_description body)
    /\ category p = Str.toLowerCase (Str.trim (n_category body))
    /\ price p = n_price body /\ inStock p = n_inStock body
    /\ (~ In uuid (ids l) ->
        exists d, getProduct env products uuid st' = Some (inl d, st')
                  /\ pd_data d = p)
    /\ (In uuid (ids l) ->
        exists d, getProduct env products uuid st' = Some (inl d, st')
                  /\ In (pd_data d) l).
Proof.
  unfold createProduct, bind, read, write, ret. rewrite H.
  cbn [arrays]. rewrite H.
  eexists. eexists. split; [reflexivity|]. cbn [arrays].
  split; [apply lookup_insert_eq|].
  split; [intros r Hr; now apply lookup_insert_ne|].
  do 8 (split; [reflexivity|]).
  unfold getProduct, bind, read, ret. cbn [arrays].
  rewrite lookup_insert_eq. split.
  - intros Hn. rewrite findProduct_app_new by auto.
    eexists. split; reflexivity.
  - intros Hin. rewrite findProduct_app_old by exact Hin.
    destruct (findProduct uuid l) as [q|] eqn:Ef.
    + eexists. split; [reflexivity|]. cbn [details pd_data].
      now apply findProduct_Some in Ef.
    + apply findProduct_None in Ef. contradiction.
Qed.

Lemma createProduct_spec_witness :
  exists (p : Product) (st' : store),
    createProduct 0
      {| n_name := " Kettle "; n_description := " Steel kettle ";
         n_price := Dec 25 0; n_category := "Kitchen"; n_inStock := true |}
      "9" "t1" "t2" Samples.shop = Some (p, st')
    /\ name p = "Kettle" /\ description p = "Steel kettle"
    /\ category p = "kitchen".
Proof.
  assert (H0 : arrays Samples.shop !! 0%nat
               = Some [Samples.lamp; Samples.pan; Samples.coat])
    by reflexivity.
  destruct (createProduct_spec More.env Samples.shop 0%nat _
              {| n_name := " Kettle "; n_description := " Steel kettle ";
                 n_price := Dec 25 0; n_category := "Kitchen";
                 n_inStock := true |} "9" "t1" "t2" H0)
    as (p & st' & Hrun & _ & _ & _ & _ & _ & Hn & Hd & Hc & _).
  exists p, st'. split; [exact Hrun|]. split; [exact Hn|].
  split; [exact Hd|exact Hc].
Defined.

Lemma findIndex_lt (productId : string) (l : list Product) (i : nat) :
  findIndex productId l = Some i -> (i < List.length l)%nat.
Proof.
  intros H. destruct (findIndex_Some _ _ _ H) as (p & Hp & _).
  now apply lookup_lt_Some in Hp.
Qed.

Lemma findProduct_replaced (productId : string) (l : list Product) (i : nat)
    (u : Product) :
  findIndex productId l = Some i -> id u = productId ->
  findProduct productId (<[i := u]> l) = Some u.
Proof.
  revert i. induction l as [|q l IH]; intros i; cbn [findIndex];
    [discriminate|].
  destruct (String.eqb (id q) productId) eqn:E.
  - intros [= <-] Hu. unfold findProduct. cbn.
    now rewrite Hu, String.eqb_refl.
  - destruct (findIndex productId l) as [j|] eqn:Ej; [|discriminate].
    intros [= <-] Hu. unfold findProduct. cbn. rewrite E.
    now apply IH.
Qed.

(** X21. [PUT /api/products/:id] replaces the first product that has the
    identifier by that product with the provided fields changed and
    updatedAt set to the time of the request: each of name, description,
    price, category and stock status is the one of the body when the body
    provides it and the old one otherwise, the identifier and createdAt
    are kept, the catalogue keeps its length and all its other products,
    and a lookup afterwards returns the updated product. When no product
    has the identifier the answer is a NotFound error and the store is
    unchanged. *)
Theorem updateProduct_spec (env : Errors.Env) (st : store) (products : nat)
    (l : list Product) (productId : string) (body : Changes) (t : string)
    (H : arrays st !! products = Some l) :
  (~ In productId (ids l) ->
   exists e, updateProduct env products productId body t st
             = Some (inr e, st)
             /\ Errors.statusCode e = Val.int 404
             /\ Errors.class e = Errors.NotFound "Product" (Some productId))
  /\ (In productId (ids l) ->
      exists (i : nat) (old new : Product) (st' : store),
        findIndex productId l = Some i /\ l !! i = Some old
        /\ updateProduct env products productId body t st
           = Some (inl new, st')
        /\ arrays st' !! products = Some (<[i := new]> l)
        /\ id new = productId
        /\ name new = match c_name body with
                      | Some x => x
                      | None => name old
                      end
        /\ description new = match c_description body with
                             | Some x => x
                             | None => description old
                             end
        /\ price new = match c_price body with
                       | Some x => x
                       | None => price old
                       end
        /\ category new = match c_category body with
                          | Some x => x
                          | None => category old
                          end
        /\ inStock new = match c_inStock body with
                         | Some x => x
                         | None => inStock old
                         end
        /\ createdAt new = createdAt old
        /\ updatedAt new = t
        /\ List.length (<[i := new]> l) = List.length l
        /\ (forall j, j <> i -> <[i := new]> l !! j = l !! j)
        /\ exists d, getProduct env products productId st' = Some (inl d, st')
                     /\ pd_data d = new).
Proof.
  unfold updateProduct, bind, read, write, ret. rewrite H. split.
  - intros Hn. apply findIndex_None in Hn. rewrite Hn.
    eexists. repeat split.
  - intros Hin. destruct (findIndex productId l) as [i|] eqn:Ei.
    + destruct (findIndex_Some _ _ _ Ei) as (old & Hold & Hid & _ & _).
      rewrite Hold. cbn [arrays]. rewrite H.
      exists i, old, (merged old body t). eexists.
      split; [reflexivity|]. split; [exact Hold|].
      split; [reflexivity|]. cbn [arrays].
      split; [apply lookup_insert_eq|].
      split; [exact Hid|]. do 7 (split; [reflexivity|]).
      split; [apply length_insert|].
      split; [intros j Hj; now apply list_lookup_insert_ne|].
      unfold getProduct, bind, read, ret. cbn [arrays].
      rewrite lookup_insert_eq.
      rewrite (findProduct_replaced productId l i (merged old body t) Ei Hid).
      eexists. split; reflexivity.
    + apply findIndex_None in Ei. contradiction.
Qed.

Lemma updateProduct_spec_witness :
  (exists e, updateProduct More.env 0 "7"
               {| c_name := None; c_description := None; c_price := None;
                  c_category := None; c_inStock := Some false |}
               "t" Samples.shop = Some (inr e, Samples.shop))
  /\ (exists new st',
        updateProduct More.env 0 "2"
          {| c_name := Some "Wok"; c_description := None;
             c_price := Some (Dec 15 0); c_category := None;
             c_inStock := Some true |}
          "t" Samples.shop = Some (inl new, st')
        /\ name new = "Wok" /\ price new = Dec 15 0
        /\ category new = "kitchen" /\ inStock new = true
        /\ updatedAt new = "t").
Proof.
  assert (H0 : arrays Samples.shop !! 0%nat
               = Some [Samples.lamp; Samples.pan; Samples.coat])
    by reflexivity.
  split.
  - destruct (proj1 (updateProduct_spec More.env Samples.shop 0%nat _ "7"
                       {| c_name := None; c_description := None;
                          c_price := None; c_category := None;
                          c_inStock := Some false |} "t" H0))
      as (e & He & _).
    + cbn. intros [C|[C|[C|[]]]]; discriminate C.
    + now exists e.
  - destruct (proj2 (updateProduct_spec More.env Samples.shop 0%nat _ "2"
                       {| c_name := Some "Wok"; c_description := None;
                          c_price := Some (Dec 15 0); c_category := None;
                          c_inStock := Some true |} "t" H0))
      as (i & old & new & st' & Hi & Hold & Hrun & _ & _ & Hn & _ & Hp & Hc
          & Hs & _ & Ht & _).
    + cbn. right. left. reflexivity.
    + exists new, st'. split; [exact Hrun|].
      assert (Ei : i = 1%nat) by (cbn in Hi; congruence). subst i.
      assert (Eo : old = Samples.pan) by (cbn in Hold; congruence).
      subst old. cbn in Hn, Hp, Hc, Hs.
      split; [exact Hn|]. split; [exact Hp|]. split; [exact Hc|].
      split; [exact Hs|exact Ht].
Defined.

Lemma spliceOut_ids (productId : string) (l : list Product) (i : nat) :
  NoDup (ids l) -> findIndex productId l = Some i ->
  ~ In productId (ids (spliceOut i l)).
Proof.
  revert i. induction l as [|q l IH]; intros i Hnd; cbn [findIndex];
    [discriminate|].
  cbn in Hnd. apply NoDup_cons_iff in Hnd as [Hq Hnd].
  destruct (String.eqb (id q) productId) eqn:E.
  - intros [= <-]. apply String.eqb_eq in E. subst productId.
    unfold spliceOut. cbn. exact Hq.
  - destruct (findIndex productId l) as [j|] eqn:Ej; [|discriminate].
    intros [= <-]. unfold spliceOut. cbn.
    apply String.eqb_neq in E. intros [C|C]; [contradiction|].
    now apply (IH j Hnd eq_refl).
Qed.

Lemma spliceOut_length {A : Type} (i : nat) (l : list A) :
  (i < List.length l)%nat ->
  S (List.length (spliceOut i l)) = List.length l.
Proof.
  intros Hi. unfold spliceOut.
  rewrite List.length_app, List.length_firstn, List.length_skipn. lia.
Qed.

(** The deletion of a product that is there. *)
Lemma deleteProduct_found (env : Errors.Env) (st : store) (products : nat)
    (l : list Product) (productId : string) :
  arrays st !! products = Some l ->
  In productId (ids l) ->
  exists (i : nat) (gone : Product) (st' : store),
    findIndex productId l = Some i /\ l !! i = Some gone
    /\ id gone = productId
    /\ deleteProduct env products productId st = Some (inl gone, st')
    /\ arrays st' !! products
       = Some (List.firstn i l ++ List.skipn (S i) l)%list
    /\ S (List.length (List.firstn i l ++ List.skipn (S i) l))
       = List.length l
    /\ (forall r, r <> products -> arrays st' !! r = arrays st !! r)
    /\ (NoDup (ids l) ->
        exists e, getProduct env products productId st'
                  = Some (inr e, st')
                  /\ Errors.statusCode e = Val.int 404).
Proof.
  intros H Hin. unfold deleteProduct, bind, read, write, ret. rewrite H.
  destruct (findIndex productId l) as [i|] eqn:Ei.
  - destruct (findIndex_Some _ _ _ Ei) as (gone & Hg & Hid & _ & _).
    rewrite Hg. cbn [arrays]. rewrite H.
    exists i, gone. eexists. split; [reflexivity|]. split; [exact Hg|].
    split; [exact Hid|]. split; [reflexivity|]. cbn [arrays].
    split; [apply lookup_insert_eq|].
    split; [apply (spliceOut_length i l); now apply findIndex_lt with productId|].
    split; [intros r Hr; now apply lookup_insert_ne|].
    intros Hnd. unfold getProduct, bind, read, ret. cbn [arrays].
    rewrite lookup_insert_eq.
    pose proof (spliceOut_ids productId l i Hnd Ei) as Hgone.
    apply findProduct_None in Hgone. rewrite Hgone.
    eexists. repeat split.
  - apply findIndex_None in Ei. contradiction.
Qed.

(** X22. [DELETE /api/products/:id] removes the first product that has the
    identifier and returns it: the catalogue is one shorter, the products
    before and after it stay in their order. When the identifiers of the
    catalogue are distinct, a lookup afterwards answers NotFound. When no
    product has the identifier the answer is a NotFound error and the
    store is unchanged. *)
Theorem deleteProduct_spec (env : Errors.Env) (st : store) (products : nat)
    (l : list Product) (productId : string)
    (H : arrays st !! products = Some l) :
  (~ In productId (ids l) ->
   exists e, deleteProduct env products productId st = Some (inr e, st)
             /\ Errors.statusCode e = Val.int 404
             /\ Errors.class e = Errors.NotFound "Product" (Some productId))
  /\ (In productId (ids l) ->
      exists (i : nat) (gone : Product) (st' : store),
        findIndex productId l = Some i /\ l !! i = Some gone
        /\ id gone = productId
        /\ deleteProduct env products productId st = Some (inl gone, st')
        /\ arrays st' !! products
           = Some (List.firstn i l ++ List.skipn (S i) l)%list
        /\ S (List.length (List.firstn i l ++ List.skipn (S i) l))
           = List.length l
        /\ (forall r, r <> products -> arrays st' !! r = arrays st !! r)
        /\ (NoDup (ids l) ->
            exists e, getProduct env products productId st'
                      = Some (inr e, st')
                      /\ Errors.statusCode e = Val.int 404)).
Proof.
  split.
  - intros Hn. unfold deleteProduct, bind, read, write, ret. rewrite H.
    apply findIndex_None in Hn. rewrite Hn. eexists. repeat split.
  - now apply deleteProduct_found.
Qed.

Lemma deleteProduct_spec_witness :
  exists (gone : Product) (st' : store),
    deleteProduct More.env 0 "2" Samples.shop = Some (inl gone, st')
    /\ id gone = "2".
Proof.
  assert (H0 : arrays Samples.shop !! 0%nat
               = Some [Samples.lamp; Samples.pan; Samples.coat])
    by reflexivity.
  destruct (proj2 (deleteProduct_spec More.env Samples.shop 0%nat _ "2" H0))
    as (i & gone & st' & _ & _ & Hid & Hrun & _).
  - cbn. right. now left.
  - exists gone, st'. split; [exact Hrun|exact Hid].
Defined.

End Mutations.

Section DeleteRoute.

Import Mem Routes.

Lemma product_path_not_open (productId : string) :
  "/api/products/" ++ productId <> "/"
  /\ "/api/products/" ++ productId <> "/docs".
Proof. split; discriminate. Qed.

(** X23. On the route DELETE /api/products/:id a request that does not
    supply the admin key is answered by an error with status 401 or 403
    and the store is left unchanged; with the admin key, an identifier
    that passes validation and a catalogue that holds it, the product is
    removed. *)
Theorem deleteRoute_guarded (env : Errors.Env) (st : store) (products : nat)
    (l : list Product) (productId : string) (xApiKey authorization : option string)
    (H : arrays st !! products = Some l) :
  (Auth.suppliedKey (requestFor productId xApiKey authorization)
     <> Some "admin-key-abcdef" ->
   exists e, deleteRoute env products productId xApiKey authorization st
             = Some (inr e, st)
             /\ (Errors.statusCode e = Val.int 401
                 \/ Errors.statusCode e = Val.int 403))
  /\ (Auth.suppliedKey (requestFor productId xApiKey authorization)
        = Some "admin-key-abcdef" ->
      IdValidation.validateProductId env productId = inl productId ->
      In productId (Catalogue.ids l) ->
      exists (gone : Product) (st' : store),
        deleteRoute env products productId xApiKey authorization st
          = Some (inl gone, st')
        /\ id gone = productId
        /\ exists i, arrays st' !! products
                     = Some (List.firstn i l ++ List.skipn (S i) l)%list).
Proof.
  unfold deleteRoute.
  destruct (product_path_not_open productId) as [P1 P2].
  pose proof (permission_chain env
                (requestFor productId xApiKey authorization) P1 P2) as Hd.
  cbv zeta in Hd. destruct Hd as (Hiff & _ & Hdenied).
  pose proof (authenticateApiKey_cases env
                (requestFor productId xApiKey authorization) P1 P2)
    as Hauth.
  split.
  - intros Hkey.
    destruct (Chain.andThen (Auth.authenticateApiKey env)
                (Auth.requirePermission "delete" env)
                (requestFor productId xApiKey authorization)) as [r|e] eqn:Ec.
    + exfalso. apply Hkey. apply Hiff. now exists r.
    + exists e. split; [reflexivity|].
      unfold Chain.andThen in Ec.
      destruct (Auth.authenticateApiKey env
                  (requestFor productId xApiKey authorization))
        as [r|e'] eqn:Ea.
      * right. exact (proj1 (Hdenied r e eq_refl eq_refl)).
      * injection Ec as <-. left. exact (proj1 Hauth).
  - intros Hkey Hid Hin.
    destruct (proj2 Hiff Hkey) as [r Hr]. rewrite Hr, Hid.
    destruct (deleteProduct_found env st products l productId H Hin)
      as (i & gone & st' & _ & _ & Hg & Hrun & Harr & _).
    exists gone, st'. split; [exact Hrun|]. split; [exact Hg|].
    now exists i.
Qed.

Lemma deleteRoute_guarded_witness :
  exists e, deleteRoute More.env 0 "2" (Some "dev-key-12345") None Samples.shop
            = Some (inr e, Samples.shop).
Proof.
  assert (H0 : arrays Samples.shop !! 0%nat
               = Some [Samples.lamp; Samples.pan; Samples.coat])
    by reflexivity.
  destruct (proj1 (deleteRoute_guarded More.env Samples.shop 0%nat _ "2"
                     (Some "dev-key-12345") None H0))
    as (e & He & _).
  - cbn. discriminate.
  - now exists e.
Defined.

End DeleteRoute.

(** ** Overview, inventory, pricing and popular categories *)

Section MoreStatistics.

Import Stats Grouping.



(** Equal numbers compare alike. *)
Lemma dec_eqb_scale (a b : decimal) (e : Z) :
  e <= expo a -> e <= expo b ->
  Conv.num_eqb (Fin a) (Fin b) = true <->
  mant a * 10 ^ (expo a - e) = mant b * 10 ^ (expo b - e).
Proof.
  intros Ha Hb. unfold Conv.num_eqb, Num.scaled. rewrite Z.eqb_eq.
  set (m := Z.min (expo a) (expo b)).
  assert (Hm : e <= m) by (unfold m; lia).
  assert (Hma : m <= expo a) by (unfold m; lia).
  assert (Hmb : m <= expo b) by (unfold m; lia).
  replace (expo a - e) with ((expo a - m) + (m - e)) by lia.
  replace (expo b - e) with ((expo b - m) + (m - e)) by lia.
  rewrite !Z.pow_add_r by lia.
  pose proof (Z.pow_pos_nonneg 10 (m - e) ltac:(lia) ltac:(lia)) as Hpos.
  rewrite !Z.mul_assoc. split; intros H; [now rewrite H|].
  apply Z.mul_reg_r in H; [exact H|lia].
Qed.

Lemma dec_eqb_refl (a : decimal) : Conv.num_eqb (Fin a) (Fin a) = true.
Proof. apply (dec_eqb_scale a a (expo a)); lia. Qed.

Lemma dec_eqb_ltb_l (a b c : decimal) :
  Conv.num_eqb (Fin a) (Fin b) = true ->
  Num.dec_ltb a c = Num.dec_ltb b c.
Proof.
  intros H.
  set (e := Z.min (expo a) (Z.min (expo b) (expo c))).
  apply (dec_eqb_scale a b e) in H; try (unfold e; lia).
  destruct (Num.dec_ltb b c) eqn:E.
  - apply (dec_ltb_scale b c e) in E; try (unfold e; lia).
    apply (dec_ltb_scale a c e); try (unfold e; lia). lia.
  - apply not_true_is_false. intros C.
    apply (dec_ltb_scale a c e) in C; try (unfold e; lia).
    assert (C' : Num.dec_ltb b c = true).
    { apply (dec_ltb_scale b c e); try (unfold e; lia). lia. }
    congruence.
Qed.

Lemma dec_eqb_ltb_r (a b c : decimal) :
  Conv.num_eqb (Fin a) (Fin b) = true ->
  Num.dec_ltb c a = Num.dec_ltb c b.
Proof.
  intros H.
  set (e := Z.min (expo a) (Z.min (expo b) (expo c))).
  apply (dec_eqb_scale a b e) in H; try (unfold e; lia).
  destruct (Num.dec_ltb c b) eqn:E.
  - apply (dec_ltb_scale c b e) in E; try (unfold e; lia).
    apply (dec_ltb_scale c a e); try (unfold e; lia). lia.
  - apply not_true_is_false. intros C.
    apply (dec_ltb_scale c a e) in C; try (unfold e; lia).
    assert (C' : Num.dec_ltb c b = true).
    { apply (dec_ltb_scale c b e); try (unfold e; lia). lia. }
    congruence.
Qed.

Lemma countIn_balanced (p : Product) (t : list (string * CategoryInventory)) :
  Forall (fun e => ci_inStock (snd e) + ci_outOfStock (snd e)
                   = ci_total (snd e)) t ->
  Forall (fun e => ci_inStock (snd e) + ci_outOfStock (snd e)
                   = ci_total (snd e)) (countIn p t).
Proof.
  induction 1 as [|[k e] t He Ht IH]; cbn [countIn].
  - constructor; [|constructor]. cbn. destruct (inStock p); lia.
  - destruct (String.eqb k (category p)).
    + constructor; [|exact Ht]. cbn in *. destruct (inStock p); lia.
    + constructor; [exact He|exact IH].
Qed.

Lemma countIn_fold_balanced (products : list Product)
    (t : list (string * CategoryInventory)) :
  Forall (fun e => ci_inStock (snd e) + ci_outOfStock (snd e)
                   = ci_total (snd e)) t ->
  Forall (fun e => ci_inStock (snd e) + ci_outOfStock (snd e)
                   = ci_total (snd e))
    (List.fold_left (fun t p => countIn p t) products t).
Proof.
  revert t. induction products as [|p ps IH]; intros t Ht; cbn; [exact Ht|].
  apply IH. now apply countIn_balanced.
Qed.

(** The entry of a category: the numbers of its products in stock, out of
    stock, and in all. *)
Lemma counted_snoc (k : string) (seen : list Product) (p : Product) :
  String.eqb (category p) k = true ->
  counted
    {| ci_inStock :=
         Z.of_nat (List.length (List.filter inStock (members k seen)));
       ci_outOfStock :=
         Z.of_nat (List.length
                     (List.filter (fun q => negb (inStock q))
                        (members k seen)));
       ci_total := Z.of_nat (List.length (members k seen)) |} p
  = {| ci_inStock :=
         Z.of_nat (List.length
                     (List.filter inStock (members k (seen ++ [p]))));
       ci_outOfStock :=
         Z.of_nat (List.length
                     (List.filter (fun q => negb (inStock q))
                        (members k (seen ++ [p]))));
       ci_total := Z.of_nat (List.length (members k (seen ++ [p]))) |}.
Proof.
  intros E. rewrite members_snoc, E. unfold counted.
  cbn [ci_inStock ci_outOfStock ci_total].
  rewrite !List.filter_app, !List.length_app. cbn [List.filter].
  destruct (inStock p); cbn [negb List.length]; f_equal; lia.
Qed.

Lemma countIn_table (keys : list string) (seen : list Product) (p : Product) :
  NoDup keys ->
  let entry l k :=
    (k, {| ci_inStock :=
             Z.of_nat (List.length (List.filter inStock (members k l)));
           ci_outOfStock :=
             Z.of_nat (List.length
                         (List.filter (fun q => negb (inStock q))
                            (members k l)));
           ci_total := Z.of_nat (List.length (members k l)) |}) in
  countIn p (List.map (entry seen) keys)
  = if List.existsb (String.eqb (category p)) keys
    then List.map (entry (seen ++ [p])%list) keys
    else (List.map (entry (seen ++ [p])%list) keys
          ++ [(category p, counted emptyInventory p)])%list.
Proof.
  cbv zeta. induction 1 as [|k keys Hk Hnd IH]; [reflexivity|].
  cbn [List.map countIn List.existsb].
  rewrite (String.eqb_sym (category p) k).
  destruct (String.eqb k (category p)) eqn:E.
  - rewrite String.eqb_sym in E. rewrite (counted_snoc k seen p E).
    apply String.eqb_eq in E. subst k. cbn [orb]. f_equal.
    apply List.map_ext_in. intros k' Hk'. rewrite !members_snoc.
    destruct (String.eqb (category p) k') eqn:E'; [|reflexivity].
    apply String.eqb_eq in E'. subst k'. contradiction.
  - cbn [orb]. rewrite IH. rewrite members_snoc, String.eqb_sym, E.
    destruct (List.existsb (String.eqb (category p)) keys); reflexivity.
Qed.

(** The inventory by category, in the order of first occurrence. *)
Lemma countIn_groups (products : list Product) :
  List.fold_left (fun t p => countIn p t) products []
  = List.map
      (fun k =>
         (k, {| ci_inStock :=
                  Z.of_nat (List.length
                              (List.filter inStock (members k products)));
                ci_outOfStock :=
                  Z.of_nat (List.length
                              (List.filter (fun q => negb (inStock q))
                                 (members k products)));
                ci_total := Z.of_nat (List.length (members k products)) |}))
      (dedupe (List.map category products)).
Proof.
  induction products as [|p l IH] using List.rev_ind; [reflexivity|].
  rewrite List.fold_left_app, IH. cbn [List.fold_left].
  pose proof (countIn_table (dedupe (List.map category l)) l p
                (proj1 (dedupe_spec _))) as Ht.
  cbv zeta in Ht. rewrite Ht. clear Ht.
  rewrite List.map_app. cbn [List.map]. rewrite dedupe_snoc.
  destruct (List.existsb (String.eqb (category p))
              (dedupe (List.map category l))) eqn:E; [reflexivity|].
  rewrite List.map_app. cbn [List.map]. f_equal. f_equal. f_equal.
  assert (Hm : members (category p) l = []).
  { apply members_nil_notin. intros C.
    apply (proj2 (dedupe_spec _)) in C.
    apply existsb_eqb_In in C. congruence. }
  rewrite members_snoc, String.eqb_refl, Hm. unfold counted, emptyInventory.
  cbn. now destruct (inStock p).
Qed.

(** X25. In the inventory statistics the in-stock and out-of-stock counts
    add up to the number of products. There is one entry for each category
    that occurs, in the order of first occurrence, and it holds the number
    of products of the category that are in stock, the number of those
    that are not, and the number of all of them, so that the first two
    add up to the third. The most expensive product in stock is reported
    exactly when some product is in stock: it is then a product in stock
    such that no product in stock is dearer; the cheapest one likewise,
    with none cheaper. *)
Theorem calculateInventoryStats_spec (products : list Product) :
  let inv := calculateInventoryStats products in
  inStockCount inv + outOfStockCount inv = inv_totalProducts inv
  /\ inStockCount inv = Z.of_nat (List.length (List.filter inStock products))
  /\ inv_totalProducts inv = Z.of_nat (List.length products)
  /\ byCategory inv
     = List.map
         (fun k =>
            (k, {| ci_inStock :=
                     Z.of_nat
                       (List.length
                          (List.filter inStock (members k products)));
                   ci_outOfStock :=
                     Z.of_nat
                       (List.length
                          (List.filter (fun q => negb (inStock q))
                             (members k products)));
                   ci_total :=
                     Z.of_nat (List.length (members k products)) |}))
         (dedupe (List.map category products))
  /\ (forall k e, In (k, e) (byCategory inv) ->
        ci_inStock e + ci_outOfStock e = ci_total e)
  /\ (mostExpensiveInStock inv = None <->
      forall p, In p products -> inStock p = false)
  /\ (cheapestInStock inv = None <->
      forall p, In p products -> inStock p = false)
  /\ (forall r, mostExpensiveInStock inv = Some r ->
        exists p, In p products /\ inStock p = true /\ r = refOf p
          /\ forall q, In q products -> inStock q = true ->
               Num.dec_ltb (price p) (price q) = false)
  /\ (forall r, cheapestInStock inv = Some r ->
        exists p, In p products /\ inStock p = true /\ r = refOf p
          /\ forall q, In q products -> inStock q = true ->
               Num.dec_ltb (price q) (price p) = false).
Proof.
  cbv zeta. unfold calculateInventoryStats.
  cbn [inStockCount outOfStockCount inv_totalProducts byCategory
       mostExpensiveInStock cheapestInStock].
  pose proof (filter_split_length inStock products) as Hsplit.
  assert (Hl0 : forall p, In p (List.filter inStock products)
                          <-> In p products /\ inStock p = true)
    by (intros p; apply List.filter_In).
  remember (List.filter inStock products) as l eqn:Dl.
  assert (Hl : forall p, In p l <-> In p products /\ inStock p = true)
    by exact Hl0.
  clear Hl0.
  pose proof (running_max l NegInfinity eq_refl) as Rmax.
  pose proof (running_min l Infinity eq_refl) as Rmin.
  cbv zeta in Rmax, Rmin. fold (maxOf l) in Rmax. fold (minOf l) in Rmin.
  destruct Rmax as (_ & Cmax & _ & Pmax).
  destruct Rmin as (_ & Cmin & _ & Pmin).
  assert (Hempty : l = [] <-> forall p, In p products -> inStock p = false).
  { split.
    - intros E p Hp. destruct (inStock p) eqn:Es; [|reflexivity].
      assert (C : In p l) by (apply Hl; auto). rewrite E in C. destruct C.
    - intros Hall. clear Dl Hsplit Cmax Cmin Pmax Pmin.
      destruct l as [|q l']; [reflexivity|]. exfalso.
      destruct (proj1 (Hl q) (or_introl eq_refl)) as [C1 C2].
      rewrite (Hall q C1) in C2. discriminate C2. }
  assert (Amax : l <> [] ->
                 exists p, In p l /\ maxOf l = Fin (price p)).
  { intros Hne. destruct Cmax as [E|Hex]; [|exact Hex]. exfalso.
    clear Dl Hsplit Hempty Hl Cmin Pmin.
    destruct l as [|q l']; [contradiction|].
    specialize (Pmax q (or_introl eq_refl)). rewrite E in Pmax.
    discriminate Pmax. }
  assert (Amin : l <> [] ->
                 exists p, In p l /\ minOf l = Fin (price p)).
  { intros Hne. destruct Cmin as [E|Hex]; [|exact Hex]. exfalso.
    clear Dl Hsplit Hempty Hl Cmax Pmax Amax.
    destruct l as [|q l']; [contradiction|].
    specialize (Pmin q (or_introl eq_refl)). rewrite E in Pmin.
    discriminate Pmin. }
  assert (Hdec : l = [] \/ l <> []).
  { destruct l; [now left|right; discriminate]. }
  split; [lia|]. split; [now rewrite Dl|]. split; [reflexivity|].
  split; [apply countIn_groups|]. split.
  { intros k e Hin.
    pose proof (countIn_fold_balanced products [] (Forall_nil _)) as Hall.
    rewrite List.Forall_forall in Hall. exact (Hall _ Hin). }
  split.
  { rewrite <- Hempty. split.
    - intros Hnone. destruct (List.find _ l) as [x|] eqn:Ef;
        [discriminate Hnone|].
      destruct Hdec as [E|Hne]; [exact E|]. exfalso.
      destruct (Amax Hne) as [p [Hp Ep]].
      pose proof (List.find_none _ _ Ef p Hp) as C. cbv beta in C.
      rewrite Ep, dec_eqb_refl in C. discriminate C.
    - intros E. rewrite E. reflexivity. }
  split.
  { rewrite <- Hempty. split.
    - intros Hnone. destruct (List.find _ l) as [x|] eqn:Ef;
        [discriminate Hnone|].
      destruct Hdec as [E|Hne]; [exact E|]. exfalso.
      destruct (Amin Hne) as [p [Hp Ep]].
      pose proof (List.find_none _ _ Ef p Hp) as C. cbv beta in C.
      rewrite Ep, dec_eqb_refl in C. discriminate C.
    - intros E. rewrite E. reflexivity. }
  split.
  - intros r Hr. destruct (List.find _ l) as [x|] eqn:Ef; [|discriminate Hr].
    injection Hr as <-. apply List.find_some in Ef as [Hx Ex].
    exists x. apply Hl in Hx as [Hx1 Hx2].
    split; [exact Hx1|]. split; [exact Hx2|]. split; [reflexivity|].
    intros q Hq Hs. assert (Hql : In q l) by (apply Hl; auto).
    specialize (Pmax q Hql).
    destruct (maxOf l) as [| |m|] eqn:Em; try discriminate Ex.
    cbn in Pmax. rewrite (dec_eqb_ltb_l _ _ _ Ex). exact Pmax.
  - intros r Hr. destruct (List.find _ l) as [x|] eqn:Ef; [|discriminate Hr].
    injection Hr as <-. apply List.find_some in Ef as [Hx Ex].
    exists x. apply Hl in Hx as [Hx1 Hx2].
    split; [exact Hx1|]. split; [exact Hx2|]. split; [reflexivity|].
    intros q Hq Hs. assert (Hql : In q l) by (apply Hl; auto).
    specialize (Pmin q Hql).
    destruct (minOf l) as [| |m|] eqn:Em; try discriminate Ex.
    cbn in Pmin. rewrite (dec_eqb_ltb_r _ _ _ Ex). exact Pmin.
Qed.

End MoreStatistics.

Section PricingAndPopularity.

Import Stats Grouping.

Lemma byValue_le (a b : decimal) :
  byValue a b <= 0 <-> Num.dec_ltb b a = false.
Proof.
  unfold byValue, Num.dec_ltb, Num.scaled.
  rewrite (Z.min_comm (expo b) (expo a)), Z.ltb_ge. lia.
Qed.

Lemma dec_ltb_irrefl (a : decimal) : Num.dec_ltb a a = false.
Proof. exact (num_ltb_irrefl (Fin a)). Qed.

Lemma byValue_antisym (a b : decimal) : byValue a b > 0 -> byValue b a <= 0.
Proof.
  intros H. apply byValue_le.
  destruct (Num.dec_ltb a b) eqn:E; [|reflexivity].
  apply dec_ltb_asym in E. apply byValue_le in E. lia.
Qed.

Lemma byValue_trans (a b c : decimal) :
  byValue a b <= 0 -> byValue b c <= 0 -> byValue a c <= 0.
Proof.
  rewrite !byValue_le. intros H1 H2.
  apply not_true_is_false. intros H.
  destruct (dec_ltb_negtrans _ b _ H); congruence.
Qed.

Lemma sorted_nth {A : Type} (R : A -> A -> Prop) (l : list A) (d : A) :
  StronglySorted R l ->
  forall i j, (i < j)%nat -> (j < List.length l)%nat ->
              R (List.nth i l d) (List.nth j l d).
Proof.
  induction 1 as [|x l Hl IH Hx]; intros i j Hij Hj; [cbn in Hj; lia|].
  destruct j as [|j]; [lia|]. cbn in Hj. destruct i as [|i]; cbn.
  - rewrite List.Forall_forall in Hx. apply Hx. apply List.nth_In. lia.
  - apply IH; lia.
Qed.

(** The six ranges split any list of prices. *)
Lemma below_mono (p : decimal) (a b : Z) :
  a < b -> below p a = true -> below p b = true.
Proof.
  unfold below. intros Hab H.
  assert (Hc : Num.dec_ltb (Dec a 0) (Dec b 0) = true).
  { apply (dec_ltb_scale (Dec a 0) (Dec b 0) 0); cbn; lia. }
  destruct (dec_ltb_negtrans (Dec a 0) p (Dec b 0) Hc) as [D|D]; [|exact D].
  apply dec_ltb_asym in H. congruence.
Qed.

Lemma ranges_partition (prices : list decimal) :
  countIf (fun p => below p 25) prices
  + (countIf (fun p => negb (below p 25) && below p 50) prices
     + (countIf (fun p => negb (below p 50) && below p 100) prices
        + (countIf (fun p => negb (below p 100) && below p 500) prices
           + (countIf (fun p => negb (below p 500) && below p 1000) prices
              + (countIf (fun p => negb (below p 1000)) prices + 0)))))
  = Z.of_nat (List.length prices).
Proof.
  unfold countIf. induction prices as [|p l IH]; [reflexivity|].
  cbn [List.filter List.length].
  pose proof (below_mono p 25 50 ltac:(lia)) as M1.
  pose proof (below_mono p 50 100 ltac:(lia)) as M2.
  pose proof (below_mono p 100 500 ltac:(lia)) as M3.
  pose proof (below_mono p 500 1000 ltac:(lia)) as M4.
  destruct (below p 25) eqn:B1; destruct (below p 50) eqn:B2;
    destruct (below p 100) eqn:B3; destruct (below p 500) eqn:B4;
    destruct (below p 1000) eqn:B5;
    try (specialize (M1 eq_refl); discriminate M1);
    try (specialize (M2 eq_refl); discriminate M2);
    try (specialize (M3 eq_refl); discriminate M3);
    try (specialize (M4 eq_refl); discriminate M4);
    cbn [negb andb List.length]; lia.
Qed.

(** X26. For an empty sequence the pricing statistics are all 0, with no
    price range and no distribution. Otherwise the six price ranges split
    the prices, so that their counts add up to the number of products,
    while the counts of the four quartile entries add up to one more than
    that; the first entry starts at the lowest price and the last one ends
    at the highest. *)
Theorem calculatePricingStats_spec (products : list Product) :
  (products = [] ->
   calculatePricingStats products
   = {| p_min := Num.of_Z 0; p_max := Num.of_Z 0; p_average := Num.of_Z 0;
        p_median := Num.of_Z 0; quartiles := None; priceRanges := [];
        distribution := [] |})
  /\ (products <> [] ->
      let s := calculatePricingStats products in
      let n := Z.of_nat (List.length products) in
      sumCounts (priceRanges s) = n
      /\ sumBuckets (distribution s) = n + 1
      /\ exists b1 b2 b3 b4 lo hi,
          distribution s = [b1; b2; b3; b4]
          /\ In lo products /\ b_min b1 = Fin (price lo)
          /\ In hi products /\ b_max b4 = Fin (price hi)
          /\ forall q, In q products ->
               Num.dec_ltb (price q) (price lo) = false
               /\ Num.dec_ltb (price hi) (price q) = false).
Proof.
  split; [intros ->; reflexivity|].
  intros Hne. cbv zeta.
  destruct products as [|p0 ps]; [contradiction|].
  unfold calculatePricingStats.
  remember (p0 :: ps) as products eqn:Dp.
  assert (Hlen0 : (0 < List.length products)%nat) by (subst; cbn; lia).
  clear Dp p0 ps Hne.
  destruct products as [|p0 ps] eqn:Dp; [cbn in Hlen0; lia|].
  rewrite <- Dp in *. clear Dp p0 ps.
  set (prices := Transform.Array_sort byValue (List.map price products)).
  assert (Hperm : Permutation (List.map price products) prices)
    by apply Array_sort_perm.
  assert (Hsorted : StronglySorted (fun a b => byValue a b <= 0) prices).
  { apply Array_sort_sorted; [apply byValue_antisym|apply byValue_trans]. }
  assert (Hn : List.length prices = List.length products).
  { rewrite <- (Permutation_length Hperm). apply List.length_map. }
  cbn [priceRanges distribution].
  split; [|split].
  - unfold sumCounts. cbn [List.fold_right snd].
    rewrite ranges_partition. now rewrite Hn.
  - unfold sumBuckets. cbn [List.fold_right b_count]. rewrite Hn.
    pose proof (Z.div_mod (Z.of_nat (List.length products)) 4 ltac:(lia)).
    lia.
  - rewrite Hn.
    assert (Hin : forall d, In d prices ->
                    exists q, In q products /\ price q = d).
    { intros d Hd. apply (Permutation_in _ (Permutation_sym Hperm)) in Hd.
      apply List.in_map_iff in Hd as [q [E Hq]]. now exists q. }
    assert (Hall : forall q, In q products -> exists j,
                     (j < List.length prices)%nat
                     /\ List.nth j prices (Dec 0 0) = price q).
    { intros q Hq.
      assert (Hd : In (price q) prices).
      { apply (Permutation_in _ Hperm). now apply List.in_map. }
      destruct (List.In_nth _ _ (Dec 0 0) Hd) as [j [Hj Ej]].
      now exists j. }
    set (n := Z.of_nat (List.length products)).
    assert (Hn0 : 0 < n) by (unfold n; lia).
    assert (Hlo : In (at_ prices 0) prices).
    { unfold at_. apply List.nth_In. rewrite Hn. cbn. lia. }
    assert (Hhi : In (at_ prices (n - 1)) prices).
    { unfold at_. apply List.nth_In. rewrite Hn. unfold n. lia. }
    destruct (Hin _ Hlo) as [lo [Hlop Elo]].
    destruct (Hin _ Hhi) as [hi [Hhip Ehi]].
    do 4 eexists. exists lo, hi.
    split; [reflexivity|]. cbn [b_min b_max].
    split; [exact Hlop|]. split; [now rewrite Elo|].
    split; [exact Hhip|]. split; [now rewrite Ehi|].
    intros q Hq. destruct (Hall q Hq) as [j [Hj Ej]].
    rewrite Elo, Ehi, <- Ej. unfold at_. split.
    + destruct j as [|j]; [change (Z.to_nat 0) with 0%nat;
                            apply dec_ltb_irrefl|].
      apply byValue_le. change (Z.to_nat 0) with 0%nat.
      apply (sorted_nth _ prices (Dec 0 0) Hsorted); lia.
    + destruct (Nat.eq_dec j (Z.to_nat (n - 1))) as [->|Hjn];
        [apply dec_ltb_irrefl|].
      apply byValue_le.
      apply (sorted_nth _ prices (Dec 0 0) Hsorted); unfold n in *; lia.
Qed.

Lemma calculatePricingStats_spec_witness :
  sumBuckets (distribution
                (calculatePricingStats
                   [Samples.lamp; Samples.pan; Samples.coat])) = 3 + 1.
Proof.
  exact (proj1 (proj2 (proj2 (calculatePricingStats_spec
                                [Samples.lamp; Samples.pan; Samples.coat])
                         ltac:(discriminate)))).
Defined.

End PricingAndPopularity.

Section Popularity.

Import Stats Grouping.






End Popularity.

(** ** The error metrics *)

Section ErrorMetricsProps.

Import Metrics.

Lemma sumOf_insert (k : string) (c : Z) (m : gmap string Z) :
  sumOf (<[k := c]> m) = sumOf m - default 0 (m !! k) + c.
Proof.
  unfold sumOf.
  assert (Hc : forall z1 z2 y : Z, z1 + (z2 + y) = z2 + (z1 + y))
    by (intros; lia).
  destruct (m !! k) as [x|] eqn:E; cbn [default].
  - rewrite <- (insert_delete_eq m k c).
    rewrite (map_fold_insert_L _ _ _ _ (delete k m));
      [|intros; apply Hc|apply lookup_delete_eq].
    rewrite (map_fold_delete_L _ _ k x m);
      [cbv beta; unfold Datatypes.id; lia|intros; apply Hc|exact E].
  - rewrite map_fold_insert_L; [cbv beta; unfold Datatypes.id; lia|intros; apply Hc|exact E].
Qed.

Lemma sumOf_bump (k : string) (m : gmap string Z) :
  map_Forall (fun _ c => 1 <= c) m ->
  sumOf (bump k m) = sumOf m + 1
  /\ map_Forall (fun _ c => 1 <= c) (bump k m).
Proof.
  intros Hpos. unfold bump. split.
  - rewrite sumOf_insert.
    destruct (m !! k) as [c|] eqn:E; cbn [default]; unfold Datatypes.id;
      [|lia].
    specialize (Hpos k c E). cbn in Hpos.
    destruct (Z.eqb_spec c 0); lia.
  - apply map_Forall_insert_2; [|exact Hpos].
    destruct (m !! k) as [c|] eqn:E; [|lia].
    specialize (Hpos k c E). cbn in Hpos.
    destruct (Z.eqb_spec c 0); lia.
Qed.

Lemma sublist_filter_weaken {A : Type} (f g : A -> bool) (l1 l2 : list A) :
  (forall x, f x = true -> g x = true) ->
  l1 `sublist_of` l2 ->
  List.filter f l1 `sublist_of` List.filter g l2.
Proof.
  intros Hfg H. induction H as [|x l1 l2 H IH|x l1 l2 H IH]; cbn.
  - constructor.
  - destruct (f x) eqn:Ef.
    + rewrite (Hfg x Ef). now constructor.
    + destruct (g x); [now constructor|exact IH].
  - destruct (g x); [now constructor|exact IH].
Qed.

Lemma filter_length_le {A : Type} (f : A -> bool) (l : list A) :
  (List.length (List.filter f l) <= List.length l)%nat.
Proof.
  induction l as [|x l IH]; cbn; [lia|]. destruct (f x); cbn; lia.
Qed.

Lemma recordError_consistent (now later : Instant)
    (error : Errors.CustomError) (req : option ReqInfo) (s : State) :
  consistent s -> consistent (snd (recordError now later error req s)).
Proof.
  intros (Hhd & Hdw & Hlen & Ht & Hs & He & Pt & Ps & Pe).
  unfold recordError, cleanupOldRecords, consistent;
    cbn [snd totalErrors errorsByType errorsByStatusCode errorsByEndpoint
         lastHour lastDay lastWeek].
  destruct (sumOf_bump (er_type (recordOf now error req)) _ Pt) as [St Pt'].
  destruct (sumOf_bump
              (Val.toString (er_statusCode (recordOf now error req))) _ Ps)
    as [Ss Ps'].
  destruct (sumOf_bump (er_endpoint (recordOf now error req)) _ Pe)
    as [Se Pe'].
  split; [|split; [|split; [|split; [|split; [|split; [|split; [|split]]]]]]].
  - apply sublist_filter_weaken.
    + unfold newerThan, hourMs, dayMs. intros x Hx.
      apply Z.ltb_lt in Hx. apply Z.ltb_lt. lia.
    + apply sublist_app; [exact Hhd|reflexivity].
  - apply sublist_filter_weaken.
    + unfold newerThan, weekMs, dayMs. intros x Hx.
      apply Z.ltb_lt in Hx. apply Z.ltb_lt. lia.
    + apply sublist_app; [exact Hdw|reflexivity].
  - pose proof (filter_length_le (newerThan (ms later - weekMs))
                  (lastWeek s ++ [recordOf now error req])%list) as Hf.
    rewrite List.length_app in Hf. cbn in Hf. lia.
  - rewrite St, Ht. reflexivity.
  - rewrite Ss, Hs. reflexivity.
  - rewrite Se, He. reflexivity.
  - exact Pt'.
  - exact Ps'.
  - exact Pe'.
Qed.

Lemma initial_consistent : consistent initial.
Proof.
  unfold consistent, initial; cbn.
  repeat split; try reflexivity; try lia; try apply map_Forall_empty.
Qed.

(** X28. However many errors have been recorded since the start or the
    last reset, the three time windows are nested (every record of the
    last hour is in the last day, and every record of the last day is in
    the last week, in the same order), no window holds more records than
    the total, and each of the three breakdowns (by type, by status code,
    by endpoint) has only positive counts that add up to the total. *)
Theorem metrics_consistent (s : State) :
  reachable s -> consistent s.
Proof.
  induction 1 as [|now later error req s _ IH|s _ _].
  - exact initial_consistent.
  - apply recordError_consistent, IH.
  - exact initial_consistent.
Qed.

Lemma metrics_consistent_witness :
  reachable More.once /\ consistent More.once.
Proof.
  assert (H : reachable More.once)
    by (unfold More.once; apply reach_record, reach_initial).
  split; [exact H|exact (metrics_consistent More.once H)].
Defined.

End ErrorMetricsProps.

(** ** The windows of the metrics *)

Section MetricsWindows.

Import Metrics.

Lemma filter_snoc {A : Type} (f : A -> bool) (l : list A) (x : A) :
  List.filter f (l ++ [x])%list
  = (List.filter f l ++ (if f x then [x] else []))%list.
Proof. rewrite List.filter_app. reflexivity. Qed.

Lemma dec_ltb_whole (a b : Z) :
  Num.dec_ltb (Dec a 0) (Dec b 0) = (a <? b).
Proof.
  unfold Num.dec_ltb, Num.scaled. cbn [mant expo].
  change (0 - Z.min 0 0) with 0. change (10 ^ 0) with 1.
  now rewrite !Z.mul_1_r.
Qed.

(** X29. Recording an error adds one to the total. After it, every
    window only holds records younger than its span at the time of the
    clean-up, in the order they were recorded; the new record is the last
    of the last hour when the clean-up comes less than an hour after it,
    and is not kept there otherwise. The alert of the handler (a rate
    above 2 per minute over the last hour) is raised exactly when the
    last hour holds more than 120 records. *)
Theorem recordError_windows (now later : Instant)
    (error : Errors.CustomError) (req : option ReqInfo) (s : State) :
  let r := fst (recordError now later error req s) in
  let s' := snd (recordError now later error req s) in
  totalErrors s' = totalErrors s + 1
  /\ er_timestamp r = now
  /\ (forall x, In x (lastHour s') ->
        ms later - 3600000 < ms (er_timestamp x))
  /\ (forall x, In x (lastDay s') ->
        ms later - 86400000 < ms (er_timestamp x))
  /\ (forall x, In x (lastWeek s') ->
        ms later - 604800000 < ms (er_timestamp x))
  /\ (ms later - ms now < 3600000 ->
        lastHour s'
        = (List.filter (newerThan (ms later - hourMs)) (lastHour s) ++ [r])%list)
  /\ (3600000 <= ms later - ms now ->
        lastHour s'
        = List.filter (newerThan (ms later - hourMs)) (lastHour s))
  /\ (isErrorRateHigh (Dec 2 0) "lastHour" s' = true
      <-> (120 < List.length (lastHour s'))%nat).
Proof.
  cbv zeta. unfold recordError, cleanupOldRecords.
  cbn [fst snd totalErrors lastHour lastDay lastWeek].
  split; [reflexivity|]. split; [reflexivity|].
  split; [|split; [|split; [|split; [|split]]]].
  - intros x Hx. apply List.filter_In in Hx. destruct Hx as [_ Hx].
    unfold newerThan, hourMs in Hx. apply Z.ltb_lt in Hx. lia.
  - intros x Hx. apply List.filter_In in Hx. destruct Hx as [_ Hx].
    unfold newerThan, dayMs in Hx. apply Z.ltb_lt in Hx. lia.
  - intros x Hx. apply List.filter_In in Hx. destruct Hx as [_ Hx].
    unfold newerThan, weekMs in Hx. apply Z.ltb_lt in Hx. lia.
  - intros Hlt. rewrite filter_snoc.
    replace (newerThan (ms later - hourMs) (recordOf now error req))
      with true; [reflexivity|].
    symmetry. unfold newerThan, recordOf, hourMs. cbn [er_timestamp].
    apply Z.ltb_lt. lia.
  - intros Hge. rewrite filter_snoc.
    replace (newerThan (ms later - hourMs) (recordOf now error req))
      with false; [apply List.app_nil_r|].
    symmetry. unfold newerThan, recordOf, hourMs. cbn [er_timestamp].
    apply Z.ltb_ge. lia.
  - unfold isErrorRateHigh, getErrorRate, rangeOf.
    cbn [String.eqb Ascii.eqb Bool.eqb lastHour mant expo].
    rewrite dec_ltb_whole. rewrite Z.ltb_lt. lia.
Qed.

Lemma recordError_windows_witness :
  lastHour More.once
  = [fst (recordError More.early More.early More.missing None initial)].
Proof.
  assert (H : ms More.early - ms More.early < 3600000) by (cbn; lia).
  exact (proj1 (proj2 (proj2 (proj2 (proj2 (proj2
           (recordError_windows More.early More.early More.missing None
              initial)))))) H).
Defined.

End MetricsWindows.

(** ** The response of the error handler *)

Section HandlerResponse.

Import Errors ErrorHandler.

Lemma get_set_eq (o : object) (k : string) (v : jsval) :
  get (set o k v) k = Some v.
Proof.
  induction o as [|[k' w] o IH]; cbn.
  - now rewrite String.eqb_refl.
  - destruct (String.eqb k' k) eqn:E; cbn; rewrite E; [reflexivity|exact IH].
Qed.

Lemma get_set_ne (o : object) (k k' : string) (v : jsval) :
  String.eqb k k' = false -> get (set o k v) k' = get o k'.
Proof.
  intros Hne. induction o as [|[j w] o IH]; cbn.
  - now rewrite Hne.
  - destruct (String.eqb j k) eqn:E; cbn.
    + apply String.eqb_eq in E. subst j. now rewrite Hne.
    + destruct (String.eqb j k'); [reflexivity|exact IH].
Qed.

(** The sanitized rendering of an instance. *)
Lemma sanitized_instance (env : Env) (e : CustomError) :
  exists o, ErrorUtils.sanitizeForProduction env (Instance e) = inl o
            /\ get o "stack" = None /\ get o "name" = None
            /\ get o "success" = Some (VBool false)
            /\ get o "message" = Some (VStr (message e)).
Proof.
  eexists. split; [reflexivity|].
  unfold toJSON, baseJSON, set_if.
  destruct e as [c m sc ec op ts st];
    cbn [class message statusCode errorCode timestamp stack].
  destruct c as [|d f|r|p q|r i]; destruct (development env);
    try destruct (present f); try destruct (present p);
    try destruct (present q); try destruct (present i); repeat split.
Qed.

Lemma messageFor_generic (key : string) (table : list (string * string)) :
  ErrorConfig.genericMessages ErrorConfig.production = Some table ->
  exists m,
    or_else (ErrorConfig.messageFor table key)
            (ErrorConfig.messageFor table "500") = VStr m
    /\ In m (List.map snd table).
Proof.
  intros H. injection H as <-.
  unfold or_else. cbn [ErrorConfig.messageFor].
  repeat match goal with
         | |- context [String.eqb ?a key] =>
             destruct (String.eqb a key);
             [eexists; split; [reflexivity|cbn; tauto]|]
         end.
  eexists; split; [reflexivity|cbn; tauto].
Qed.

(** X30. The error handler answers with the status of the classified
    error, counts the error, and writes the identifier, the path and the
    method of the request into the body; the timestamp of the body is the
    time of the answer, not the time the error was created. In
    production the body has neither stack nor name nor debug section; an
    error with a status below 500 keeps its message, and one with a
    status of 500 or above gets one of the generic messages instead,
    Internal server error occurred for the status 500. *)
Theorem globalErrorHandler_spec (nodeEnv : option string)
    (stackTrace generated : string) (clock : Clock) (err : thrown)
    (req : Request) (metrics : Metrics.State) :
  let customError :=
    ErrorFactory.fromNativeError
      (envOf nodeEnv stackTrace (created clock)) err in
  let res :=
    fst (globalErrorHandler nodeEnv stackTrace generated clock err req
           metrics) in
  let metrics' :=
    snd (globalErrorHandler nodeEnv stackTrace generated clock err req
           metrics) in
  status res = statusCode customError
  /\ Metrics.totalErrors metrics' = Metrics.totalErrors metrics + 1
  /\ get (body res) "requestId"
     = Some (or_else (Metrics.requestId (info req)) (VStr generated))
  /\ get (body res) "path" = Some (VStr (Metrics.originalUrl (info req)))
  /\ get (body res) "method" = Some (VStr (Metrics.method (info req)))
  /\ get (body res) "timestamp" = Some (VStr (iso (answered clock)))
  /\ (nodeEnv = Some "production" ->
      get (body res) "stack" = None
      /\ get (body res) "name" = None
      /\ debug res = None
      /\ (Conv.geb (statusCode customError) 500 = false ->
            get (body res) "message" = Some (VStr (message customError)))
      /\ (Conv.geb (statusCode customError) 500 = true ->
            exists m, get (body res) "message" = Some (VStr m)
                      /\ In m ["Bad request"; "Authentication required";
                               "Access forbidden"; "Resource not found";
                               "Internal server error occurred"])
      /\ (statusCode customError = Val.int 500 ->
            get (body res) "message"
            = Some (VStr "Internal server error occurred"))).
Proof.
  cbv zeta. unfold globalErrorHandler.
  set (customError := ErrorFactory.fromNativeError _ err).
  unfold Metrics.recordError. cbn [fst snd status body debug].
  split; [reflexivity|]. split; [reflexivity|].
  split; [now rewrite !get_set_ne by reflexivity; rewrite get_set_eq|].
  split; [now rewrite !get_set_ne by reflexivity; rewrite get_set_eq|].
  split; [now rewrite !get_set_ne by reflexivity; rewrite get_set_eq|].
  split; [now rewrite get_set_eq|].
  intros ->. rewrite !get_set_ne by reflexivity.
  cbn [String.eqb Ascii.eqb Bool.eqb]. unfold productionBody.
  destruct (sanitized_instance
              (envOf (Some "production") stackTrace (answered clock))
              customError) as (o & -> & Hstack & Hname & _ & Hmsg).
  change (ErrorConfig.getCurrentConfig (Some "production"))
    with ErrorConfig.production.
  cbn [ErrorConfig.genericMessages ErrorConfig.production
       ErrorConfig.includeErrorDetails].
  destruct (Conv.geb (statusCode customError) 500) eqn:Hge.
  - rewrite !get_set_ne by reflexivity. rewrite get_set_eq.
    split; [exact Hstack|]. split; [exact Hname|]. split; [reflexivity|].
    split; [discriminate|]. split.
    + intros _.
      destruct (messageFor_generic (Val.toString (statusCode customError))
                  _ eq_refl) as (m & -> & Hm).
      exists m. split; [reflexivity|exact Hm].
    + intros ->. reflexivity.
  - split; [exact Hstack|]. split; [exact Hname|]. split; [reflexivity|].
    split; [intros _; exact Hmsg|]. split; [discriminate|].
    intros E. rewrite E in Hge. discriminate Hge.
Qed.

Lemma globalErrorHandler_spec_witness :
  get (body (fst (globalErrorHandler (Some "production") "TypeError" "req_2"
                    More.clock (Foreign More.typeError) More.posted
                    Metrics.initial)))
      "message"
  = Some (VStr "Internal server error occurred").
Proof.
  assert (H : statusCode
                (ErrorFactory.fromNativeError
                   (envOf (Some "production") "TypeError"
                      (created More.clock))
                   (Foreign More.typeError))
              = Val.int 500) by reflexivity.
  pose proof (globalErrorHandler_spec (Some "production") "TypeError"
                "req_2" More.clock (Foreign More.typeError) More.posted
                Metrics.initial) as P.
  cbv zeta in P. destruct P as (_ & _ & _ & _ & _ & _ & P).
  destruct (P eq_refl) as (_ & _ & _ & _ & _ & G). exact (G H).
Defined.

End HandlerResponse.

(** ** Validation of a new product *)

Section NewProductValidation.

Import Errors BodyValidation.

Lemma longerThan_cases (field : string) (limit : Z) (v : jsval) :
  longerThan field limit v
  = if foreign v then Throw (field ++ ".trim is not a function")
    else Return (match v with
                 | VStr s => Val.truthy v && (limit <? Syntax.slen (Str.trim s))
                 | _ => false
                 end).
Proof.
  unfold longerThan, foreign.
  destruct v as [| |b|n|s|l|o]; cbn [trimOf negb andb Val.truthy];
    try reflexivity.
  - now destruct b.
  - now destruct (Num.truthy n).
  - rewrite andb_false_r. now destruct (negb (String.eqb s EmptyString)).
Qed.

Lemma unknownCategory_cases (v : jsval) :
  unknownCategory v
  = if foreign v then Throw "category.trim is not a function"
    else Return (match v with
                 | VStr s =>
                     Val.truthy v
                     && negb (QueryProcessor.includes
                                QueryProcessor.validCategories
                                (Str.toLowerCase (Str.trim s)))
                 | _ => false
                 end).
Proof.
  unfold unknownCategory, foreign.
  destruct v as [| |b|n|s|l|o]; cbn [trimOf negb andb Val.truthy];
    try reflexivity.
  - now destruct b.
  - now destruct (Num.truthy n).
  - rewrite andb_false_r. now destruct (negb (String.eqb s EmptyString)).
Qed.

Lemma notFilled_false (v : jsval) :
  notFilled v = false <->
  exists s, v = VStr s /\ 1 <= Syntax.slen (Str.trim s).
Proof.
  split.
  - destruct v; cbn; try discriminate. intros H.
    apply Bool.orb_false_iff in H. destruct H as [_ H].
    apply Z.eqb_neq in H. exists s. split; [reflexivity|].
    unfold Syntax.slen in *. lia.
  - intros (s & -> & Hs). cbn. apply Bool.orb_false_iff. split.
    + destruct s; [|reflexivity].
      assert (Syntax.slen (Str.trim EmptyString) = 0) by reflexivity. lia.
    + apply Z.eqb_neq. lia.
Qed.

Lemma filled_truthy (s : string) :
  1 <= Syntax.slen (Str.trim s) -> Val.truthy (VStr s) = true.
Proof.
  intros Hs. cbn. destruct s; [|reflexivity].
  assert (Syntax.slen (Str.trim EmptyString) = 0) by reflexivity. lia.
Qed.

Lemma when_nil (c : bool) (m : string) : when c m = [] <-> c = false.
Proof. destruct c; split; try discriminate; reflexivity. Qed.

Lemma In_when (x : string) (c : bool) (m : string) :
  In x (when c m) <-> c = true /\ m = x.
Proof.
  unfold when. destruct c; cbn.
  - split; [intros [E|[]]; now split|intros [_ E]; now left].
  - split; [intros []|intros [C _]; discriminate C].
Qed.

Lemma no_errors (l : list string) :
  (0 <? Z.of_nat (List.length l)) = false <-> l = [].
Proof.
  destruct l; cbn [List.length]; split; try reflexivity; discriminate.
Qed.

Lemma some_errors (l : list string) :
  (0 <? Z.of_nat (List.length l)) = true -> l <> [].
Proof. destruct l; discriminate. Qed.

Lemma priceErrors_nil (v : jsval) :
  priceErrors v = [] <-> exists p, v = VNum p /\ leb p (Num.of_Z 0) = false.
Proof.
  destruct v as [| |b|n|s|l|o]; cbn [priceErrors];
    try (split; [discriminate|intros (p & E & _); discriminate E]).
  destruct (leb n (Num.of_Z 0)) eqn:E; split.
  - discriminate.
  - intros (p & [= <-] & Hp). congruence.
  - intros _. now exists n.
  - reflexivity.
Qed.

Lemma rangeErrors_number (p : number) :
  rangeErrors (VNum p) = [] <->
  Num.ltb p cent = false /\ Num.ltb (Num.of_Z 999999) p = false.
Proof.
  cbn [rangeErrors].
  destruct (Num.ltb (Num.of_Z 999999) p), (Num.ltb p cent); cbn [orb];
    split; intros H; try discriminate H;
    try (destruct H; discriminate); auto.
Qed.

Lemma stockErrors_nil (v : jsval) :
  stockErrors v = [] <-> exists s, v = VBool s.
Proof.
  destruct v as [| |b|n|s|l|o]; cbn [stockErrors];
    try (split; [discriminate|intros (x & E); discriminate E]).
  split; [intros _; now exists b|reflexivity].
Qed.

Lemma In_priceErrors (x : string) (v : jsval) :
  In x (priceErrors v) ->
  x = "Price is required" \/ x = "Price must be a positive number".
Proof.
  destruct v as [| |b|n|s|l|o]; cbn [priceErrors];
    try destruct (leb n (Num.of_Z 0)); cbn; intros H;
    repeat (destruct H as [H|H]); try contradiction; subst x; auto.
Qed.

Lemma In_stockErrors (x : string) (v : jsval) :
  In x (stockErrors v) ->
  x = "InStock status is required"
  \/ x = "InStock must be a boolean value (true or false)".
Proof.
  destruct v as [| |b|n|s|l|o]; cbn; intros H;
    repeat (destruct H as [H|H]); try contradiction; subst x; auto.
Qed.

Lemma In_rangeErrors (x : string) (v : jsval) :
  In x (rangeErrors v) -> x = "Price must be between 0.01 and 999999".
Proof.
  destruct v as [| |b|n|s|l|o]; cbn [rangeErrors];
    try destruct (Num.ltb (Num.of_Z 999999) n || Num.ltb n cent); cbn;
    intros H; repeat (destruct H as [H|H]); try contradiction; now subst x.
Qed.

Lemma notFilled_true (v : jsval) : notFilled v = true <-> ~ filled v.
Proof.
  unfold filled. rewrite <- notFilled_false.
  destruct (notFilled v); split; congruence.
Qed.

Lemma priceErrors_required (v : jsval) :
  In "Price is required" (priceErrors v) <-> missing v.
Proof.
  unfold missing. split.
  - intros H. destruct v as [| |b|n|s|l|o]; auto; cbn [priceErrors] in H;
      try destruct (leb n (Num.of_Z 0)); cbn in H;
      repeat (destruct H as [H|H]); try discriminate H; contradiction.
  - intros [-> | ->]; cbn; now left.
Qed.

Lemma priceErrors_positive (v : jsval) :
  In "Price must be a positive number" (priceErrors v)
  <-> ~ missing v /\ ~ exists p, v = VNum p /\ leb p (Num.of_Z 0) = false.
Proof.
  unfold missing. split.
  - intros H. split.
    + intros [-> | ->]; cbn in H; destruct H as [H|[]]; discriminate H.
    + intros (p & -> & Hp). cbn [priceErrors] in H. rewrite Hp in H.
      destruct H.
  - intros [H1 H2]. destruct v as [| |b|n|s|l|o]; cbn [priceErrors];
      try (now left).
    + destruct H1. now left.
    + destruct H1. now right.
    + destruct (leb n (Num.of_Z 0)) eqn:E; [now left|].
      destruct H2. now exists n.
Qed.

Lemma stockErrors_required (v : jsval) :
  In "InStock status is required" (stockErrors v) <-> missing v.
Proof.
  unfold missing. split.
  - intros H. destruct v as [| |b|n|s|l|o]; auto; cbn in H;
      repeat (destruct H as [H|H]); try discriminate H; contradiction.
  - intros [-> | ->]; cbn; now left.
Qed.

Lemma stockErrors_boolean (v : jsval) :
  In "InStock must be a boolean value (true or false)" (stockErrors v)
  <-> ~ missing v /\ ~ exists s, v = VBool s.
Proof.
  unfold missing. split.
  - intros H. split.
    + intros [-> | ->]; cbn in H; destruct H as [H|[]]; discriminate H.
    + intros (s & ->). cbn in H. destruct H.
  - intros [H1 H2]. destruct v as [| |b|n|s|l|o]; cbn; try (now left).
    + destruct H1. now left.
    + destruct H1. now right.
    + destruct H2. now exists b.
Qed.

Lemma rangeErrors_between (v : jsval) :
  In "Price must be between 0.01 and 999999" (rangeErrors v)
  <-> exists p, v = VNum p
                /\ (Num.ltb (Num.of_Z 999999) p = true
                    \/ Num.ltb p cent = true).
Proof.
  split.
  - intros H. destruct v as [| |b|n|s|l|o]; cbn [rangeErrors] in H;
      try (destruct H; fail).
    exists n. split; [reflexivity|].
    destruct (Num.ltb (Num.of_Z 999999) n); [now left|].
    destruct (Num.ltb n cent); [now right|]. destruct H.
  - intros (p & -> & H). cbn [rangeErrors].
    replace (Num.ltb (Num.of_Z 999999) p || Num.ltb p cent) with true;
      [now left|].
    symmetry. apply orb_true_iff. exact H.
Qed.

Lemma tooLong_true (limit : Z) (v : jsval) :
  0 <= limit ->
  match v with
  | VStr s => Val.truthy v && (limit <? Syntax.slen (Str.trim s))
  | _ => false
  end = true
  <-> exists s, v = VStr s /\ limit < Syntax.slen (Str.trim s).
Proof.
  intros Hl.
  destruct v as [| |b|n|s|l|o];
    try (split; [discriminate|intros (x & C & _); discriminate C]).
  rewrite andb_true_iff, Z.ltb_lt. split.
  - intros [_ H]. now exists s.
  - intros (x & [= <-] & H). split; [|exact H].
    apply filled_truthy. lia.
Qed.

Lemma unknown_true (v : jsval) :
  match v with
  | VStr s =>
      Val.truthy v
      && negb (QueryProcessor.includes QueryProcessor.validCategories
                 (Str.toLowerCase (Str.trim s)))
  | _ => false
  end = true
  <-> exists s, v = VStr s /\ s <> EmptyString
                /\ ~ In (Str.toLowerCase (Str.trim s))
                        QueryProcessor.validCategories.
Proof.
  destruct v as [| |b|n|s|l|o];
    try (split; [discriminate|intros (x & C & _); discriminate C]).
  rewrite andb_true_iff, Bool.negb_true_iff. cbn [Val.truthy].
  rewrite Bool.negb_true_iff, String.eqb_neq.
  rewrite <- Bool.not_true_iff_false, includes_In. split.
  - intros [H1 H2]. now exists s.
  - intros (x & [= <-] & H1 & H2). now split.
Qed.

(** Discards a detail that is not the one looked for. *)
Ltac other_detail H :=
  first
    [ destruct H as [_ H]; discriminate H
    | apply In_priceErrors in H; destruct H as [H|H]; discriminate H
    | apply In_stockErrors in H; destruct H as [H|H]; discriminate H
    | apply In_rangeErrors in H; discriminate H ].

(** The details collected when nothing is thrown. *)
Lemma details_membership (body : Body) :
  detailsFor body
    ((((when (notFilled (b_name body))
          "Name is required and must be a non-empty string"
        ++ when (notFilled (b_description body))
             "Description is required and must be a non-empty string"
        ++ priceErrors (b_price body)
        ++ when (notFilled (b_category body))
             "Category is required and must be a non-empty string"
        ++ stockErrors (b_inStock body))
       ++ when
            match b_name body with
            | VStr s =>
                Val.truthy (b_name body)
                && (100 <? Syntax.slen (Str.trim s))
            | _ => false
            end "Name must be less than 100 characters")
      ++ when
           match b_description body with
           | VStr s =>
               Val.truthy (b_description body)
               && (500 <? Syntax.slen (Str.trim s))
           | _ => false
           end "Description must be less than 500 characters"
      ++ rangeErrors (b_price body))
     ++ when
          match b_category body with
          | VStr s =>
              Val.truthy (b_category body)
              && negb (QueryProcessor.includes QueryProcessor.validCategories
                         (Str.toLowerCase (Str.trim s)))
          | _ => false
          end
          ("Category must be one of: "
           ++ Str.join ", " QueryProcessor.validCategories))%list.
Proof.
  unfold detailsFor.
  cbn [String.append Str.join QueryProcessor.validCategories].
  rewrite !List.in_app_iff, !In_when.
  split; [|split; [|split; [|split; [|split; [|split; [|split; [|split;
    [|split; [|split]]]]]]]]].
  - split.
    + intros H. repeat destruct H as [H|H]; try (other_detail H; fail).
      destruct H as [H _]. now apply notFilled_true.
    + intros H. do 4 left. split; [now apply notFilled_true|reflexivity].
  - split.
    + intros H. repeat destruct H as [H|H]; try (other_detail H; fail).
      destruct H as [H _]. now apply notFilled_true.
    + intros H. do 3 left; right; left. split; [now apply notFilled_true|reflexivity].
  - split.
    + intros H. repeat destruct H as [H|H]; try (other_detail H; fail).
      now apply priceErrors_required.
    + intros H. do 3 left; right; right; left. now apply priceErrors_required.
  - split.
    + intros H. repeat destruct H as [H|H]; try (other_detail H; fail).
      now apply priceErrors_positive.
    + intros H. do 3 left; right; right; left. now apply priceErrors_positive.
  - split.
    + intros H. repeat destruct H as [H|H]; try (other_detail H; fail).
      destruct H as [H _]. now apply notFilled_true.
    + intros H. do 3 left; do 3 right; left. split; [now apply notFilled_true|reflexivity].
  - split.
    + intros H. repeat destruct H as [H|H]; try (other_detail H; fail).
      now apply stockErrors_required.
    + intros H. do 3 left; do 4 right. now apply stockErrors_required.
  - split.
    + intros H. repeat destruct H as [H|H]; try (other_detail H; fail).
      now apply stockErrors_boolean.
    + intros H. do 3 left; do 4 right. now apply stockErrors_boolean.
  - split.
    + intros H. repeat destruct H as [H|H]; try (other_detail H; fail).
      destruct H as [H _]. now apply tooLong_true.
    + intros H. left; left; right. split; [now apply tooLong_true|reflexivity].
  - split.
    + intros H. repeat destruct H as [H|H]; try (other_detail H; fail).
      destruct H as [H _]. now apply tooLong_true.
    + intros H. left; right; left. split; [now apply tooLong_true|reflexivity].
  - split.
    + intros H. repeat destruct H as [H|H]; try (other_detail H; fail).
      now apply rangeErrors_between.
    + intros H. left; right; right. now apply rangeErrors_between.
  - split.
    + intros H. repeat destruct H as [H|H]; try (other_detail H; fail).
      destruct H as [H _]. now apply unknown_true.
    + intros H. right. split; [now apply unknown_true|reflexivity].
Qed.

(** X14. [validateProductCreation] throws a TypeError exactly when name,
    description or category is truthy and not a string (a number, true,
    an array, an object), the first of them in this order naming the
    message. Otherwise the body passes exactly when name, description and
    category are strings that are not blank, of at most 100 and 500
    characters once trimmed and of a known category, the price is of type
    number and none of the comparisons price <= 0, price < 0.01 and
    price > 999999 holds, and inStock is a boolean; what is passed on is
    trimmed and the category in lower case. In the remaining cases a
    validation error with status 400 is passed on; it has at least one
    detail, and each of the eleven messages is among its details exactly
    when the body has the defect that the message names. *)
Theorem validateProductCreation_spec (env : Env) (body : Body) :
  let result := validateProductCreation env body in
  (forall m, result = Throw m <->
     (foreign (b_name body) = true /\ m = "name.trim is not a function")
     \/ (foreign (b_name body) = false
         /\ foreign (b_description body) = true
         /\ m = "description.trim is not a function")
     \/ (foreign (b_name body) = false
         /\ foreign (b_description body) = false
         /\ foreign (b_category body) = true
         /\ m = "category.trim is not a function"))
  /\ (forall b, result = Return (inl b) <->
        exists n d c p s,
          b_name body = VStr n /\ b_description body = VStr d
          /\ b_category body = VStr c /\ b_price body = VNum p
          /\ b_inStock body = VBool s
          /\ 1 <= Syntax.slen (Str.trim n) <= 100
          /\ 1 <= Syntax.slen (Str.trim d) <= 500
          /\ In (Str.toLowerCase (Str.trim c)) QueryProcessor.validCategories
          /\ leb p (Num.of_Z 0) = false /\ Num.ltb p cent = false
          /\ Num.ltb (Num.of_Z 999999) p = false
          /\ b = {| s_name := Str.trim n;
                    s_description := Str.trim d;
                    s_price := Syntax.parseFloat (Syntax.num_toString p);
                    s_category := Str.toLowerCase (Str.trim c);
                    s_inStock := s |})
  /\ (forall e, result = Return (inr e) ->
        statusCode e = Val.int 400
        /\ errorCode e = VStr "VALIDATION_ERROR"
        /\ message e = "Product validation failed"
        /\ exists details,
             class e = Validation details None /\ details <> []
             /\ detailsFor body details).
Proof.
  cbv zeta. unfold validateProductCreation.
  rewrite !longerThan_cases, unknownCategory_cases.
  destruct (foreign (b_name body)) eqn:Fn.
  { split; [|split; [|discriminate]].
    - intros m. split; [intros [= <-]; left; now split|].
      intros [[_ ->]|[[C _]|[C _]]]; [reflexivity|discriminate C..].
    - intros b. split; [discriminate|].
      intros (n & d & c & p & s & En & _). rewrite En in Fn.
      unfold foreign in Fn. cbn in Fn. rewrite andb_false_r in Fn.
      discriminate Fn. }
  destruct (foreign (b_description body)) eqn:Fd.
  { split; [|split; [|discriminate]].
    - intros m. split; [intros [= <-]; right; left; now repeat split|].
      intros [[C _]|[[_ [_ ->]]|[_ [C _]]]];
        [discriminate C|reflexivity|discriminate C].
    - intros b. split; [discriminate|].
      intros (n & d & c & p & s & _ & Ed & _). rewrite Ed in Fd.
      unfold foreign in Fd. cbn in Fd. rewrite andb_false_r in Fd.
      discriminate Fd. }
  destruct (foreign (b_category body)) eqn:Fc.
  { split; [|split; [|discriminate]].
    - intros m. split; [intros [= <-]; right; right; now repeat split|].
      intros [[C _]|[[_ [C _]]|[_ [_ [_ ->]]]]];
        [discriminate C..|reflexivity].
    - intros b. split; [discriminate|].
      intros (n & d & c & p & s & _ & _ & Ec & _). rewrite Ec in Fc.
      unfold foreign in Fc. cbn in Fc. rewrite andb_false_r in Fc.
      discriminate Fc. }
  match goal with
  | |- context [0 <? Z.of_nat (List.length ?l)] => set (errors := l)
  end.
  assert (Hclean : errors = [] <->
            exists n d c p s,
              b_name body = VStr n /\ b_description body = VStr d
              /\ b_category body = VStr c /\ b_price body = VNum p
              /\ b_inStock body = VBool s
              /\ 1 <= Syntax.slen (Str.trim n) <= 100
              /\ 1 <= Syntax.slen (Str.trim d) <= 500
              /\ In (Str.toLowerCase (Str.trim c))
                    QueryProcessor.validCategories
              /\ leb p (Num.of_Z 0) = false /\ Num.ltb p cent = false
              /\ Num.ltb (Num.of_Z 999999) p = false).
  { unfold errors. split.
    - intros Herr.
      apply List.app_eq_nil in Herr. destruct Herr as [Herr Hunknown].
      apply List.app_eq_nil in Herr. destruct Herr as [Herr Hlong].
      apply List.app_eq_nil in Hlong. destruct Hlong as [HdLong Hrange].
      apply List.app_eq_nil in Herr. destruct Herr as [Herr HnLong].
      apply List.app_eq_nil in Herr. destruct Herr as [Hname Herr].
      apply List.app_eq_nil in Herr. destruct Herr as [Hdesc Herr].
      apply List.app_eq_nil in Herr. destruct Herr as [Hprice Herr].
      apply List.app_eq_nil in Herr. destruct Herr as [Hcat Hstock].
      apply when_nil in Hname, Hdesc, Hcat, Hunknown, HdLong, HnLong.
      apply notFilled_false in Hname, Hdesc, Hcat.
      destruct Hname as (n & En & Ln). destruct Hdesc as (d & Ed & Ld).
      destruct Hcat as (c & Ec & Lc).
      apply priceErrors_nil in Hprice. destruct Hprice as (p & Ep & Hpos).
      apply stockErrors_nil in Hstock. destruct Hstock as (s & Es).
      rewrite Ep in Hrange. apply rangeErrors_number in Hrange.
      destruct Hrange as [Hlo Hhi].
      rewrite En, (filled_truthy n Ln) in HnLong.
      rewrite Ed, (filled_truthy d Ld) in HdLong.
      rewrite Ec, (filled_truthy c Lc) in Hunknown.
      cbn [andb] in HnLong, HdLong, Hunknown.
      apply Z.ltb_ge in HnLong, HdLong.
      apply Bool.negb_false_iff, includes_In in Hunknown.
      exists n, d, c, p, s.
      repeat (split; [first [assumption | lia]|]). assumption.
    - intros (n & d & c & p & s & En & Ed & Ec & Ep & Es & Ln & Ld & Hc
              & Hpos & Hlo & Hhi).
      assert (Lc : 1 <= Syntax.slen (Str.trim c)).
      { destruct (Str.trim c) eqn:Et; [|unfold Syntax.slen; cbn; lia].
        exfalso. cbn in Hc.
        repeat (destruct Hc as [Hc|Hc]; [discriminate Hc|]). exact Hc. }
      rewrite En, Ed, Ec, Ep, Es.
      rewrite (proj2 (notFilled_false (VStr n))) by (exists n; split; [reflexivity|lia]).
      rewrite (proj2 (notFilled_false (VStr d))) by (exists d; split; [reflexivity|lia]).
      rewrite (proj2 (notFilled_false (VStr c))) by (exists c; split; [reflexivity|lia]).
      rewrite (proj2 (priceErrors_nil (VNum p))) by (exists p; now split).
      rewrite (proj2 (rangeErrors_number p)) by now split.
      rewrite (filled_truthy n), (filled_truthy d), (filled_truthy c) by lia.
      replace (100 <? Syntax.slen (Str.trim n)) with false
        by (symmetry; apply Z.ltb_ge; lia).
      replace (500 <? Syntax.slen (Str.trim d)) with false
        by (symmetry; apply Z.ltb_ge; lia).
      rewrite (proj2 (includes_In _ _) Hc). reflexivity. }
  destruct (0 <? Z.of_nat (List.length errors)) eqn:Herr.
  - split; [intros m; split; [discriminate|]|split].
    + intros [[C _]|[[_ [C _]]|[_ [_ [C _]]]]]; discriminate C.
    + intros b. split; [discriminate|].
      intros (n & d & c & p & s & H). exfalso.
      assert (E : errors = []).
      { apply Hclean. exists n, d, c, p, s.
        destruct H as (?&?&?&?&?&?&?&?&?&?&?&_). now repeat split. }
      rewrite E in Herr. discriminate Herr.
    + intros e [= <-]. split; [reflexivity|]. split; [reflexivity|].
      split; [reflexivity|]. exists errors.
      split; [reflexivity|]. split; [exact (some_errors _ Herr)|].
      exact (details_membership body).
  - apply no_errors in Herr.
    destruct (proj1 Hclean Herr)
      as (n & d & c & p & s & En & Ed & Ec & Ep & Es & Hrest).
    rewrite En, Ed, Ec, Ep, Es. cbn [trimOf Val.truthy Val.toString].
    split; [intros m; split; [discriminate|]|split; [|discriminate]].
    { intros [[C _]|[[_ [C _]]|[_ [_ [C _]]]]]; discriminate C. }
    intros b. split.
    + intros [= <-]. exists n, d, c, p, s.
      destruct Hrest as (?&?&?&?&?&?).
      repeat (split; [first [reflexivity | assumption]|]). reflexivity.
    + intros (n' & d' & c' & p' & s' & [= <-] & [= <-] & [= <-] & [= <-]
              & [= <-] & _ & _ & _ & _ & _ & _ & ->).
      reflexivity.
Qed.

Lemma validateProductCreation_spec_witness :
  validateProductCreation More.env More.numbered
  = Throw "name.trim is not a function".
Proof.
  apply (proj1 (validateProductCreation_spec More.env More.numbered)).
  left. split; reflexivity.
Defined.

End NewProductValidation.
